(** * RAGEngine (app/rag_engine.py): a shallow embedding and its properties

    The engine keeps a FAISS inner-product index together with the list of
    FAQ entries the index was built from.  The Python code is modelled with
    explicit state passing: the state holds the object heap (dict and list
    objects, so that aliasing and in-place mutation are visible), the files
    on disk, the batches handed to the sentence encoder, and the attributes
    of the engine object.  Exceptions are values of the result type. *)

From Stdlib Require Import ZArith String Ascii.
From Stdlib Require Import Floats.SpecFloat.
From stdpp Require Import gmap strings list pretty.

Set Warnings "-register-all".
Local Open Scope Z_scope.

(** ** Python values *)

(** Exceptions that the modelled code can meet.  [SystemError] stands for a
    dangling object reference, which Python itself never produces. *)
Inductive exn :=
| FileNotFoundError
| JSONDecodeError
| UnpicklingError
| RuntimeError
| KeyError (key : string)
| IndexError
| TypeError
| AttributeError
| UnicodeDecodeError
| AssertionError
| EncoderError
| SystemError.

Inductive outcome (A : Type) :=
| Ok (a : A)
| Raise (e : exn).
Arguments Ok {A} a.
Arguments Raise {A} e.

#[global] Instance outcome_ret : MRet outcome := fun A a => Ok a.
#[global] Instance outcome_bind : MBind outcome := fun A B f m =>
  match m with
  | Ok a => f a
  | Raise e => Raise e
  end.

(** A Python [float] is an IEEE binary64 number, taken in its canonical
    representation; comparisons follow [SFcompare], under which every
    comparison with a NaN is false. *)
Abbreviation float := spec_float.

(** JSON-shaped Python values.  A [dict] is a finite map from string keys. *)
Inductive value :=
| VNone
| VBool (b : bool)
| VInt (z : Z)
| VFloat (f : float)
| VStr (s : string)
| VList (l : list value)
| VDict (d : gmap string value).

Abbreviation dict := (gmap string value).

(** [v[key]] for a string key: only a dict can be subscripted by a string. *)
Definition py_getitem (v : value) (key : string) : outcome value :=
  match v with
  | VDict d =>
      match d !! key with
      | Some x => Ok x
      | None => Raise (KeyError key)
      end
  | _ => Raise TypeError
  end.

(** [d[key]] on a dict object. *)
Definition dict_getitem (d : dict) (key : string) : outcome value :=
  py_getitem (VDict d) key.

Fixpoint chars (s : string) : list string :=
  match s with
  | EmptyString => []
  | String c s' => String c EmptyString :: chars s'
  end.

(** [for x in v]: the elements a value yields when iterated. *)
Definition py_iter (v : value) : outcome (list value) :=
  match v with
  | VList l => Ok l
  | VStr s => Ok (VStr <$> chars s)
  | VDict d => Ok (VStr <$> (map_to_list d).*1)
  | _ => Raise TypeError
  end.

(** [l[i]] on a list, with Python's negative indices: [-1] is the last
    element, and an index outside [-len .. len-1] raises [IndexError]. *)
Definition list_getitem {A} (l : list A) (i : Z) : outcome A :=
  let n := Z.of_nat (length l) in
  let j := if i <? 0 then i + n else i in
  if (j <? 0) || (n <=? j) then Raise IndexError
  else match l !! Z.to_nat j with
       | Some x => Ok x
       | None => Raise IndexError
       end.

(** [sep.join(parts)]. *)
Fixpoint str_join (sep : string) (parts : list string) : string :=
  match parts with
  | [] => EmptyString
  | [p] => p
  | p :: rest => p +:+ sep +:+ str_join sep rest
  end.

Fixpoint str_prefix (p s : string) : bool :=
  match p, s with
  | EmptyString, _ => true
  | String a p', String b s' => if Ascii.eqb a b then str_prefix p' s' else false
  | String _ _, EmptyString => false
  end.

(** [s.replace(old, new)] for a non-empty [old]: every non-overlapping
    occurrence, scanning from the left.  [skip] counts the characters of a
    match that are still to be passed over. *)
Fixpoint str_replace_from (old new : string) (skip : nat) (s : string) : string :=
  match s with
  | EmptyString => EmptyString
  | String c s' =>
      match skip with
      | S n => str_replace_from old new n s'
      | O =>
          if str_prefix old s
          then new +:+ str_replace_from old new (Nat.pred (String.length old)) s'
          else String c (str_replace_from old new O s')
      end
  end.

Definition str_replace (old new s : string) : string :=
  str_replace_from old new O s.

Fixpoint str_contains_char (c : ascii) (s : string) : bool :=
  match s with
  | EmptyString => false
  | String a s' => if Ascii.eqb a c then true else str_contains_char c s'
  end.

(** [score >= threshold] on floats. *)
Definition float_ge (x y : float) : bool := SFleb y x.

(** [x < y] on floats. *)
Definition float_lt (x y : float) : bool := SFltb x y.

(** ** External capabilities

    The sentence encoder, FAISS's numeric kernels and Python's string
    formatting are libraries the engine calls.  Their results are taken as
    given; a row of an embedding matrix is a list of floats. *)

Abbreviation vec := (list float).

Class Externals := {
  (** [SentenceTransformer.encode(batch)]: one row per text, or an exception. *)
  encoder : list string -> outcome (list vec);
  (** [faiss.normalize_L2] on one row. *)
  normalize_L2 : vec -> vec;
  (** The inner product FAISS computes between a query and a stored row,
      as the Python float that [float(score)] yields. *)
  inner_product : vec -> vec -> float;
  (** [format(v)], the text an f-string inserts for [{v}]. *)
  py_format : value -> string
}.

(** ** faiss.IndexFlatIP

    FAISS is a library the engine calls; the index is modelled after its
    documented behaviour.  A flat index stores its rows in insertion order
    (rows are taken to have the index's dimension).  A search for [k]
    neighbours, [k] positive, returns exactly [k] (score, label) slots per
    query row, best score first; when the index holds fewer than [k] rows
    the remaining slots carry the label [-1] and the score [-FLT_MAX].
    Rows of equal score are listed here in row order; FAISS ranks them in an
    order of its own, so the ranking is the library's only where the scores
    differ. *)

Abbreviation faiss_index := (list vec).

Definition ntotal (ix : faiss_index) : nat := length ix.

(** [-3.4028235e+38], the lowest float32, as a binary64 number. *)
Definition neg_flt_max : float := S754_finite true 9007198717870080 75.

Definition missing_slot : float * Z := (neg_flt_max, -1).

(** Slots by descending score, rows of equal score in row order. *)
Fixpoint insert_desc (x : float * Z) (l : list (float * Z)) : list (float * Z) :=
  match l with
  | [] => [x]
  | y :: l' =>
      if float_lt x.1 y.1 then y :: insert_desc x l' else x :: y :: l'
  end.

Definition sort_desc (l : list (float * Z)) : list (float * Z) :=
  foldr insert_desc [] l.

Section Faiss.
Context `{!Externals}.

(** The score of every row against the query, labelled with the row. *)
Definition scored_rows (ix : faiss_index) (q : vec) : list (float * Z) :=
  imap (fun i row => (inner_product q row, Z.of_nat i)) ix.

(** The [k] slots for one query row. *)
Definition index_search_row (ix : faiss_index) (k : nat) (q : vec) : list (float * Z) :=
  take k (sort_desc (scored_rows ix q) ++ replicate k missing_slot).

(** [index.search(queries, k)]: one list of [k] slots per query row.  The
    call asserts that [k] is positive. *)
Definition index_search (ix : faiss_index) (queries : list vec) (k : nat)
  : outcome (list (list (float * Z))) :=
  match k with
  | O => Raise AssertionError
  | S _ => Ok (index_search_row ix k <$> queries)
  end.

(** [faiss.normalize_L2(x)] on a matrix: every row is normalised.  The call
    reads [x.shape[1]], which the array the encoder returns for an empty
    batch does not have: an array without rows is one-dimensional. *)
Definition faiss_normalize_L2 (x : list vec) : outcome (list vec) :=
  match x with
  | [] => Raise IndexError
  | _ :: _ => Ok (normalize_L2 <$> x)
  end.
End Faiss.

(** ** Machine state

    Dict and list objects live in a heap and are referred to by address, so
    that two references to one object, and an update in place, are told
    apart from a copy.  The values inside a dict are immutable. *)

Abbreviation loc := nat.

(** What a path on disk holds: text, as the two sources are, or bytes
    that are not UTF-8 text, as the two artifacts are (an index of the
    engine's dimension and a pickle both hold the byte 0x80 where no
    character starts).  Two kinds of file are not represented: text that
    parses as JSON of another shape than an array of objects, and a pickle
    of another object than a list of dicts. *)
Inductive file :=
| FileJson (rows : list dict)      (* text: a JSON array of objects *)
| FileText                         (* text that is not JSON *)
| FileIndex (ix : faiss_index)     (* bytes: an index written by [faiss.write_index] *)
| FilePickle (entries : list dict) (* bytes: a list of dicts written by [pickle.dump] *)
| FileBytes.                       (* other bytes that are not UTF-8 text *)

Record state := State {
  dicts : list dict;                (* dict objects, by address *)
  lists : list (list loc);          (* list objects holding references to dicts *)
  files : gmap string file;         (* the disk *)
  encoded : list (list string);     (* batches passed to the encoder, oldest first *)
  self_index : option faiss_index;  (* [self.index]; [None] is Python's None *)
  self_faqs : loc;                  (* [self.faqs], a reference to a list object *)
  self_index_path : string          (* [self.index_path] *)
}.

Definition set_dicts (f : list dict -> list dict) (s : state) : state :=
  State (f (dicts s)) (lists s) (files s) (encoded s) (self_index s) (self_faqs s)
        (self_index_path s).
Definition set_lists (f : list (list loc) -> list (list loc)) (s : state) : state :=
  State (dicts s) (f (lists s)) (files s) (encoded s) (self_index s) (self_faqs s)
        (self_index_path s).
Definition set_files (f : gmap string file -> gmap string file) (s : state) : state :=
  State (dicts s) (lists s) (f (files s)) (encoded s) (self_index s) (self_faqs s)
        (self_index_path s).
Definition set_encoded (f : list (list string) -> list (list string)) (s : state) : state :=
  State (dicts s) (lists s) (files s) (f (encoded s)) (self_index s) (self_faqs s)
        (self_index_path s).
Definition set_self_index (ix : option faiss_index) (s : state) : state :=
  State (dicts s) (lists s) (files s) (encoded s) ix (self_faqs s) (self_index_path s).
Definition set_self_faqs (l : loc) (s : state) : state :=
  State (dicts s) (lists s) (files s) (encoded s) (self_index s) l (self_index_path s).

(** Computations: a result or an exception, and the state reached either way. *)
Definition M (A : Type) : Type := state -> outcome A * state.

#[global] Instance M_ret : MRet M := fun A a s => (Ok a, s).
#[global] Instance M_bind : MBind M := fun A B f m s =>
  match m s with
  | (Ok a, s') => f a s'
  | (Raise e, s') => (Raise e, s')
  end.

Definition raise {A} (e : exn) : M A := fun s => (Raise e, s).
Definition lift {A} (o : outcome A) : M A := fun s => (o, s).
Definition gets {A} (f : state -> A) : M A := fun s => (Ok (f s), s).
Definition modify (f : state -> state) : M unit := fun s => (Ok tt, f s).

(** [try: body except e: handler e]. *)
Definition try_except {A} (body : M A) (handler : exn -> M A) : M A := fun s =>
  match body s with
  | (Ok a, s') => (Ok a, s')
  | (Raise e, s') => handler e s'
  end.

Fixpoint for_each {A B} (f : A -> M B) (l : list A) : M (list B) :=
  match l with
  | [] => mret []
  | x :: l' => y ← f x; ys ← for_each f l'; mret (y :: ys)
  end.

(** *** Heap primitives *)

Definition alloc_dict (d : dict) : M loc := fun s =>
  (Ok (length (dicts s)), set_dicts (fun h => h ++ [d]) s).

Definition alloc_list (l : list loc) : M loc := fun s =>
  (Ok (length (lists s)), set_lists (fun h => h ++ [l]) s).

Definition read_dict (p : loc) : M dict := fun s =>
  match dicts s !! p with
  | Some d => (Ok d, s)
  | None => (Raise SystemError, s)
  end.

Definition read_list (p : loc) : M (list loc) := fun s =>
  match lists s !! p with
  | Some l => (Ok l, s)
  | None => (Raise SystemError, s)
  end.

Definition write_dict (p : loc) (d : dict) : M unit :=
  modify (set_dicts (fun h => <[p := d]> h)).

Definition write_list (p : loc) (l : list loc) : M unit :=
  modify (set_lists (fun h => <[p := l]> h)).

(** Building the objects of a freshly deserialised list of dicts. *)
Definition new_entries (rows : list dict) : M loc :=
  ps ← for_each alloc_dict rows; alloc_list ps.

(** The values of the entries a list object refers to. *)
Definition read_entries (p : loc) : M (list dict) :=
  ps ← read_list p; for_each read_dict ps.

(** *** Disk primitives *)

(** [json.load(f)] on [open(path, 'r', encoding='utf-8')]: a file that is
    not text fails in the decoder of the stream, before the JSON parser
    sees it. *)
Definition json_load (path : string) : M (list dict) := fun s =>
  match files s !! path with
  | None => (Raise FileNotFoundError, s)
  | Some (FileJson rows) => (Ok rows, s)
  | Some FileText => (Raise JSONDecodeError, s)
  | Some (FileIndex _) | Some (FilePickle _) | Some FileBytes =>
      (Raise UnicodeDecodeError, s)
  end.

(** [faiss.read_index(path)]: FAISS reports a missing file and a file that
    is not an index alike, as a RuntimeError. *)
Definition read_index (path : string) : M faiss_index := fun s =>
  match files s !! path with
  | Some (FileIndex ix) => (Ok ix, s)
  | _ => (Raise RuntimeError, s)
  end.

(** [pickle.load(open(path, 'rb'))] of a file that holds no pickle raises;
    which exception does not matter to [load_index], the only caller, which
    catches them all. *)
Definition pickle_load (path : string) : M (list dict) := fun s =>
  match files s !! path with
  | None => (Raise FileNotFoundError, s)
  | Some (FilePickle entries) => (Ok entries, s)
  | Some _ => (Raise UnpicklingError, s)
  end.

(** Writing a file.  The write is taken to succeed: a disk that is full
    or a path under a missing directory is not modelled. *)
Definition write_file (path : string) (f : file) : M unit :=
  modify (set_files (fun fs => <[path := f]> fs)).

(** [os.makedirs(os.path.dirname(path), exist_ok=True)]: a path without a
    directory part has the dirname [''], which [makedirs] rejects; otherwise
    the directory is taken to be creatable. *)
Definition makedirs_dirname (path : string) : M unit :=
  if str_contains_char "/"%char path then mret tt else raise FileNotFoundError.

(** ** The engine: class RAGEngine *)

Definition default_faq_path : string := "data/faqs.json".
Definition default_order_path : string := "data/order_database.json".
Definition default_index_path : string := "data/faiss_index.bin".

(** [RAGEngine(index_path=...)] on a given disk: no index, and [self.faqs]
    bound to a fresh empty list. *)
Definition new_engine (index_path : string) (disk : gmap string file) : state :=
  State [] [[]] disk [] None 0%nat index_path.

(** [self.index_path.replace('.bin', '_faqs.pkl')]. *)
Definition faq_data_path (index_path : string) : string :=
  str_replace ".bin" "_faqs.pkl" index_path.

Section Engine.
Context `{!Externals}.

(** [self.model.encode(texts)], recording the batch. *)
Definition model_encode (texts : list string) : M (list vec) :=
  modify (set_encoded (fun log => log ++ [texts]));;
  lift (encoder texts).

(** [load_faqs]: rebinds [self.faqs] to the parsed file and returns it; a
    missing file and text that is not JSON leave [self.faqs] alone and
    return a new empty list.  No other exception is caught. *)
Definition load_faqs (faq_path : string) : M loc :=
  try_except
    (rows ← json_load faq_path;
     p ← new_entries rows;
     modify (set_self_faqs p);;
     gets self_faqs)
    (fun e =>
       match e with
       | FileNotFoundError => alloc_list []
       | JSONDecodeError => alloc_list []
       | _ => raise e
       end).

(** [f"{item['name']} (x{item['quantity']})"]. *)
Definition item_text (item : value) : outcome string :=
  name ← py_getitem item "name";
  quantity ← py_getitem item "quantity";
  mret (py_format name +:+ " (x" +:+ py_format quantity +:+ ")").

Fixpoint items_texts (items : list value) : outcome (list string) :=
  match items with
  | [] => mret []
  | item :: rest => t ← item_text item; ts ← items_texts rest; mret (t :: ts)
  end.

(** The dict literal built for one order in [load_order_data]. *)
Definition order_to_faq (order : dict) : outcome dict :=
  items_value ← dict_getitem order "items";
  items ← py_iter items_value;
  parts ← items_texts items;
  let items_text := str_join ", " parts in
  q_id ← dict_getitem order "order_id";
  let question := "Order " +:+ py_format q_id +:+ " details" in
  a_id ← dict_getitem order "order_id";
  customer ← dict_getitem order "customer_name";
  restaurant ← dict_getitem order "restaurant";
  total ← dict_getitem order "total_amount";
  status ← dict_getitem order "status";
  address ← dict_getitem order "delivery_address";
  let answer :=
    "Order ID: " +:+ py_format a_id +:+
    ", Customer: " +:+ py_format customer +:+
    ", Restaurant: " +:+ py_format restaurant +:+
    ", Items: " +:+ items_text +:+
    ", Total: $" +:+ py_format total +:+
    ", Status: " +:+ py_format status +:+
    ", Delivery Address: " +:+ py_format address in
  order_id ← dict_getitem order "order_id";
  mret (<["question" := VStr question]>
        (<["answer" := VStr answer]>
        (<["category" := VStr "order_data"]>
        (<["order_id" := order_id]> ∅)))).

(** [load_order_data]: one new dict object per order, in order.  The order
    records are only read, so they stay values; the returned list is local
    to the caller, so only its elements are kept.  Only a missing file and
    text that is not JSON are caught. *)
Definition load_order_data (order_path : string) : M (list loc) :=
  try_except
    (orders ← json_load order_path;
     for_each (fun order => d ← lift (order_to_faq order); alloc_dict d) orders)
    (fun e =>
       match e with
       | FileNotFoundError => mret []
       | JSONDecodeError => mret []
       | _ => raise e
       end).

(** [f"{faq['question']} {faq['answer']}"]. *)
Definition combined_text (faq : dict) : outcome string :=
  question ← dict_getitem faq "question";
  answer ← dict_getitem faq "answer";
  mret (py_format question +:+ " " +:+ py_format answer).

(** [create_embeddings]. [self.faqs.extend(order_faqs)] updates the list
    object [self.faqs] refers to, in place. *)
Definition create_embeddings : M (list vec) :=
  p ← gets self_faqs;
  current ← read_list p;
  (if bool_decide (current = []) then load_faqs default_faq_path;; mret tt else mret tt);;
  order_faqs ← load_order_data default_order_path;
  p ← gets self_faqs;
  current ← read_list p;
  write_list p (current ++ order_faqs);;
  p ← gets self_faqs;
  faqs ← read_list p;
  texts ← for_each (fun q => faq ← read_dict q; lift (combined_text faq)) faqs;
  model_encode texts.

(** [self.index.add(rows)]: the rows are appended to the index. *)
Definition index_add (rows : list vec) : M unit :=
  ix ← gets self_index;
  match ix with
  | Some old => modify (set_self_index (Some (old ++ rows)))
  | None => raise AttributeError
  end.

(** [build_index]: a new empty index is bound to [self.index], then the
    rows are normalised and added to it. *)
Definition build_index : M faiss_index :=
  embeddings ← create_embeddings;
  modify (set_self_index (Some []));;
  embeddings ← lift (faiss_normalize_L2 embeddings);
  index_add embeddings;;
  ix ← gets self_index;
  match ix with
  | Some ix => mret ix
  | None => raise AttributeError
  end.

(** [save_index]. *)
Definition save_index : M unit :=
  ix ← gets self_index;
  match ix with
  | None => mret tt
  | Some ix =>
      path ← gets self_index_path;
      makedirs_dirname path;;
      write_file path (FileIndex ix);;
      p ← gets self_faqs;
      entries ← read_entries p;
      write_file (faq_data_path path) (FilePickle entries)
  end.

(** [load_index]: every exception of the body is caught and reported as
    [False]. *)
Definition load_index : M bool :=
  try_except
    (path ← gets self_index_path;
     ix ← read_index path;
     modify (set_self_index (Some ix));;
     entries ← pickle_load (faq_data_path path);
     p ← new_entries entries;
     modify (set_self_faqs p);;
     mret true)
    (fun _ => mret false).

(** The loop of [search] over [zip(scores[0], indices[0])]. *)
Fixpoint collect_results (faqs : list loc) (slots : list (float * Z))
  : outcome (list (loc * float)) :=
  match slots with
  | [] => mret []
  | (score, idx) :: rest =>
      if idx <? Z.of_nat (length faqs)
      then faq ← list_getitem faqs idx;
           results ← collect_results faqs rest;
           mret ((faq, score) :: results)
      else collect_results faqs rest
  end.

(** [search(query, k)]. *)
Definition search (query : string) (k : nat) : M (list (loc * float)) :=
  ix ← gets self_index;
  match ix with
  | None =>
      loaded ← load_index;
      if loaded : bool then mret tt else build_index;; save_index
  | Some _ => mret tt
  end;;
  query_embedding ← model_encode [query];
  query_embedding ← lift (faiss_normalize_L2 query_embedding);
  ix ← gets self_index;
  match ix with
  | None => raise AttributeError
  | Some ix =>
      found ← lift (index_search ix query_embedding k);
      match found with
      | [] => raise IndexError
      | slots :: _ =>
          p ← gets self_faqs;
          faqs ← read_list p;
          lift (collect_results faqs slots)
      end
  end.

(** One round of the loop of [get_relevant_faqs]: a copy of the entry is
    made, and the score is stored in the copy. *)
Definition copy_with_score (faq : loc) (score : float) : M loc :=
  d ← read_dict faq;
  faq_with_score ← alloc_dict d;
  d' ← read_dict faq_with_score;
  write_dict faq_with_score (<["similarity_score" := VFloat score]> d');;
  mret faq_with_score.

Fixpoint relevant_loop (threshold : float) (results : list (loc * float)) : M (list loc) :=
  match results with
  | [] => mret []
  | (faq, score) :: rest =>
      if float_ge score threshold
      then q ← copy_with_score faq score;
           qs ← relevant_loop threshold rest;
           mret (q :: qs)
      else relevant_loop threshold rest
  end.

(** [get_relevant_faqs(query, threshold)]. *)
Definition get_relevant_faqs (query : string) (threshold : float) : M (list loc) :=
  results ← search query 5;
  relevant_loop threshold results.

(** [initialize]. *)
Definition initialize : M unit :=
  loaded ← load_index;
  if loaded : bool then mret tt else build_index;; save_index.

End Engine.

(** ** Notions used to state the properties *)

(** The values of the entries held by the list object at [p]. *)
Definition entries_at (s : state) (p : loc) : option (list dict) :=
  ps ← lists s !! p; mapM (fun q => dicts s !! q) ps.

(** The engine's entry sequence, by value. *)
Definition entries_of (s : state) : option (list dict) :=
  entries_at s (self_faqs s).

(** [self.faqs] refers to a list object whose elements are dict objects,
    as it does in every state a Python program reaches. *)
Definition wf_state (s : state) : Prop := is_Some (entries_of s).

(** The dict object a reference denotes. *)
Definition deref (s : state) (p : loc) : dict := default ∅ (dicts s !! p).

(** Every part of the state but the dict objects is the same. *)
Definition same_engine (s s' : state) : Prop :=
  lists s' = lists s /\ files s' = files s /\ encoded s' = encoded s /\
  self_index s' = self_index s /\ self_faqs s' = self_faqs s /\
  self_index_path s' = self_index_path s.

(** *** Sources and artifacts *)

(** The rows a source file contributes: none when it is missing or does
    not parse. *)
Definition source_rows (disk : gmap string file) (path : string) : list dict :=
  match disk !! path with
  | Some (FileJson rows) => rows
  | _ => []
  end.

(** A source as the loaders expect it: missing, or text, be it a JSON
    array of objects or no JSON at all.  A source of any other kind makes
    the loader raise. *)
Definition text_source (disk : gmap string file) (path : string) : Prop :=
  match disk !! path with
  | None | Some (FileJson _) | Some FileText => True
  | Some _ => False
  end.

(** A source that contributes nothing. *)
Definition empty_source (disk : gmap string file) (path : string) : Prop :=
  text_source disk path /\ source_rows disk path = [].

(** The index artifact and the entries artifact, when readable. *)
Definition stored_index (s : state) : option faiss_index :=
  match files s !! self_index_path s with
  | Some (FileIndex ix) => Some ix
  | _ => None
  end.

Definition stored_entries (s : state) : option (list dict) :=
  match files s !! faq_data_path (self_index_path s) with
  | Some (FilePickle entries) => Some entries
  | _ => None
  end.

(** The state reached by publishing a loaded pair: the entries become new
    objects, and [self.index], [self.faqs] are rebound. *)
Definition publish (ix : faiss_index) (entries : list dict) (s : state) : state :=
  State (dicts s ++ entries)
        (lists s ++ [seq (length (dicts s)) (length entries)])
        (files s) (encoded s) (Some ix) (length (lists s)) (self_index_path s).

(** *** Invariants *)

(** A computation preserves a property of states when the state it ends
    in, whether it returns or raises, has the property again. *)
Definition preserves (I : state -> Prop) {A} (m : M A) : Prop :=
  forall s, I s -> I (m s).2.

(** Properties of states that survive every kind of step the engine takes:
    allocating an object, touching the disk, the encoder log or
    [self.index], rebinding [self.faqs] to freshly built entries, and
    extending the list [self.faqs] refers to with live entries. *)
Class Invariant (I : state -> Prop) : Prop := {
  inv_alloc_dict : forall d s, I s -> I (set_dicts (fun h => h ++ [d]) s);
  inv_alloc_list : forall l s, I s -> I (set_lists (fun h => h ++ [l]) s);
  inv_files : forall f s, I s -> I (set_files f s);
  inv_encoded : forall f s, I s -> I (set_encoded f s);
  inv_index : forall ix s, I s -> I (set_self_index ix s);
  inv_rebind : forall rows s, I s ->
    I (set_self_faqs (length (lists s))
         (set_lists (fun h => h ++ [seq (length (dicts s)) (length rows)])
            (set_dicts (fun h => h ++ rows) s)));
  inv_extend : forall current ps s, I s ->
    lists s !! self_faqs s = Some current ->
    Forall (fun p => (p < length (dicts s))%nat) ps ->
    I (set_lists (fun h => <[self_faqs s := current ++ ps]> h) s)
}.

(** The dict objects of an earlier heap [h0] are still there, unchanged. *)
Definition keeps_dicts (h0 : list dict) (s : state) : Prop :=
  h0 `prefix_of` dicts s.

(** [self.index_path] is still [path]. *)
Definition keeps_path (path : string) (s : state) : Prop :=
  self_index_path s = path.

(** *** Searching *)

(** Scores that rank in one way only: numbers above [-FLT_MAX], no two of
    them equal. *)
Fixpoint distinct_scores (scores : list float) : bool :=
  match scores with
  | [] => true
  | x :: rest =>
      float_lt neg_flt_max x &&
      forallb (fun y => float_lt x y || float_lt y x) rest &&
      distinct_scores rest
  end.

(** The rows the loop of [search] is meant to keep: those that have an
    entry, each as [entries[row]] with its score. *)
Definition kept_rows (faqs : list loc) (slots : list (float * Z)) : list (loc * float) :=
  omap (fun sl : float * Z => (fun p => (p, sl.1)) <$> faqs !! Z.to_nat sl.2) slots.

(** [entry['similarity_score'] = score] on a dict value. *)
Definition annotate (d : dict) (score : float) : dict :=
  <["similarity_score" := VFloat score]> d.

(** A search result clears the threshold. *)
Definition clears (threshold : float) (r : loc * float) : bool :=
  float_ge r.2 threshold.

(** The specification's [relevant(query, threshold, k)]: the search with
    [k] neighbours followed by the loop of [get_relevant_faqs], which is its
    instance at [k = 5]. *)
Definition relevant `{!Externals} (query : string) (threshold : float) (k : nat)
  : M (list loc) :=
  results ← search query k;
  relevant_loop threshold results.

(** *** The entry an order stands for

    The fields of an order record that [load_order_data] reads. *)
Record order_fields := OrderFields {
  of_order_id : value;
  of_customer_name : value;
  of_restaurant : value;
  of_items : list (value * value);   (* name and quantity of each item *)
  of_total_amount : value;
  of_status : value;
  of_delivery_address : value
}.

Definition has_item (item : value) (nq : value * value) : Prop :=
  exists d, item = VDict d /\ d !! "name" = Some nq.1 /\ d !! "quantity" = Some nq.2.

(** The order record [order] carries the fields [r]. *)
Definition order_record (order : dict) (r : order_fields) : Prop :=
  order !! "order_id" = Some (of_order_id r) /\
  order !! "customer_name" = Some (of_customer_name r) /\
  order !! "restaurant" = Some (of_restaurant r) /\
  order !! "total_amount" = Some (of_total_amount r) /\
  order !! "status" = Some (of_status r) /\
  order !! "delivery_address" = Some (of_delivery_address r) /\
  exists items, order !! "items" = Some (VList items) /\
                Forall2 has_item items (of_items r).

Section OrderEntry.
Context `{!Externals}.

(** ["name (xquantity)"]. *)
Definition item_label (nq : value * value) : string :=
  py_format nq.1 +:+ " (x" +:+ py_format nq.2 +:+ ")".

(** The flattening of an order's fields, the items joined by [", "]. *)
Definition order_answer (r : order_fields) : string :=
  "Order ID: " +:+ py_format (of_order_id r) +:+
  ", Customer: " +:+ py_format (of_customer_name r) +:+
  ", Restaurant: " +:+ py_format (of_restaurant r) +:+
  ", Items: " +:+ str_join ", " (item_label <$> of_items r) +:+
  ", Total: $" +:+ py_format (of_total_amount r) +:+
  ", Status: " +:+ py_format (of_status r) +:+
  ", Delivery Address: " +:+ py_format (of_delivery_address r).

(** The entry derived from an order. *)
Definition order_entry (r : order_fields) : dict :=
  <["question" := VStr ("Order " +:+ py_format (of_order_id r) +:+ " details")]>
  (<["answer" := VStr (order_answer r)]>
  (<["category" := VStr "order_data"]>
  (<["order_id" := of_order_id r]> ∅))).

(** The texts [create_embeddings] forms from entry values, up to the first
    entry that lacks a key. *)
Fixpoint texts_of (entries : list dict) : outcome (list string) :=
  match entries with
  | [] => Ok []
  | entry :: rest =>
      t ← combined_text entry; ts ← texts_of rest; mret (t :: ts)
  end.

End OrderEntry.

(** The entries a build starts from: the FAQ source when [self.faqs] is
    empty, else what [self.faqs] already holds. *)
Definition base_entries (s : state) (current : list dict) : list dict :=
  if bool_decide (current = []) then source_rows (files s) default_faq_path
  else current.

(** The sources a build reads are as the loaders expect them: the order
    source, and the FAQ source when [self.faqs] is empty. *)
Definition text_sources (s : state) (current : list dict) : Prop :=
  text_source (files s) default_order_path /\
  (current = [] -> text_source (files s) default_faq_path).
(** ** Further notions *)

(** [needle in s] on strings. *)
Fixpoint str_contains (needle s : string) : bool :=
  str_prefix needle s ||
  match s with
  | EmptyString => false
  | String _ s' => str_contains needle s'
  end.

(** A computation leaves a component of the state as it was, whether it
    returns or raises. *)
Definition unchanged {A B} (proj : state -> B) (m : M A) : Prop :=
  forall s, proj (m s).2 = proj s.

(** The exceptions of a failed subscription: a missing key, or a value that
    cannot be subscripted. *)
Definition lookup_error (e : exn) : Prop := (exists key, e = KeyError key) \/ e = TypeError.
(** * The callers of the engine

    [SupportTools.search_faq] (app/tools.py) serves the engine's relevant
    entries, and the two agents (app/demo_agent.py, app/gemini_agent.py)
    decide which tool a message is answered with. *)

(** ** More of Python *)

(** The truth value of a value, as [if v:] and [not v] take it. *)
Definition py_truthy (v : value) : bool :=
  match v with
  | VNone => false
  | VBool b => b
  | VInt z => negb (z =? 0)
  | VFloat (S754_zero _) => false
  | VFloat _ => true
  | VStr s => negb (String.eqb s "")
  | VList l => match l with [] => false | _ => true end
  | VDict d => match map_to_list d with [] => false | _ => true end
  end.

(** [d.get(key, default)]. *)
Definition dict_get (d : dict) (key : string) (dflt : value) : value :=
  match d !! key with
  | Some v => v
  | None => dflt
  end.

(** A method of [str] called on a value: only a string has it. *)
Definition as_str (v : value) : outcome string :=
  match v with
  | VStr s => Ok s
  | _ => Raise AttributeError
  end.

(** [any(word in text for word in words)]. *)
Definition any_in (words : list string) (text : string) : bool :=
  existsb (fun word => str_contains word text) words.

(** The line break of a string literal. *)
Definition nl : string := String (ascii_of_nat 10) EmptyString.

(** Unicode-aware string methods, regular expressions and the text of an
    exception are taken from Python as they are. *)
Class TextLibrary := {
  (** [s.lower()]. *)
  str_lower : string -> string;
  (** [s.title()]. *)
  str_title : string -> string;
  (** [s.strip()]. *)
  str_strip : string -> string;
  (** [len(s)], the number of code points. *)
  str_len : string -> nat;
  (** [re.search(r'FD\d{9}', s)]: the text of the first match, if any. *)
  find_order_id : string -> option string;
  (** [str(e)] for an exception [e]. *)
  exn_str : exn -> string
}.

(** ** class SupportTools (app/tools.py) *)

(** The literal [0.3], the threshold [search_faq] passes. *)
Definition faq_threshold : float := S754_finite false 5404319552844595 (-54).

(** [self.restaurant_data] is the list read from the restaurant file when
    the tools are made.  The methods that read the wall clock or draw a
    random number are taken as given, at one reading of the clock; the
    agents call them with strings. *)
Class SupportTools := {
  restaurant_data : list dict;
  track_order : string -> M dict;
  check_delivery_time : string -> M dict;
  process_refund : string -> string -> M dict;
  escalate_to_human : string -> M dict
}.

Section Tools.
Context `{!Externals}.

(** [search_faq(query)].  The result dict is given by value: [faqs] holds
    the values of the dicts [get_relevant_faqs] returned, which nothing
    changes afterwards. *)
Definition search_faq (query : string) : M dict :=
  relevant_faqs ← get_relevant_faqs query faq_threshold;
  match relevant_faqs with
  | [] =>
      mret (<["success" := VBool false]>
            (<["query" := VStr query]>
            (<["message" := VStr "No relevant FAQs found. Please try rephrasing your question or contact support for assistance."]> ∅)))
  | _ =>
      faqs ← for_each read_dict relevant_faqs;
      mret (<["success" := VBool true]>
            (<["query" := VStr query]>
            (<["faqs" := VList (VDict <$> faqs)]>
            (<["message" := VStr ("Found " +:+ py_format (VInt (Z.of_nat (length relevant_faqs))) +:+
                                  " relevant FAQ(s) for your query.")]> ∅))))
  end.

End Tools.

Section Restaurants.
Context `{!Externals} `{!TextLibrary} `{!SupportTools}.

(** [next((r for r in data if r["name"].lower() == restaurant_name.lower()),
    None)]. *)
Fixpoint find_restaurant (data : list dict) (restaurant_name : string)
  : outcome (option dict) :=
  match data with
  | [] => mret None
  | r :: rest =>
      name ← dict_getitem r "name";
      name ← as_str name;
      if String.eqb (str_lower name) (str_lower restaurant_name)
      then mret (Some r)
      else find_restaurant rest restaurant_name
  end.

(** [get_restaurant_info(restaurant_name)]. *)
Definition get_restaurant_info (restaurant_name : string) : M dict :=
  restaurant ← lift (find_restaurant restaurant_data restaurant_name);
  let not_found :=
    <["success" := VBool false]>
    (<["message" := VStr ("Restaurant '" +:+ restaurant_name +:+
                          "' not found in our database.")]> ∅) in
  match restaurant with
  | None => mret not_found
  | Some restaurant =>
      if negb (py_truthy (VDict restaurant)) then mret not_found
      else name ← lift (dict_getitem restaurant "name");
           mret (<["success" := VBool true]>
                 (<["restaurant" := VDict restaurant]>
                 (<["message" := VStr ("Here's the information for " +:+ py_format name +:+
                                       ".")]> ∅)))
  end.

End Restaurants.

(** ** The agents

    An agent holds the engine and the history of the conversation. *)

Record agent_state := AgentState {
  rag_engine : state;                (* the engine object, shared with the tools *)
  conversation_history : list dict   (* [self.conversation_history] *)
}.

Definition Agent (A : Type) : Type := agent_state -> outcome A * agent_state.

#[global] Instance Agent_ret : MRet Agent := fun A a t => (Ok a, t).
#[global] Instance Agent_bind : MBind Agent := fun A B f m t =>
  match m t with
  | (Ok a, t') => f a t'
  | (Raise e, t') => (Raise e, t')
  end.

(** A call into the tools or the engine. *)
Definition on_engine {A} (m : M A) : Agent A := fun t =>
  match m (rag_engine t) with
  | (o, s) => (o, AgentState s (conversation_history t))
  end.

Definition agent_lift {A} (o : outcome A) : Agent A := fun t => (o, t).

(** [self.conversation_history.append(entry)]. *)
Definition history_append (entry : dict) : Agent unit := fun t =>
  (Ok tt, AgentState (rag_engine t) (conversation_history t ++ [entry])).

(** [try: body except Exception as e: handler e]. *)
Definition agent_try {A} (body : Agent A) (handler : exn -> Agent A) : Agent A := fun t =>
  match body t with
  | (Ok a, t') => (Ok a, t')
  | (Raise e, t') => handler e t'
  end.

(** [{"role": role, "content": content}]. *)
Definition history_entry (role content : value) : dict :=
  <["role" := role]> (<["content" := content]> ∅).

(** [{"function_name": ..., "result": ...}], as [_simulate_function_call]
    returns it. *)
Record function_call := FunctionCall {
  function_name : string;
  result : dict
}.

Module DemoSupportAgent.
Section DemoSupportAgent.
Context `{!Externals} `{!TextLibrary} `{!SupportTools}.

(** [_simulate_function_call(user_message)]. *)
Definition _simulate_function_call (user_message : string) : M function_call :=
  let message_lower := str_lower user_message in
  let otherwise : M function_call :=
    if any_in ["cancel"; "refund"; "payment"; "delivery"; "how"; "what"; "when"] message_lower
    then r ← search_faq user_message; mret (FunctionCall "search_faq" r)
    else if str_contains "refund" message_lower &&
            any_in ["fd123456789"; "fd987654321"] message_lower
    then let order_id := if str_contains "fd123456789" message_lower
                         then "FD123456789" else "FD987654321" in
         r ← process_refund order_id "Food was cold";
         mret (FunctionCall "process_refund" r)
    else if any_in ["mario"; "sushi"; "burger"; "thai"] message_lower
    then let restaurant_name := if str_contains "mario" message_lower
                                then "Mario's Pizza" else "Sushi Palace" in
         r ← get_restaurant_info restaurant_name;
         mret (FunctionCall "get_restaurant_info" r)
    else r ← search_faq user_message; mret (FunctionCall "search_faq" r) in
  if any_in ["track"; "status"; "order"] message_lower
  then if str_contains "fd123456789" message_lower
       then r ← track_order "FD123456789"; mret (FunctionCall "track_order" r)
       else if str_contains "fd987654321" message_lower
       then r ← track_order "FD987654321"; mret (FunctionCall "track_order" r)
       else otherwise
  else otherwise.

(** The loop of [_format_demo_response] over [result['faqs']]. *)
Fixpoint faq_lines (faqs : list value) : outcome string :=
  match faqs with
  | [] => mret EmptyString
  | faq :: rest =>
      question ← py_getitem faq "question";
      answer ← py_getitem faq "answer";
      more ← faq_lines rest;
      mret ("**Q:** " +:+ py_format question +:+ nl +:+
            "**A:** " +:+ py_format answer +:+ nl +:+ nl +:+ more)
  end.

(** [_format_demo_response(function_name, result, user_message)]. *)
Definition _format_demo_response (function_name : string) (result : dict)
    (user_message : string) : outcome value :=
  if negb (py_truthy (dict_get result "success" (VBool false)))
  then mret (VStr ("❌ " +:+ py_format (dict_get result "message" (VStr "Unknown error"))))
  else if String.eqb function_name "track_order"
  then order_id ← dict_getitem result "order_id";
       let order_info := "📦 **Order " +:+ py_format order_id +:+ "**" +:+ nl in
       status ← dict_getitem result "status";
       status ← as_str status;
       let order_info := order_info +:+
         "Status: " +:+ str_title (str_replace "_" " " status) +:+ nl in
       restaurant ← dict_getitem result "restaurant";
       let order_info := order_info +:+ "Restaurant: " +:+ py_format restaurant +:+ nl in
       total_amount ← dict_getitem result "total_amount";
       let order_info := order_info +:+ "Total: $" +:+ py_format total_amount +:+ nl in
       order_info ←
         (if py_truthy (dict_get result "time_remaining" VNone)
          then time_remaining ← dict_getitem result "time_remaining";
               mret (order_info +:+ "Time remaining: " +:+ py_format time_remaining +:+ nl)
          else mret order_info);
       order_info ←
         (if py_truthy (dict_get result "driver_name" VNone)
          then driver_name ← dict_getitem result "driver_name";
               mret (order_info +:+ "Driver: " +:+ py_format driver_name +:+ nl)
          else mret order_info);
       mret (VStr (order_info +:+ nl +:+ nl +:+
                   "I can help you with any questions about your order!"))
  else if String.eqb function_name "search_faq"
  then let faq_text := "📚 **Here's what I found:**" +:+ nl +:+ nl in
       faqs ← dict_getitem result "faqs";
       faqs ← py_iter faqs;
       lines ← faq_lines faqs;
       mret (VStr (faq_text +:+ lines +:+ "Is there anything else I can help you with?"))
  else if String.eqb function_name "process_refund"
  then message ← dict_getitem result "message";
       mret (VStr ("💰 " +:+ py_format message +:+ nl +:+ nl +:+
                   "I've processed your refund request. Is there anything else I can assist you with?"))
  else if String.eqb function_name "get_restaurant_info"
  then restaurant ← dict_getitem result "restaurant";
       name ← py_getitem restaurant "name";
       let info_text := "🍽️ **" +:+ py_format name +:+ "**" +:+ nl in
       cuisine ← py_getitem restaurant "cuisine";
       let info_text := info_text +:+ "Cuisine: " +:+ py_format cuisine +:+ nl in
       rating ← py_getitem restaurant "rating";
       let info_text := info_text +:+ "Rating: " +:+ py_format rating +:+ "/5" +:+ nl in
       delivery_time ← py_getitem restaurant "delivery_time";
       let info_text := info_text +:+ "Delivery time: " +:+ py_format delivery_time +:+ nl in
       delivery_fee ← py_getitem restaurant "delivery_fee";
       let info_text := info_text +:+ "Delivery fee: $" +:+ py_format delivery_fee +:+ nl in
       mret (VStr (info_text +:+ nl +:+ "Would you like to know more about this restaurant?"))
  else mret (dict_get result "message" (VStr "Function executed successfully")).

(** [chat(user_message, session_id)], whatever value is passed as the
    session id: the method only stores it in its reply. *)
Definition chat_any (user_message : string) (session_id : value) : Agent dict :=
  agent_try
    (history_append (history_entry (VStr "user") (VStr user_message));;
     function_result ← on_engine (_simulate_function_call user_message);
     response ← agent_lift (_format_demo_response (function_name function_result)
                              (result function_result) user_message);
     history_append (history_entry (VStr "assistant") response);;
     mret (<["success" := VBool true]>
           (<["response" := response]>
           (<["session_id" := session_id]>
           (<["function_called" := VStr (function_name function_result)]>
           (<["demo_mode" := VBool true]> ∅))))))
    (fun e =>
       mret (<["success" := VBool false]>
             (<["error" := VStr (exn_str e)]>
             (<["response" := VStr "I'm sorry, I encountered an error. Please try again or contact support."]>
             (<["demo_mode" := VBool true]> ∅))))).

(** [chat(user_message, session_id)] with a string as the session id, as
    its signature asks. *)
Definition chat (user_message session_id : string) : Agent dict :=
  chat_any user_message (VStr session_id).

(** [reset_conversation(session_id)]. *)
Definition reset_conversation (session_id : string) : Agent dict := fun t =>
  (Ok (<["success" := VBool true]>
       (<["message" := VStr "Conversation reset"]>
       (<["demo_mode" := VBool true]> ∅))),
   AgentState (rag_engine t) []).

End DemoSupportAgent.
End DemoSupportAgent.

Module GeminiSupportAgent.
Section GeminiSupportAgent.
Context `{!Externals} `{!TextLibrary} `{!SupportTools}.

(** [{"function_name": ..., "arguments": {...}}], as
    [_extract_function_call] returns it; the arguments it builds are
    strings. *)
Record extracted_call := ExtractedCall {
  call_name : string;
  call_arguments : gmap string string
}.

(** [_extract_function_call(user_message, response_text)]. *)
Definition _extract_function_call (user_message response_text : string)
  : option extracted_call :=
  let otherwise : option extracted_call :=
    if any_in ["how"; "what"; "when"; "where"; "can i"; "do you"; "payment"; "cancel";
               "delivery"; "time"; "fee"] (str_lower user_message)
    then Some (ExtractedCall "search_faq" {["query" := user_message]})
    else if any_in ["mario"; "sushi"; "burger"; "thai"; "subway"] (str_lower user_message)
    then let restaurant_name :=
           if str_contains "mario" (str_lower user_message) then "Mario's Pizza"
           else if str_contains "sushi" (str_lower user_message) then "Sushi Palace"
           else if str_contains "burger" (str_lower user_message) then "Burger King"
           else if str_contains "thai" (str_lower user_message) then "Thai Garden"
           else if str_contains "subway" (str_lower user_message) then "Subway"
           else "Mario's Pizza" in
         Some (ExtractedCall "get_restaurant_info" {["restaurant_name" := restaurant_name]})
    else if any_in ["manager"; "supervisor"; "escalate"; "complaint"; "serious"; "urgent"]
              (str_lower user_message)
    then Some (ExtractedCall "escalate_to_human" {["issue" := user_message]})
    else None in
  match find_order_id user_message with
  | Some order_id =>
      if (str_len (str_strip user_message) <=? 15)%nat ||
         any_in ["yes"; "please"; "ok"; "okay"; "sure"; "track"; "status"; "where"; "order";
                 "delivery"; "show"; "details"; "summary"] (str_lower user_message)
      then Some (ExtractedCall "track_order" {["order_id" := order_id]})
      else if any_in ["refund"; "cancel"; "return"; "money back"] (str_lower user_message)
      then Some (ExtractedCall "process_refund"
                   (<["order_id" := order_id]> {["reason" := "Customer request"]}))
      else otherwise
  | None => otherwise
  end.

(** [arguments[key]]. *)
Definition argument (arguments : gmap string string) (key : string) : M string :=
  match arguments !! key with
  | Some v => mret v
  | None => raise (KeyError key)
  end.

(** [_call_function(function_name, arguments)]: every exception of the
    call is caught and reported in the result. *)
Definition _call_function (function_name : string) (arguments : gmap string string)
  : M dict :=
  try_except
    (if String.eqb function_name "track_order"
     then order_id ← argument arguments "order_id"; track_order order_id
     else if String.eqb function_name "check_delivery_time"
     then order_id ← argument arguments "order_id"; check_delivery_time order_id
     else if String.eqb function_name "process_refund"
     then order_id ← argument arguments "order_id";
          reason ← argument arguments "reason";
          process_refund order_id reason
     else if String.eqb function_name "search_faq"
     then query ← argument arguments "query"; search_faq query
     else if String.eqb function_name "escalate_to_human"
     then issue ← argument arguments "issue"; escalate_to_human issue
     else if String.eqb function_name "get_restaurant_info"
     then restaurant_name ← argument arguments "restaurant_name";
          get_restaurant_info restaurant_name
     else mret (<["success" := VBool false]>
                (<["message" := VStr ("Unknown function: " +:+ function_name)]> ∅)))
    (fun e =>
       mret (<["success" := VBool false]>
             (<["message" := VStr ("Error calling function " +:+ function_name +:+ ": " +:+
                                   exn_str e)]> ∅))).

End GeminiSupportAgent.
End GeminiSupportAgent.

(** ** The chat endpoint (app/main.py) *)

Module Main.

(** What the body of the endpoint can raise: a Python exception of the
    agent, FastAPI's [HTTPException], or pydantic's [ValidationError].
    All of them are subclasses of [Exception]. *)
Inductive endpoint_exn :=
| PyError (e : exn)
| HTTPException (status_code : Z) (detail : string)
| ValidationError.

(** [class ChatResponse(BaseModel)]. *)
Record ChatResponse := {
  success : bool;
  response : string;
  session_id : string;
  function_called : option string;
  error : option string
}.

(** pydantic's validation of a field and the text of an exception are
    taken as they are. *)
Class WebLibrary := {
  (** A field of type [str]: the validated text, if the value is accepted. *)
  validate_str : value -> option string;
  (** A field of type [Optional[str]]. *)
  validate_optional_str : value -> option (option string);
  (** [str(e)]. *)
  endpoint_exn_str : endpoint_exn -> string
}.

(** A field of type [Optional[str]], as the value it holds. *)
Definition optional_str (o : option string) : value :=
  match o with
  | Some text => VStr text
  | None => VNone
  end.

Section Main.
Context `{!TextLibrary} `{!WebLibrary}.

(** The globals [support_agent], through its method [chat], and
    [demo_mode], which the module sets when it is loaded.  The method is
    called with whatever the request holds as its session id. *)
Context (support_agent_chat : string -> value -> Agent dict) (demo_mode : bool).

(** [chat_endpoint(chat_message)]: what it returns, or the exception it
    raises.  [ChatMessage] has a [message: str] and a
    [session_id: Optional[str]], which is None when the request carries a
    null.  The body of the [try] comes first; every exception of the body
    is raised again as an [HTTPException] with status 500. *)
Definition chat_endpoint (message : string) (session_id : option string) (t : agent_state)
  : (ChatResponse + endpoint_exn) * agent_state :=
  let body : (ChatResponse + endpoint_exn) * agent_state :=
    if negb (py_truthy (VStr (str_strip message)))
    then (inr (HTTPException 400 "Message cannot be empty"), t)
    else
      match support_agent_chat message (optional_str session_id) t with
      | (Raise e, t') => (inr (PyError e), t')
      | (Ok result, t') =>
          let result := if demo_mode then <["demo_mode" := VBool true]> result else result in
          (match result !! "success" with
           | None => inr (PyError (KeyError "success"))
           | Some ok =>
               if py_truthy ok
               then match result !! "response" with
                    | None => inr (PyError (KeyError "response"))
                    | Some response =>
                        match result !! "session_id" with
                        | None => inr (PyError (KeyError "session_id"))
                        | Some session =>
                            match validate_str response, validate_str session,
                                  validate_optional_str (dict_get result "function_called" VNone) with
                            | Some response, Some session, Some called =>
                                inl {| success := true; response := response;
                                       session_id := session; function_called := called;
                                       error := None |}
                            | _, _, _ => inr ValidationError
                            end
                        end
                    end
               else match validate_str (dict_get result "response" (VStr "An error occurred")),
                          validate_str (optional_str session_id),
                          validate_optional_str (dict_get result "error" VNone) with
                    | Some response, Some session, Some error =>
                        inl {| success := false; response := response;
                               session_id := session; function_called := None;
                               error := error |}
                    | _, _, _ => inr ValidationError
                    end
           end, t')
      end in
  match body with
  | (inl r, t') => (inl r, t')
  | (inr e, t') =>
      (inr (HTTPException 500 ("Internal server error: " +:+ endpoint_exn_str e)), t')
  end.

End Main.
End Main.
(** ** Notions for the callers *)

(** The words the demo agent looks for. *)
Definition tracking_words : list string := ["track"; "status"; "order"].
Definition faq_words : list string :=
  ["cancel"; "refund"; "payment"; "delivery"; "how"; "what"; "when"].

(** A tool call together with the name the agent reports for it. *)
Definition named_call (name : string) (call : M dict) : M function_call :=
  r ← call; mret (FunctionCall name r).

(** The lines a list of question and answer pairs is rendered as. *)
Fixpoint qa_lines `{!Externals} (qas : list (value * value)) : string :=
  match qas with
  | [] => EmptyString
  | qa :: rest =>
      "**Q:** " +:+ py_format qa.1 +:+ nl +:+
      "**A:** " +:+ py_format qa.2 +:+ nl +:+ nl +:+ qa_lines rest
  end.

(** The apology of [chat]. *)
Definition apology : string :=
  "I'm sorry, I encountered an error. Please try again or contact support.".
(** ** Concrete inputs

    A sample instance of the external capabilities, used to run the engine:
    a text is encoded as the one-component row holding its length plus one,
    normalisation leaves rows as they are, and the inner product multiplies
    the components. *)

Definition sample_encode (texts : list string) : outcome (list vec) :=
  Ok ((fun t => [S754_finite false (Pos.of_succ_nat (String.length t)) 0]) <$> texts).

Definition sample_inner_product (q row : vec) : float :=
  match q, row with
  | [S754_finite s1 m1 e1], [S754_finite s2 m2 e2] =>
      S754_finite (xorb s1 s2) (m1 * m2) (e1 + e2)
  | _, _ => S754_zero false
  end.

Definition sample_format (v : value) : string :=
  match v with
  | VStr s => s
  | VInt z => pretty z
  | VNone => "None"
  | VBool true => "True"
  | VBool false => "False"
  | _ => "?"
  end.

#[global] Instance sample_externals : Externals := {
  encoder := sample_encode;
  normalize_L2 := id;
  inner_product := sample_inner_product;
  py_format := sample_format
}.

(** *** Sources *)

Definition faq (question answer : string) : dict :=
  <["question" := VStr question]> (<["answer" := VStr answer]> ∅).

Definition sample_faq : dict := faq "How do refunds work?" "Refunds post in 3-5 days.".
Definition sample_faq2 : dict := faq "Is there a fee?" "No.".

Definition sample_order : dict :=
  <["order_id" := VStr "FD1"]>
  (<["customer_name" := VStr "Ann"]>
  (<["restaurant" := VStr "Roma"]>
  (<["items" := VList [VDict (<["name" := VStr "Pizza"]> (<["quantity" := VInt 2]> ∅));
                       VDict (<["name" := VStr "Cola"]> (<["quantity" := VInt 1]> ∅))]]>
  (<["total_amount" := VInt 25]>
  (<["status" := VStr "delivered"]>
  (<["delivery_address" := VStr "1 Main St"]> ∅)))))).

Definition sample_order_fields : order_fields :=
  OrderFields (VStr "FD1") (VStr "Ann") (VStr "Roma")
    [(VStr "Pizza", VInt 2); (VStr "Cola", VInt 1)]
    (VInt 25) (VStr "delivered") (VStr "1 Main St").

(** One FAQ and one order. *)
Definition sample_disk : gmap string file :=
  <[default_faq_path := FileJson [sample_faq]]>
  (<[default_order_path := FileJson [sample_order]]> ∅).


(** *** Artifacts *)

Definition row (n : positive) : vec := [S754_finite false n 0].

Definition sample_entries : list dict := [sample_faq; sample_faq2].

(** The index artifact alone, without its entries artifact. *)
Definition half_disk : gmap string file :=
  <[default_index_path := FileIndex [row 3]]> ∅.

(** An index of three rows next to an entries artifact of two. *)
Definition mismatched_disk : gmap string file :=
  <[default_index_path := FileIndex [row 3; row 5; row 7]]>
  (<[faq_data_path default_index_path := FilePickle sample_entries]> ∅).

(** A matching pair of two rows and two entries. *)
Definition paired_disk : gmap string file :=
  <[default_index_path := FileIndex [row 3; row 5]]>
  (<[faq_data_path default_index_path := FilePickle sample_entries]> ∅).

(** An index of one row next to an empty entries artifact. *)
Definition orphan_disk : gmap string file :=
  <[default_index_path := FileIndex [row 3]]>
  (<[faq_data_path default_index_path := FilePickle []]> ∅).

(** *** Engines *)

(** A new engine with the default paths on the sample sources, and the
    same after [initialize]. *)
Definition fresh_engine : state := new_engine default_index_path sample_disk.
Definition ready_engine : state := (initialize fresh_engine).2.

(** The sample engine after one build, and after a second one. *)
Definition built_once : state := (build_index fresh_engine).2.
Definition built_twice : state := (build_index built_once).2.

(** A new engine with no sources at all, and the same after a build. *)
Definition empty_engine : state := new_engine default_index_path ∅.
Definition empty_built : state := (build_index empty_engine).2.


(** The sample engine after [load_faqs] alone: it has entries and no
    index. *)
Definition faqs_only_engine : state := (load_faqs default_faq_path fresh_engine).2.

(** The engines that loaded the pairs above. *)
Definition paired_engine : state :=
  (load_index (new_engine default_index_path paired_disk)).2.
Definition mismatched_engine : state :=
  (load_index (new_engine default_index_path mismatched_disk)).2.
Definition orphan_engine : state :=
  (load_index (new_engine default_index_path orphan_disk)).2.

(** An engine whose index path has no [.bin], initialised once and twice. *)
Definition clobbering_engine : state := new_engine "data/idx" sample_disk.
Definition clobbered_once : state := (initialize clobbering_engine).2.
Definition clobbered_twice : state := (initialize clobbered_once).2.

(** The floats [500] and [100]. *)
Definition float_500 : float := S754_finite false 500 0.
Definition float_100 : float := S754_finite false 100 0.
(** ** More concrete inputs *)

(** External capabilities whose encoder always fails. *)
Definition failing_externals : Externals := {|
  encoder := fun _ => Raise EncoderError;
  normalize_L2 := id;
  inner_product := sample_inner_product;
  py_format := sample_format
|}.

(** A new engine whose index path has no directory part. *)
Definition bare_engine : state := new_engine "index.bin" sample_disk.

(** An order record without its items, and a disk whose order source holds
    the sample order followed by it. *)
Definition sample_bad_order : dict :=
  <["order_id" := VStr "FD2"]> (<["customer_name" := VStr "Bob"]> ∅).

Definition bad_order_disk : gmap string file :=
  <[default_faq_path := FileJson [sample_faq]]>
  (<[default_order_path := FileJson [sample_order; sample_bad_order]]> ∅).

Definition bad_order_engine : state := new_engine default_index_path bad_order_disk.
(** *** Sample text operations and tools *)

Definition ascii_lower (c : ascii) : ascii :=
  let n := nat_of_ascii c in
  if ((65 <=? n) && (n <=? 90))%nat then ascii_of_nat (n + 32) else c.

Fixpoint ascii_lower_all (s : string) : string :=
  match s with
  | EmptyString => EmptyString
  | String c s' => String (ascii_lower c) (ascii_lower_all s')
  end.

#[global] Instance sample_text : TextLibrary := {
  str_lower := ascii_lower_all;
  str_title := id;
  str_strip := id;
  str_len := String.length;
  find_order_id := fun _ => None;
  exn_str := fun e =>
    match e with
    | IndexError => "list index out of range"
    | KeyError key => key
    | _ => "error"
    end
}.

(** Tools that know two restaurants and no order. *)
Definition not_found (what : string) : M dict :=
  mret (<["success" := VBool false]> (<["message" := VStr (what +:+ " not found.")]> ∅)).

Definition restaurant (name cuisine : string) : dict :=
  <["name" := VStr name]> (<["cuisine" := VStr cuisine]> ∅).

#[global] Instance sample_tools : SupportTools := {
  restaurant_data := [restaurant "Mario's Pizza" "Italian"; restaurant "Sushi Palace" "Japanese"];
  track_order := fun order_id => not_found ("Order " +:+ order_id);
  check_delivery_time := fun order_id => not_found ("Order " +:+ order_id);
  process_refund := fun order_id _ => not_found ("Order " +:+ order_id);
  escalate_to_human := fun issue =>
    mret (<["success" := VBool true]> (<["issue" := VStr issue]> ∅))
}.

(** An agent on the initialised sample engine, and one on the engine after
    a build from no sources, both at the start of a conversation. *)
Definition ready_agent : agent_state := AgentState ready_engine [].
Definition empty_agent : agent_state := AgentState empty_built [].

(** *** A sample validator *)

#[global] Instance sample_web : Main.WebLibrary := {
  Main.validate_str := fun v => match v with VStr text => Some text | _ => None end;
  Main.validate_optional_str := fun v =>
    match v with
    | VNone => Some None
    | VStr text => Some (Some text)
    | _ => None
    end;
  Main.endpoint_exn_str := fun e =>
    match e with
    | Main.PyError e => exn_str e
    | Main.HTTPException _ detail => detail
    | Main.ValidationError => "validation error"
    end
}.
(** * Properties *)

(** ** Running the primitives *)

Example str_replace_default :
  faq_data_path default_index_path = "data/faiss_index_faqs.pkl"%string.
Proof. reflexivity. Qed.

Example str_replace_every_occurrence :
  str_replace ".bin" "_faqs.pkl" "a.bin/b.bin" = "a_faqs.pkl/b_faqs.pkl"%string.
Proof. reflexivity. Qed.

Example str_replace_no_occurrence : faq_data_path "data/idx" = "data/idx"%string.
Proof. reflexivity. Qed.

Example str_join_two : str_join ", " ["Pizza (x2)"; "Cola (x1)"] = "Pizza (x2), Cola (x1)"%string.
Proof. reflexivity. Qed.

Example list_getitem_negative :
  list_getitem [10; 20; 30] (-1) = Ok 30 /\ list_getitem [10; 20; 30] (-3) = Ok 10 /\
  list_getitem [10; 20; 30] 3 = Raise IndexError /\
  list_getitem [10; 20; 30] (-4) = Raise IndexError /\
  list_getitem (A := Z) [] (-1) = Raise IndexError.
Proof. repeat split. Qed.

Example sort_desc_is_stable :
  sort_desc [(float_100, 0); (float_500, 1); (float_100, 2); (float_500, 3)] =
  [(float_500, 1); (float_500, 3); (float_100, 0); (float_100, 2)].
Proof. reflexivity. Qed.

Lemma run_bind {A B} (m : M A) (f : A -> M B) s :
  (m ≫= f) s = match m s with (Ok a, s') => f a s' | (Raise e, s') => (Raise e, s') end.
Proof. reflexivity. Qed.

Lemma run_ok {A} (m : M A) s a : (m s).1 = Ok a -> m s = (Ok a, (m s).2).
Proof. destruct (m s) as [o s']. cbn. by intros ->. Qed.

Ltac msimpl :=
  cbv [mbind M_bind mret M_ret gets modify lift raise try_except
       write_file write_list write_dict alloc_dict alloc_list
       set_dicts set_lists set_files set_encoded set_self_index set_self_faqs];
  cbn [dicts lists files encoded self_index self_faqs self_index_path].

(** Closed goals are settled by running the engine: the kernel evaluates
    both sides when the proof is closed. *)
Ltac by_evaluation :=
  repeat match goal with |- _ /\ _ => split end;
  match goal with |- @eq ?T _ ?b => vm_cast_no_check (@eq_refl T b) end.

Lemma for_each_alloc_dict rows s :
  for_each alloc_dict rows s =
  (Ok (seq (length (dicts s)) (length rows)), set_dicts (fun h => h ++ rows) s).
Proof.
  revert s. induction rows as [|d rows IH]; intros s.
  - destruct s; msimpl. cbn. msimpl. by rewrite app_nil_r.
  - cbn [for_each]. rewrite run_bind. cbn [alloc_dict].
    rewrite run_bind, IH. destruct s; msimpl.
    rewrite length_app, <- app_assoc. cbn. by rewrite Nat.add_1_r.
Qed.

Lemma new_entries_run rows s :
  new_entries rows s =
  (Ok (length (lists s)),
   set_lists (fun h => h ++ [seq (length (dicts s)) (length rows)])
             (set_dicts (fun h => h ++ rows) s)).
Proof.
  unfold new_entries. rewrite run_bind, for_each_alloc_dict. by destruct s.
Qed.

(** Reading back a block of freshly allocated dicts. *)
Lemma lookup_fresh_block (h rows : list dict) :
  Forall2 (fun q d => (h ++ rows) !! q = Some d) (seq (length h) (length rows)) rows.
Proof.
  revert h. induction rows as [|d rows IH]; intros h; [constructor|].
  cbn [length seq]. constructor.
  - by rewrite list_lookup_middle.
  - specialize (IH (h ++ [d])). rewrite length_app, <- app_assoc in IH.
    cbn in IH. by rewrite Nat.add_1_r in IH.
Qed.

Lemma default_lookup_all (h : list dict) qs ds :
  Forall2 (fun q d => h !! q = Some d) qs ds ->
  (fun p => default ∅ (h !! p)) <$> qs = ds.
Proof.
  induction 1 as [|q d qs ds Hq _ IH]; [done|].
  cbn [fmap list_fmap]. rewrite Hq. cbn [default]. f_equal. exact IH.
Qed.

(** Dereferencing a block of freshly allocated dicts. *)
Lemma deref_fresh_block s rows :
  deref (set_dicts (fun h => h ++ rows) s) <$> seq (length (dicts s)) (length rows) = rows.
Proof.
  assert (dicts (set_dicts (fun h => h ++ rows) s) = dicts s ++ rows) as Hd
    by (by destruct s).
  unfold deref. rewrite Hd. apply default_lookup_all, lookup_fresh_block.
Qed.

Lemma entries_at_spec s p ds :
  entries_at s p = Some ds <->
  exists ps, lists s !! p = Some ps /\ Forall2 (fun q d => dicts s !! q = Some d) ps ds.
Proof.
  unfold entries_at. split.
  - destruct (lists s !! p) as [ps|]; [|done]. cbn. intros H%mapM_Some. eauto.
  - intros (ps & -> & H). cbn. by apply mapM_Some.
Qed.

Lemma entries_of_publish ix entries s :
  entries_of (publish ix entries s) = Some entries.
Proof.
  apply entries_at_spec. exists (seq (length (dicts s)) (length entries)). split.
  - cbn. by rewrite list_lookup_middle.
  - cbn. apply lookup_fresh_block.
Qed.

Lemma entries_of_set_encoded f s : entries_of (set_encoded f s) = entries_of s.
Proof. by destruct s. Qed.

Lemma entries_of_set_self_index ix s : entries_of (set_self_index ix s) = entries_of s.
Proof. by destruct s. Qed.


Lemma for_each_read_dict ps s :
  for_each read_dict ps s =
  match mapM (fun q => dicts s !! q) ps with
  | Some ds => (Ok ds, s)
  | None => (Raise SystemError, s)
  end.
Proof.
  induction ps as [|p ps IH]; [done|].
  cbn [for_each]. rewrite run_bind. unfold read_dict at 1.
  cbn [mapM]. destruct (dicts s !! p) as [d|]; [|done].
  rewrite run_bind, IH. cbn. by destruct (mapM _ ps).
Qed.

Lemma read_entries_run p s :
  read_entries p s =
  match entries_at s p with
  | Some ds => (Ok ds, s)
  | None => (Raise SystemError, s)
  end.
Proof.
  unfold read_entries, entries_at. rewrite run_bind. unfold read_list.
  destruct (lists s !! p) as [ps|]; [|done]. cbn. apply for_each_read_dict.
Qed.

Lemma copy_with_score_run p score s :
  copy_with_score p score s =
  match dicts s !! p with
  | Some d => (Ok (length (dicts s)), set_dicts (fun h => h ++ [annotate d score]) s)
  | None => (Raise SystemError, s)
  end.
Proof.
  unfold copy_with_score. rewrite run_bind. unfold read_dict at 1.
  destruct (dicts s !! p) as [d|]; [|done].
  destruct s; msimpl. unfold read_dict; msimpl.
  rewrite list_lookup_middle by done. msimpl.
  rewrite insert_app_r_alt by done. by rewrite Nat.sub_diag.
Qed.

(** ** Running the methods *)

Section Runs.
Context `{!Externals}.

Lemma load_faqs_run path s :
  load_faqs path s =
  match files s !! path with
  | Some (FileJson rows) =>
      (Ok (length (lists s)),
       set_self_faqs (length (lists s))
         (set_lists (fun h => h ++ [seq (length (dicts s)) (length rows)])
            (set_dicts (fun h => h ++ rows) s)))
  | None | Some FileText => (Ok (length (lists s)), set_lists (fun h => h ++ [[]]) s)
  | Some _ => (Raise UnicodeDecodeError, s)
  end.
Proof.
  unfold load_faqs, try_except. rewrite run_bind. unfold json_load.
  destruct (files s !! path) as [[]|]; try reflexivity.
  rewrite run_bind, new_entries_run. by destruct s.
Qed.

(** A source that is not text makes both loaders raise, the state being
    as it was. *)
Lemma load_faqs_bytes path s :
  is_Some (files s !! path) -> ~ text_source (files s) path ->
  load_faqs path s = (Raise UnicodeDecodeError, s).
Proof.
  unfold text_source. intros [f Hf] Htext. rewrite load_faqs_run, Hf in *.
  by destruct f.
Qed.

Lemma load_order_data_bytes path s :
  ~ text_source (files s) path ->
  load_order_data path s = (Raise UnicodeDecodeError, s).
Proof.
  unfold text_source, load_order_data, try_except. rewrite run_bind. unfold json_load.
  by destruct (files s !! path) as [[]|].
Qed.

Lemma load_index_run s :
  load_index s =
  match stored_index s with
  | None => (Ok false, s)
  | Some ix =>
      match stored_entries s with
      | None => (Ok false, set_self_index (Some ix) s)
      | Some entries => (Ok true, publish ix entries s)
      end
  end.
Proof.
  unfold load_index, try_except, stored_index, stored_entries.
  rewrite run_bind. cbn [gets]. rewrite run_bind. unfold read_index.
  destruct (files s !! self_index_path s) as [[]|] eqn:Hix; try reflexivity.
  rewrite run_bind. msimpl. unfold pickle_load. cbn.
  destruct (files s !! faq_data_path (self_index_path s)) as [[]|] eqn:Hen; try reflexivity.
  rewrite new_entries_run. destruct s; reflexivity.
Qed.

Lemma save_index_run s :
  save_index s =
  match self_index s with
  | None => (Ok tt, s)
  | Some ix =>
      if str_contains_char "/" (self_index_path s)
      then match entries_of s with
           | Some entries =>
               (Ok tt, set_files (fun fs => <[faq_data_path (self_index_path s) := FilePickle entries]>
                                              (<[self_index_path s := FileIndex ix]> fs)) s)
           | None =>
               (Raise SystemError, set_files (fun fs => <[self_index_path s := FileIndex ix]> fs) s)
           end
      else (Raise FileNotFoundError, s)
  end.
Proof.
  unfold save_index. rewrite run_bind. cbn [gets].
  destruct (self_index s) as [ix|]; [|done].
  rewrite run_bind. cbn [gets]. rewrite run_bind. unfold makedirs_dirname.
  destruct (str_contains_char _ _); [|done].
  msimpl. rewrite read_entries_run. unfold entries_of.
  destruct s; cbn. unfold entries_at; cbn.
  by destruct (_ ≫= _).
Qed.

Lemma initialize_run s :
  initialize s =
  match load_index s with
  | (Ok true, s') => (Ok tt, s')
  | (Ok false, s') => (build_index ;; save_index) s'
  | (Raise e, s') => (Raise e, s')
  end.
Proof.
  unfold initialize. rewrite run_bind. by destruct (load_index s) as [[[]|]].
Qed.

Lemma initialize_after_load ix entries s :
  stored_index s = Some ix -> stored_entries s = Some entries ->
  initialize s = (Ok tt, publish ix entries s).
Proof. intros Hix Hen. by rewrite initialize_run, load_index_run, Hix, Hen. Qed.

Lemma stored_after_save ix entries s :
  faq_data_path (self_index_path s) <> self_index_path s ->
  let s' := set_files (fun fs => <[faq_data_path (self_index_path s) := FilePickle entries]>
                                   (<[self_index_path s := FileIndex ix]> fs)) s in
  stored_index s' = Some ix /\ stored_entries s' = Some entries.
Proof.
  intros Hne. unfold stored_index, stored_entries. destruct s; cbn in *.
  rewrite lookup_insert_ne by done. by rewrite !lookup_insert_eq.
Qed.

Lemma build_index_ok s ix s' :
  build_index s = (Ok ix, s') -> self_index s' = Some ix.
Proof.
  unfold build_index. rewrite run_bind.
  destruct (create_embeddings s) as [[emb|e] s1]; [|done].
  destruct emb as [|v emb]; [done|].
  destruct s1; msimpl. unfold index_add. msimpl. by intros [= <- <-].
Qed.

Lemma search_ready_state query k s :
  is_Some (self_index s) ->
  (search query k s).2 = set_encoded (fun log => log ++ [[query]]) s.
Proof.
  intros [ix Hix]. unfold search. rewrite run_bind. cbn [gets]. rewrite Hix.
  rewrite run_bind. unfold mret at 1, M_ret. rewrite run_bind.
  unfold model_encode. rewrite run_bind. cbn [modify]. unfold lift at 1.
  set (s1 := set_encoded _ s).
  destruct (encoder [query]) as [emb|e]; [|done].
  rewrite run_bind. unfold lift at 1.
  destruct (faiss_normalize_L2 emb) as [q|e]; [|done].
  rewrite run_bind. cbn [gets].
  assert (self_index s1 = Some ix) as -> by (by destruct s).
  rewrite run_bind. unfold lift at 1.
  destruct (index_search _ _ _) as [[|slots ?]|e]; [done| |done].
  rewrite run_bind. cbn [gets]. rewrite run_bind. unfold read_list.
  by destruct (lists s1 !! self_faqs s1).
Qed.

(** [search] for a positive number of neighbours on an engine that has an
    index, when the encoder returns at least one row for the query. *)
Lemma search_ready_run query k s ix v rest faqs :
  self_index s = Some ix ->
  encoder [query] = Ok (v :: rest) ->
  lists s !! self_faqs s = Some faqs ->
  (0 < k)%nat ->
  search query k s =
  (collect_results faqs (index_search_row ix k (normalize_L2 v)),
   set_encoded (fun log => log ++ [[query]]) s).
Proof.
  intros Hix Henc Hfaqs Hk. unfold search. rewrite run_bind. cbn [gets]. rewrite Hix.
  rewrite run_bind. unfold mret at 1, M_ret. rewrite run_bind.
  unfold model_encode. rewrite run_bind. cbn [modify]. unfold lift at 1. rewrite Henc.
  set (s1 := set_encoded _ s).
  rewrite run_bind. unfold lift at 1. cbn [faiss_normalize_L2].
  rewrite run_bind. cbn [gets].
  assert (self_index s1 = Some ix) as -> by (by destruct s).
  rewrite run_bind. unfold lift at 1.
  destruct k as [|k']; [lia|]. cbn [index_search fmap list_fmap].
  rewrite run_bind. cbn [gets]. rewrite run_bind. unfold read_list.
  assert (lists s1 !! self_faqs s1 = Some faqs) as -> by (by destruct s).
  reflexivity.
Qed.

(** A search for no neighbours fails in FAISS, the query having been
    encoded. *)
Lemma search_ready_none query s ix v rest :
  self_index s = Some ix ->
  encoder [query] = Ok (v :: rest) ->
  search query 0 s = (Raise AssertionError, set_encoded (fun log => log ++ [[query]]) s).
Proof.
  intros Hix Henc. unfold search. rewrite run_bind. cbn [gets]. rewrite Hix.
  rewrite run_bind. unfold mret at 1, M_ret. rewrite run_bind.
  unfold model_encode. rewrite run_bind. cbn [modify]. unfold lift at 1. rewrite Henc.
  set (s1 := set_encoded _ s).
  rewrite run_bind. unfold lift at 1. cbn [faiss_normalize_L2].
  rewrite run_bind. cbn [gets].
  assert (self_index s1 = Some ix) as -> by (by destruct s).
  by rewrite run_bind.
Qed.

Lemma search_slots query k s results s1 :
  search query k s = (Ok results, s1) ->
  exists faqs ix v,
    lists s1 !! self_faqs s1 = Some faqs /\
    collect_results faqs (index_search_row ix k v) = Ok results.
Proof.
  unfold search. rewrite run_bind. cbn [gets]. rewrite run_bind.
  match goal with
  | |- (let (o, s') := ?init in _) = _ -> _ => destruct init as [[[]|e] s0]
  end; [|done].
  rewrite run_bind. unfold model_encode. rewrite run_bind. cbn [modify].
  unfold lift at 1. set (s2 := set_encoded _ s0).
  destruct (encoder [query]) as [emb|e]; [|done].
  rewrite run_bind. unfold lift at 1.
  destruct emb as [|v emb]; [done|]. cbn [faiss_normalize_L2].
  rewrite run_bind. cbn [gets].
  destruct (self_index s2) as [ix|]; [|done].
  rewrite run_bind. unfold lift at 1.
  destruct k as [|k']; [done|]. cbn [index_search fmap list_fmap].
  rewrite run_bind. cbn [gets]. rewrite run_bind. unfold read_list.
  destruct (lists s2 !! self_faqs s2) as [faqs|] eqn:Hfaqs; [|done].
  unfold lift. destruct (collect_results faqs _) as [rs|] eqn:Hrs; [|done].
  intros [= <- <-]. eauto 10.
Qed.

End Runs.

(** ** Invariants *)

Section Preserves.
Context (I : state -> Prop).

Lemma preserves_ret {A} (a : A) : preserves I (mret a).
Proof. by intros s. Qed.

Lemma preserves_raise {A} e : preserves I (@raise A e).
Proof. by intros s. Qed.

Lemma preserves_lift {A} (o : outcome A) : preserves I (lift o).
Proof. by intros s. Qed.

Lemma preserves_gets {A} (f : state -> A) : preserves I (gets f).
Proof. by intros s. Qed.

Lemma preserves_modify f : (forall s, I s -> I (f s)) -> preserves I (modify f).
Proof. intros Hf s. apply Hf. Qed.

Lemma preserves_bind {A B} (m : M A) (f : A -> M B) :
  preserves I m -> (forall a, preserves I (f a)) -> preserves I (m ≫= f).
Proof.
  intros Hm Hf s HI. rewrite run_bind. specialize (Hm s HI).
  destruct (m s) as [[a|e] s']; [by apply Hf|done].
Qed.

Lemma preserves_for_each {A B} (f : A -> M B) l :
  (forall x, preserves I (f x)) -> preserves I (for_each f l).
Proof.
  intros Hf. induction l as [|x l IH]; [apply preserves_ret|].
  cbn [for_each]. apply preserves_bind; [done|]. intros y.
  apply preserves_bind; [done|]. intros ys. apply preserves_ret.
Qed.

Lemma preserves_read_dict p : preserves I (read_dict p).
Proof. intros s HI. unfold read_dict. by destruct (dicts s !! p). Qed.

Lemma preserves_read_list p : preserves I (read_list p).
Proof. intros s HI. unfold read_list. by destruct (lists s !! p). Qed.

Context `{!Invariant I}.

Lemma preserves_model_encode `{!Externals} texts : preserves I (model_encode texts).
Proof. intros s HI. unfold model_encode. rewrite run_bind. cbn. by apply inv_encoded. Qed.

End Preserves.

(** Every method preserves every invariant. *)

Section MethodsPreserve.
Context `{!Externals} (I : state -> Prop) `{!Invariant I}.

Lemma preserves_copy_with_score p score : preserves I (copy_with_score p score).
Proof.
  intros s HI. rewrite copy_with_score_run.
  destruct (dicts s !! p); [by apply inv_alloc_dict|done].
Qed.

Lemma preserves_relevant_loop threshold results :
  preserves I (relevant_loop threshold results).
Proof.
  induction results as [|[p score] rs IH]; [by apply preserves_ret|].
  cbn [relevant_loop]. destruct (float_ge score threshold); [|done].
  apply preserves_bind; [apply preserves_copy_with_score; done|]. intros q.
  apply preserves_bind; [done|]. intros qs. by apply preserves_ret.
Qed.

Lemma preserves_load_faqs path : preserves I (load_faqs path).
Proof.
  intros s HI. rewrite load_faqs_run.
  destruct (files s !! path) as [[]|]; cbn [snd];
    first [by apply inv_rebind | by apply inv_alloc_list | done].
Qed.

(** A loop that allocates one dict per element: the references it returns
    are live. *)
Lemma alloc_loop_post {A} (g : A -> outcome dict) xs s o s' :
  I s ->
  for_each (fun x => d ← lift (g x); alloc_dict d) xs s = (o, s') ->
  I s' /\ lists s' = lists s /\ self_faqs s' = self_faqs s /\
  (length (dicts s) <= length (dicts s'))%nat /\
  forall ps, o = Ok ps -> Forall (fun p => (p < length (dicts s'))%nat) ps.
Proof.
  revert s o s'. induction xs as [|x xs IH]; intros s o s' HI.
  - intros [= <- <-]. repeat split; auto. intros ps [= <-]. constructor.
  - cbn [for_each]. rewrite !run_bind. unfold lift at 1.
    destruct (g x) as [d|e]; [|intros [= <- <-]; repeat split; auto; done].
    cbn [alloc_dict].
    set (s1 := set_dicts (fun h => h ++ [d]) s).
    assert (I s1) as HI1 by (by apply inv_alloc_dict).
    assert (length (dicts s1) = S (length (dicts s))) as Hlen.
    { subst s1. destruct s; cbn. rewrite length_app. cbn. lia. }
    assert (lists s1 = lists s /\ self_faqs s1 = self_faqs s) as [Hl Hf]
      by (by destruct s).
    rewrite run_bind.
    destruct (for_each _ xs s1) as [[ps|e] s2] eqn:E;
      destruct (IH _ _ _ HI1 E) as (H1 & H2 & H3 & H4 & H5); intros [= <- <-].
    + split; [done|]. split; [congruence|]. split; [congruence|]. split; [lia|].
      intros ps' [= <-]. constructor; [lia|]. by apply H5.
    + split; [done|]. split; [congruence|]. split; [congruence|]. split; [lia|done].
Qed.

Lemma load_order_data_post path s o s' :
  I s ->
  load_order_data path s = (o, s') ->
  I s' /\ lists s' = lists s /\ self_faqs s' = self_faqs s /\
  (length (dicts s) <= length (dicts s'))%nat /\
  forall ps, o = Ok ps -> Forall (fun p => (p < length (dicts s'))%nat) ps.
Proof.
  intros HI. unfold load_order_data, try_except. rewrite run_bind. unfold json_load.
  destruct (files s !! path) as [[rows| | | |]|];
    try (intros [= <- <-]; repeat split; auto; intros ps [= <-]; constructor);
    try (intros [= <- <-]; repeat split; auto; done).
  destruct (for_each _ rows s) as [[ps|e] s1] eqn:E;
    destruct (alloc_loop_post _ _ _ _ _ HI E) as (H1 & H2 & H3 & H4 & H5).
  - by intros [= <- <-].
  - destruct e; intros [= <- <-]; repeat split; auto; try done;
      intros ps [= <-]; constructor.
Qed.

Lemma preserves_texts faqs :
  preserves I (for_each (fun q => faq ← read_dict q; lift (combined_text faq)) faqs).
Proof.
  apply preserves_for_each. intros q. apply preserves_bind.
  - apply preserves_read_dict.
  - intros d. apply preserves_lift.
Qed.

Lemma preserves_create_embeddings : preserves I create_embeddings.
Proof.
  intros s HI. unfold create_embeddings.
  rewrite run_bind. cbn [gets]. rewrite run_bind. unfold read_list at 1.
  destruct (lists s !! self_faqs s) as [current|]; [|done].
  rewrite run_bind.
  assert (preserves I (if bool_decide (current = [])
                       then load_faqs default_faq_path;; mret tt else mret tt)) as Hload.
  { destruct (bool_decide _); [|apply preserves_ret].
    apply preserves_bind; [by apply preserves_load_faqs|]. intros. apply preserves_ret. }
  specialize (Hload s HI).
  destruct ((if bool_decide (current = [])
             then load_faqs default_faq_path;; mret tt else mret tt) s)
    as [[[]|e] s1]; [|done].
  cbn [snd] in Hload. rewrite run_bind.
  destruct (load_order_data default_order_path s1) as [[order_faqs|e] s2] eqn:E;
    destruct (load_order_data_post _ _ _ _ Hload E) as (H1 & H2 & H3 & H4 & H5);
    [|done].
  rewrite run_bind. cbn [gets]. rewrite run_bind. unfold read_list at 1.
  destruct (lists s2 !! self_faqs s2) as [current2|] eqn:Hcur; [|done].
  rewrite run_bind. cbn [write_list modify].
  set (s3 := set_lists _ s2).
  assert (I s3) as HI3 by (apply inv_extend; auto).
  assert (preserves I (p ← gets self_faqs; faqs ← read_list p;
            texts ← for_each (fun q => faq ← read_dict q; lift (combined_text faq)) faqs;
            model_encode texts)) as Htail.
  { apply preserves_bind; [apply preserves_gets|]. intros p.
    apply preserves_bind; [apply preserves_read_list|]. intros faqs.
    apply preserves_bind; [apply preserves_texts|]. intros texts.
    by apply preserves_model_encode. }
  apply (Htail s3 HI3).
Qed.

Lemma preserves_index_add rows : preserves I (index_add rows).
Proof.
  intros s HI. unfold index_add. rewrite run_bind. cbn [gets].
  destruct (self_index s); [by apply inv_index|done].
Qed.

Lemma preserves_build_index : preserves I build_index.
Proof.
  unfold build_index. apply preserves_bind; [apply preserves_create_embeddings|].
  intros embeddings. apply preserves_bind.
  { apply preserves_modify. intros s. apply inv_index. }
  intros _. apply preserves_bind; [apply preserves_lift|].
  intros rows. apply preserves_bind; [apply preserves_index_add|].
  intros _. apply preserves_bind; [apply preserves_gets|].
  intros [ix|]; [apply preserves_ret|apply preserves_raise].
Qed.

Lemma preserves_save_index : preserves I save_index.
Proof.
  intros s HI. rewrite save_index_run.
  destruct (self_index s); [|done].
  destruct (str_contains_char _ _); [|done].
  destruct (entries_of s); by apply inv_files.
Qed.

Lemma preserves_load_index : preserves I load_index.
Proof.
  intros s HI. rewrite load_index_run.
  destruct (stored_index s) as [ix|]; [|done].
  destruct (stored_entries s) as [entries|]; [|by apply inv_index].
  cbn [snd].
  assert (publish ix entries s =
          set_self_index (Some ix)
            (set_self_faqs (length (lists s))
               (set_lists (fun h => h ++ [seq (length (dicts s)) (length entries)])
                  (set_dicts (fun h => h ++ entries) s)))) as -> by (by destruct s).
  by apply inv_index, inv_rebind.
Qed.

Lemma preserves_initialize : preserves I initialize.
Proof.
  unfold initialize. apply preserves_bind; [apply preserves_load_index|].
  intros [|]; [apply preserves_ret|].
  apply preserves_bind; [apply preserves_build_index|]. intros _.
  apply preserves_save_index.
Qed.

Lemma preserves_search query k : preserves I (search query k).
Proof.
  unfold search. apply preserves_bind; [apply preserves_gets|]. intros ix0.
  apply preserves_bind.
  { destruct ix0; [apply preserves_ret|]. apply preserves_initialize. }
  intros _. apply preserves_bind; [by apply preserves_model_encode|]. intros emb.
  apply preserves_bind; [apply preserves_lift|]. intros q.
  apply preserves_bind; [apply preserves_gets|]. intros [ix|]; [|apply preserves_raise].
  apply preserves_bind; [apply preserves_lift|]. intros [|slots found]; [apply preserves_raise|].
  apply preserves_bind; [apply preserves_gets|]. intros p.
  apply preserves_bind; [apply preserves_read_list|]. intros faqs.
  apply preserves_lift.
Qed.

Lemma preserves_get_relevant_faqs query threshold :
  preserves I (get_relevant_faqs query threshold).
Proof.
  unfold get_relevant_faqs. apply preserves_bind; [apply preserves_search|].
  intros results. by apply preserves_relevant_loop.
Qed.

End MethodsPreserve.

(** *** Three invariants *)

#[global] Instance keeps_path_invariant path : Invariant (keeps_path path).
Proof. by split. Qed.

#[global] Instance keeps_dicts_invariant h0 : Invariant (keeps_dicts h0).
Proof.
  split; unfold keeps_dicts; try done.
  - intros d [] ?; cbn in *. by apply prefix_app_r.
  - intros rows [] ?; cbn in *. by apply prefix_app_r.
Qed.

Lemma wf_state_spec s :
  wf_state s <->
  exists ps, lists s !! self_faqs s = Some ps /\
             Forall (fun p => (p < length (dicts s))%nat) ps.
Proof.
  unfold wf_state, entries_of, entries_at. split.
  - destruct (lists s !! self_faqs s) as [ps|]; cbn; [|by intros [? [=]]].
    intros Hsome%mapM_is_Some. exists ps. split; [done|].
    eapply Forall_impl; [exact Hsome|]. intros p. cbn. apply lookup_lt_is_Some.
  - intros (ps & -> & Hlive). cbn. apply mapM_is_Some.
    eapply Forall_impl; [exact Hlive|]. intros p. cbn. apply lookup_lt_is_Some.
Qed.

(** A new engine is well formed, and every method keeps it so. *)
Lemma wf_new_engine index_path disk : wf_state (new_engine index_path disk).
Proof. by exists []. Qed.

#[global] Instance wf_state_invariant : Invariant wf_state.
Proof.
  split.
  - intros d s (ps & Hps & Hlive)%wf_state_spec. apply wf_state_spec.
    exists ps. destruct s; cbn in *. split; [done|].
    eapply Forall_impl; [exact Hlive|]. intros p Hp. cbn beta in Hp.
    rewrite length_app. lia.
  - intros l s (ps & Hps & Hlive)%wf_state_spec. apply wf_state_spec.
    exists ps. destruct s; cbn in *. split; [|done].
    by apply lookup_app_l_Some.
  - intros f s H. by destruct s.
  - intros f s H. by destruct s.
  - intros ix s H. by destruct s.
  - intros rows s _. apply wf_state_spec.
    exists (seq (length (dicts s)) (length rows)). destruct s; cbn. split.
    + by rewrite list_lookup_middle.
    + apply Forall_seq. intros j ?. rewrite length_app. lia.
  - intros current ps s (ps0 & Hps0 & Hlive)%wf_state_spec Hcur Hnew.
    apply wf_state_spec. exists (current ++ ps). destruct s; cbn in *. split.
    + apply list_lookup_insert_eq. by eapply lookup_lt_Some.
    + apply Forall_app. split; [|done]. congruence.
Qed.

(** *** What the loop of [get_relevant_faqs] leaves alone *)

Lemma relevant_loop_same_engine threshold results s :
  same_engine s (relevant_loop threshold results s).2.
Proof.
  revert s. induction results as [|[p score] rs IH]; intros s; [done|].
  cbn [relevant_loop]. destruct (float_ge score threshold); [|apply IH].
  rewrite run_bind, copy_with_score_run.
  destruct (dicts s !! p) as [d|]; [|done].
  rewrite run_bind.
  specialize (IH (set_dicts (fun h => h ++ [annotate d score]) s)).
  destruct (relevant_loop threshold rs _) as [[qs|e] s2]; cbn [snd] in *;
    by destruct s.
Qed.

(** ** Comparing floats *)

Lemma SFcompare_finite s1 m1 e1 s2 m2 e2 :
  SFcompare (S754_finite s1 m1 e1) (S754_finite s2 m2 e2) =
  Some (match s1, s2 with
        | true, false => Lt
        | false, true => Gt
        | false, false =>
            match e1 ?= e2 with
            | Eq => (m1 ?= m2)%positive
            | c => c
            end
        | true, true =>
            match e1 ?= e2 with
            | Eq => CompOpp (m1 ?= m2)%positive
            | Lt => Gt
            | Gt => Lt
            end
        end).
Proof. destruct s1, s2; cbn; try done; by destruct (e1 ?= e2). Qed.

Ltac compare_cases :=
  repeat match goal with
  | |- context [(?a ?= ?b)%positive] => destruct (Pos.compare_spec a b); subst
  | |- context [?a ?= ?b] => destruct (Z.compare_spec a b); subst
  | H : context [(?a ?= ?b)%positive] |- _ => destruct (Pos.compare_spec a b); subst
  | H : context [?a ?= ?b] |- _ => destruct (Z.compare_spec a b); subst
  end; cbn in *; try done; try lia.

(** [<=] on floats is transitive. *)
Lemma SFleb_trans a b c : SFleb a b = true -> SFleb b c = true -> SFleb a c = true.
Proof.
  unfold SFleb.
  destruct a as [sa|sa| |sa ma ea], b as [sb|sb| |sb mb eb], c as [sc|sc| |sc mc ec];
    rewrite ?SFcompare_finite; cbn;
    repeat match goal with s : bool |- _ => destruct s end; cbn; try done;
    compare_cases.
Qed.

(** A float strictly below another is not above or equal to it. *)
Lemma SFltb_not_leb a b : SFltb a b = true -> SFleb b a = false.
Proof.
  unfold SFltb, SFleb.
  destruct a as [sa|sa| |sa ma ea], b as [sb|sb| |sb mb eb];
    rewrite ?SFcompare_finite; cbn;
    repeat match goal with s : bool |- _ => destruct s end; cbn; try done;
    compare_cases.
Qed.

Lemma clears_lower t t' r :
  float_ge t t' = true -> clears t r = true -> clears t' r = true.
Proof. unfold clears, float_ge. intros H1 H2. by eapply SFleb_trans. Qed.

Lemma below_not_clears t r : float_lt r.2 t = true -> clears t r = false.
Proof. unfold clears, float_ge, float_lt. apply SFltb_not_leb. Qed.

(** ** Lists *)

Lemma filter_sublist_impl {A} (f g : A -> bool) l :
  (forall x, f x = true -> g x = true) ->
  List.filter f l `sublist_of` List.filter g l.
Proof.
  intros Hfg. induction l as [|x l IH]; [done|]. cbn.
  destruct (f x) eqn:Hf.
  - rewrite (Hfg x Hf). by constructor.
  - destruct (g x); [by constructor|done].
Qed.

Lemma filter_none {A} (f : A -> bool) l :
  Forall (fun x => f x = false) l -> List.filter f l = [].
Proof. induction 1 as [|x l Hx _ IH]; [done|]. cbn. by rewrite Hx. Qed.

(** ** The index model *)

Lemma insert_desc_Forall (P : float * Z -> Prop) x l :
  P x -> Forall P l -> Forall P (insert_desc x l).
Proof.
  intros Hx. induction 1 as [|y l Hy Hl IH]; cbn; [by repeat constructor|].
  destruct (float_lt x.1 y.1); by repeat constructor.
Qed.

Lemma sort_desc_Forall (P : float * Z -> Prop) l :
  Forall P l -> Forall P (sort_desc l).
Proof.
  unfold sort_desc. induction 1 as [|x l Hx Hl IH]; cbn [foldr]; [constructor|].
  by apply insert_desc_Forall.
Qed.

Lemma insert_desc_length x l : length (insert_desc x l) = S (length l).
Proof.
  induction l as [|y l IH]; cbn; [done|].
  destruct (float_lt x.1 y.1); cbn; by rewrite ?IH.
Qed.

Lemma sort_desc_length l : length (sort_desc l) = length l.
Proof.
  unfold sort_desc. induction l as [|x l IH]; cbn [foldr length]; [done|].
  by rewrite insert_desc_length, IH.
Qed.

Section IndexModel.
Context `{!Externals}.

Lemma scored_rows_labels ix q :
  Forall (fun sl => 0 <= sl.2 < Z.of_nat (ntotal ix)) (scored_rows ix q).
Proof.
  unfold scored_rows, ntotal. apply Forall_forall. intros sl Hsl.
  apply elem_of_lookup_imap in Hsl as (i & row & -> & Hrow).
  apply lookup_lt_Some in Hrow. cbn. lia.
Qed.

Lemma scored_rows_length ix q : length (scored_rows ix q) = ntotal ix.
Proof. unfold scored_rows, ntotal. by rewrite length_imap. Qed.

(** A search row has exactly [k] slots. *)
Lemma index_search_row_length ix k q : length (index_search_row ix k q) = k.
Proof.
  unfold index_search_row. rewrite length_take, length_app, length_replicate. lia.
Qed.

(** Every label is a row of the index or [-1]. *)
Lemma index_search_row_labels ix k q :
  Forall (fun sl => -1 <= sl.2 < Z.of_nat (ntotal ix)) (index_search_row ix k q).
Proof.
  unfold index_search_row. apply Forall_take, Forall_app. split.
  - apply sort_desc_Forall. eapply Forall_impl; [apply scored_rows_labels|].
    intros sl. cbn. lia.
  - apply Forall_replicate. cbn. lia.
Qed.

(** When the index holds at least [k] rows no slot is left unfilled. *)
Lemma index_search_row_filled ix k q :
  (k <= ntotal ix)%nat ->
  Forall (fun sl => 0 <= sl.2 < Z.of_nat (ntotal ix)) (index_search_row ix k q).
Proof.
  intros Hk. unfold index_search_row.
  rewrite take_app_le by (rewrite sort_desc_length, scored_rows_length; lia).
  apply Forall_take, sort_desc_Forall, scored_rows_labels.
Qed.

End IndexModel.

(** ** The loop of [search] *)

Lemma list_getitem_row {A} (l : list A) i :
  0 <= i < Z.of_nat (length l) ->
  list_getitem l i = match l !! Z.to_nat i with
                     | Some x => Ok x
                     | None => Raise IndexError
                     end.
Proof.
  intros Hi. unfold list_getitem. cbv zeta.
  rewrite (proj2 (Z.ltb_ge i 0)) by lia.
  rewrite (proj2 (Z.ltb_ge i 0)) by lia.
  by rewrite (proj2 (Z.leb_gt (Z.of_nat (length l)) i)) by lia.
Qed.

Lemma list_getitem_last {A} (l : list A) x :
  list_getitem (l ++ [x]) (-1) = Ok x.
Proof.
  unfold list_getitem. cbv zeta. change (-1 <? 0) with true. cbv iota.
  rewrite length_app, Nat2Z.inj_add. cbn [length].
  rewrite (proj2 (Z.ltb_ge _ 0)) by lia.
  rewrite (proj2 (Z.leb_gt _ _)) by lia. cbn [orb].
  replace (Z.to_nat (-1 + (Z.of_nat (length l) + Z.of_nat 1))) with (length l) by lia.
  by rewrite list_lookup_middle.
Qed.

Lemma list_getitem_elem {A} (l : list A) i x : list_getitem l i = Ok x -> x ∈ l.
Proof.
  unfold list_getitem. destruct (_ || _); [done|].
  destruct (l !! _) eqn:E; [|done]. intros [= <-]. by eapply list_elem_of_lookup_2.
Qed.

Lemma collect_results_rows faqs slots :
  Forall (fun sl => 0 <= sl.2) slots ->
  collect_results faqs slots = Ok (kept_rows faqs slots).
Proof.
  unfold kept_rows.
  induction 1 as [|[score idx] slots Hidx _ IH]; [done|]. cbn in Hidx.
  cbn [collect_results omap list_omap fst snd].
  destruct (idx <? Z.of_nat (length faqs)) eqn:Hlt.
  - rewrite list_getitem_row by lia.
    destruct (faqs !! Z.to_nat idx) as [p|] eqn:Hp.
    + by rewrite IH.
    + apply lookup_ge_None in Hp. lia.
  - rewrite lookup_ge_None_2 by lia. exact IH.
Qed.

Lemma collect_results_length faqs slots results :
  collect_results faqs slots = Ok results -> (length results <= length slots)%nat.
Proof.
  revert results. induction slots as [|[score idx] slots IH]; intros results.
  - intros [= <-]. done.
  - cbn [collect_results]. destruct (idx <? _).
    + destruct (list_getitem faqs idx); [|done]. cbn.
      destruct (collect_results faqs slots) as [rs|]; [|done]. cbn.
      intros [= <-]. cbn. specialize (IH rs eq_refl). lia.
    + intros H. specialize (IH _ H). cbn. lia.
Qed.

(** With a non-empty entry list no slot labelled with a row of the list or
    with [-1] is dropped: the loop returns one result per slot. *)
Lemma collect_results_keeps_all faqs slots :
  faqs <> [] ->
  Forall (fun sl => -1 <= sl.2 < Z.of_nat (length faqs)) slots ->
  exists results, collect_results faqs slots = Ok results /\
                  length results = length slots.
Proof.
  intros Hne. induction 1 as [|[score idx] slots Hidx _ (rs & IH & Hlen)];
    [by exists []|]. cbn in Hidx.
  cbn [collect_results].
  destruct (idx <? Z.of_nat (length faqs)) eqn:Hlt; [|lia].
  assert (exists p, list_getitem faqs idx = Ok p) as [p ->].
  { destruct (decide (idx = -1)) as [->|].
    - destruct (exists_last Hne) as (l & x & ->). exists x. apply list_getitem_last.
    - rewrite list_getitem_row by lia.
      destruct (faqs !! Z.to_nat idx) eqn:Hp; [by eauto|].
      apply lookup_ge_None in Hp. lia. }
  cbn. rewrite IH. cbn. eexists. split; [done|]. cbn. by rewrite Hlen.
Qed.

Lemma collect_results_elem faqs slots results :
  collect_results faqs slots = Ok results -> Forall (fun r => r.1 ∈ faqs) results.
Proof.
  revert results. induction slots as [|[score idx] slots IH]; intros results.
  - intros [= <-]. constructor.
  - cbn [collect_results]. destruct (idx <? _); [|apply IH].
    destruct (list_getitem faqs idx) as [p|] eqn:Hp; [|done]. cbn.
    destruct (collect_results faqs slots) as [rs|]; [|done]. cbn.
    intros [= <-]. constructor; [by eapply list_getitem_elem|by apply IH].
Qed.

(** ** The results of a search *)

Section SearchResults.
Context `{!Externals}.

Lemma search_results_elem query k s results s1 :
  search query k s = (Ok results, s1) ->
  exists faqs, lists s1 !! self_faqs s1 = Some faqs /\
               Forall (fun r => r.1 ∈ faqs) results.
Proof.
  intros (faqs & ix & v & Hfaqs & Hres)%search_slots.
  exists faqs. split; [done|]. by eapply collect_results_elem.
Qed.

(** On an engine with an index and a non-empty entry list at least as
    long as the index, the loop of [search] keeps every slot: a search for
    [k] neighbours, [k] positive, returns [k] results, whatever the number
    of rows. *)
Lemma search_keeps_every_slot query k s ix v rest faqs :
  self_index s = Some ix ->
  encoder [query] = Ok (v :: rest) ->
  lists s !! self_faqs s = Some faqs ->
  faqs <> [] -> (ntotal ix <= length faqs)%nat -> (0 < k)%nat ->
  exists results, (search query k s).1 = Ok results /\ length results = k.
Proof.
  intros Hix Henc Hfaqs Hne Hrows Hk.
  rewrite (search_ready_run query k s ix v rest faqs) by done. cbn [fst].
  destruct (collect_results_keeps_all faqs (index_search_row ix k (normalize_L2 v)) Hne)
    as (results & Hres & Hlen).
  - eapply Forall_impl; [apply index_search_row_labels|]. intros sl. cbn. lia.
  - exists results. split; [done|]. by rewrite Hlen, index_search_row_length.
Qed.

(** On a well-formed heap the entries a search returns are live dicts. *)
Lemma search_results_live query k s results s1 :
  wf_state s -> search query k s = (Ok results, s1) ->
  Forall (fun r => is_Some (dicts s1 !! r.1)) results.
Proof.
  intros Hwf Hrun.
  pose proof (preserves_search wf_state query k s Hwf) as Hwf1.
  rewrite Hrun in Hwf1. cbn [snd] in Hwf1.
  apply wf_state_spec in Hwf1 as (ps & Hps & Hlive).
  destruct (search_results_elem _ _ _ _ _ Hrun) as (faqs & Hfaqs & Hin).
  assert (faqs = ps) as -> by congruence.
  eapply Forall_impl; [exact Hin|]. intros r Hr. cbn beta in Hr.
  apply lookup_lt_is_Some. by eapply (proj1 (Forall_forall _ _) Hlive).
Qed.

End SearchResults.

(** ** The loop of [get_relevant_faqs] *)

Lemma relevant_loop_run threshold results s :
  Forall (fun r => is_Some (dicts s !! r.1)) results ->
  relevant_loop threshold results s =
  (Ok (seq (length (dicts s)) (length (List.filter (clears threshold) results))),
   set_dicts (fun h => h ++ ((fun r => annotate (deref s r.1) r.2) <$>
                             List.filter (clears threshold) results)) s).
Proof.
  revert s. induction results as [|[p score] rs IH]; intros s Hlive.
  - destruct s; msimpl. cbn. msimpl. by rewrite app_nil_r.
  - apply Forall_cons in Hlive as [[d Hd] Hlive]. cbn [fst] in Hd.
    cbn [relevant_loop List.filter].
    change (clears threshold (p, score)) with (float_ge score threshold).
    destruct (float_ge score threshold); [|by apply IH].
    rewrite run_bind, copy_with_score_run, Hd, run_bind.
    set (s1 := set_dicts (fun h => h ++ [annotate d score]) s).
    assert (dicts s1 = dicts s ++ [annotate d score]) as Hs1 by (by destruct s).
    assert (Forall (fun r => dicts s1 !! r.1 = dicts s !! r.1) rs) as Hsame.
    { eapply Forall_impl; [exact Hlive|]. intros r [d' Hr]. cbn beta.
      rewrite Hs1, Hr. by apply lookup_app_l_Some. }
    rewrite IH.
    2:{ eapply Forall_impl; [apply Forall_and; split; [exact Hsame|exact Hlive]|].
        by intros r [-> ?]. }
    assert ((fun r : loc * float => annotate (deref s1 r.1) r.2) <$>
              List.filter (clears threshold) rs =
            (fun r : loc * float => annotate (deref s r.1) r.2) <$>
              List.filter (clears threshold) rs) as ->.
    { apply Forall_fmap_ext_1. apply Forall_forall. intros r Hr.
      apply list_elem_of_In, filter_In in Hr as [Hr _]. apply list_elem_of_In in Hr.
      unfold deref. by rewrite (proj1 (Forall_forall _ _) Hsame r). }
    cbn [fmap list_fmap length seq]. unfold deref at 2. cbn [fst snd]. rewrite Hd.
    cbn [default]. rewrite Hs1, length_app. cbn [length]. rewrite Nat.add_1_r.
    subst s1. destruct s; msimpl. by rewrite <- app_assoc.
Qed.

(** ** Assembling the entries *)

Section Assemble.
Context `{!Externals}.

Lemma items_texts_labels items nqs :
  Forall2 has_item items nqs -> items_texts items = Ok (item_label <$> nqs).
Proof.
  induction 1 as [|item nq items nqs (d & -> & Hn & Hq) _ IH]; [done|].
  cbn [items_texts]. unfold item_text. cbn [py_getitem]. rewrite Hn, Hq. cbn.
  by rewrite IH.
Qed.

Lemma order_to_faq_entry order r :
  order_record order r -> order_to_faq order = Ok (order_entry r).
Proof.
  intros (Hid & Hc & Hr & Ht & Hs & Ha & items & Hi & Hitems).
  unfold order_to_faq, dict_getitem. cbn [py_getitem].
  rewrite Hi, Hid, Hc, Hr, Ht, Hs, Ha. cbn.
  by rewrite (items_texts_labels _ _ Hitems).
Qed.

(** The loop of [load_order_data] when every element yields a dict. *)
Lemma alloc_loop_run {A} (g : A -> outcome dict) xs ds s :
  Forall2 (fun x d => g x = Ok d) xs ds ->
  for_each (fun x => d ← lift (g x); alloc_dict d) xs s =
  (Ok (seq (length (dicts s)) (length ds)), set_dicts (fun h => h ++ ds) s).
Proof.
  intros Hall. revert s. induction Hall as [|x d xs ds Hx _ IH]; intros s.
  - destruct s; msimpl. cbn. msimpl. by rewrite app_nil_r.
  - cbn [for_each]. rewrite !run_bind. unfold lift at 1. rewrite Hx.
    cbn [alloc_dict]. rewrite run_bind, IH. destruct s; msimpl.
    rewrite length_app, <- app_assoc. cbn. by rewrite Nat.add_1_r.
Qed.

Lemma load_order_data_run s recs :
  text_source (files s) default_order_path ->
  Forall2 order_record (source_rows (files s) default_order_path) recs ->
  load_order_data default_order_path s =
  (Ok (seq (length (dicts s)) (length recs)),
   set_dicts (fun h => h ++ (order_entry <$> recs)) s).
Proof.
  unfold text_source, source_rows, load_order_data, try_except.
  rewrite run_bind. unfold json_load.
  destruct (files s !! default_order_path) as [[rows| | | |]|]; intros Htext; try done;
    try (intros ->%Forall2_nil_inv_l; destruct s; msimpl; cbn; by rewrite app_nil_r).
  intros Hall. rewrite (alloc_loop_run order_to_faq rows (order_entry <$> recs)).
  - by rewrite length_fmap.
  - apply Forall2_fmap_r. eapply Forall2_impl; [exact Hall|].
    intros o r. apply order_to_faq_entry.
Qed.

Lemma texts_loop_run ps ds s :
  Forall2 (fun p d => dicts s !! p = Some d) ps ds ->
  for_each (fun q => faq ← read_dict q; lift (combined_text faq)) ps s = (texts_of ds, s).
Proof.
  induction 1 as [|p d ps ds Hp _ IH]; [done|].
  cbn [for_each texts_of]. rewrite !run_bind. unfold read_dict at 1. rewrite Hp.
  unfold lift at 1. destruct (combined_text d) as [t|e]; [|done].
  rewrite run_bind, IH. cbn. by destruct (texts_of ds).
Qed.

(** What [create_embeddings] does, in terms of entry values: the order
    entries are appended to the base entries, the texts of all of them go
    to the encoder, and nothing else changes. *)
Lemma create_embeddings_run s current recs :
  entries_of s = Some current ->
  text_sources s current ->
  Forall2 order_record (source_rows (files s) default_order_path) recs ->
  exists s3,
    entries_of s3 = Some (base_entries s current ++ (order_entry <$> recs)) /\
    files s3 = files s /\ encoded s3 = encoded s /\ self_index s3 = self_index s /\
    self_index_path s3 = self_index_path s /\
    create_embeddings s =
    match texts_of (base_entries s current ++ (order_entry <$> recs)) with
    | Ok texts => (encoder texts, set_encoded (fun log => log ++ [texts]) s3)
    | Raise e => (Raise e, s3)
    end.
Proof.
  intros (cur & Hcur & Hall)%entries_at_spec [Htext Hfaq] Horders.
  unfold create_embeddings.
  rewrite run_bind. cbn [gets]. rewrite run_bind. unfold read_list at 1. rewrite Hcur.
  rewrite run_bind.
  assert (exists s1 cur1,
    (if bool_decide (cur = []) then load_faqs default_faq_path;; mret tt else mret tt) s
      = (Ok tt, s1) /\
    lists s1 !! self_faqs s1 = Some cur1 /\
    Forall2 (fun p d => dicts s1 !! p = Some d) cur1 (base_entries s current) /\
    files s1 = files s /\ encoded s1 = encoded s /\ self_index s1 = self_index s /\
    self_index_path s1 = self_index_path s) as (s1 & cur1 & -> & Hcur1 & Hall1 & Hf1 & He1 & Hi1 & Hp1).
  { unfold base_entries. destruct (bool_decide_reflect (cur = [])) as [->|Hne].
    - apply Forall2_nil_inv_l in Hall as ->. rewrite bool_decide_eq_true_2 by done.
      rewrite run_bind, load_faqs_run. unfold source_rows.
      specialize (Hfaq eq_refl). unfold text_source in Hfaq.
      destruct (files s !! default_faq_path) as [[rows| | | |]|]; try done;
        [exists (set_self_faqs (length (lists s))
                  (set_lists (fun h => h ++ [seq (length (dicts s)) (length rows)])
                     (set_dicts (fun h => h ++ rows) s))),
                (seq (length (dicts s)) (length rows))
        |exists (set_lists (fun h => h ++ [[]]) s), []..];
        (split; [reflexivity|]); destruct s; cbn in *.
      + split; [by rewrite list_lookup_middle|]. split; [apply lookup_fresh_block|done].
      + split; [by apply lookup_app_l_Some|]. split; [constructor|done].
      + split; [by apply lookup_app_l_Some|]. split; [constructor|done].
    - rewrite bool_decide_eq_false_2.
      2:{ intros ->. apply Forall2_nil_inv_r in Hall. done. }
      exists s, cur. done. }
  rewrite run_bind.
  rewrite (load_order_data_run s1 recs)
    by (unfold text_source, source_rows in *; by rewrite Hf1).
  set (oe := order_entry <$> recs).
  set (s2 := set_dicts (fun h => h ++ oe) s1).
  rewrite run_bind. cbn [gets]. rewrite run_bind. unfold read_list at 1.
  assert (lists s2 = lists s1 /\ self_faqs s2 = self_faqs s1 /\
          dicts s2 = dicts s1 ++ oe) as (Hl2 & Hq2 & Hd2) by (by destruct s1).
  rewrite Hl2, Hq2, Hcur1. rewrite run_bind. cbn [write_list modify].
  set (news := seq (length (dicts s1)) (length recs)).
  set (s3 := set_lists (fun h => <[self_faqs s1 := cur1 ++ news]> h) s2).
  assert (lists s3 !! self_faqs s3 = Some (cur1 ++ news)) as Hcur3.
  { subst s3 s2. destruct s1; cbn in *. apply list_lookup_insert_eq.
    by eapply lookup_lt_Some. }
  assert (Forall2 (fun p d => dicts s3 !! p = Some d) (cur1 ++ news)
            (base_entries s current ++ oe)) as Hall3.
  { assert (dicts s3 = dicts s1 ++ oe) as -> by (by destruct s1).
    apply Forall2_app.
    - eapply Forall2_impl; [exact Hall1|]. intros p d Hp. by apply lookup_app_l_Some.
    - subst news oe. rewrite <- (length_fmap order_entry recs). apply lookup_fresh_block. }
  exists s3. split; [apply entries_at_spec; eauto|].
  split; [by destruct s1|]. split; [by destruct s1|]. split; [by destruct s1|].
  split; [by destruct s1|].
  rewrite run_bind. cbn [gets]. rewrite run_bind. unfold read_list. rewrite Hcur3.
  rewrite run_bind, (texts_loop_run _ _ _ Hall3).
  destruct (texts_of _) as [texts|e]; [|done].
  unfold model_encode. rewrite run_bind. by cbn.
Qed.

Lemma build_index_run s current recs :
  entries_of s = Some current ->
  text_sources s current ->
  Forall2 order_record (source_rows (files s) default_order_path) recs ->
  exists s3,
    entries_of s3 = Some (base_entries s current ++ (order_entry <$> recs)) /\
    encoded s3 = encoded s /\ self_index s3 = self_index s /\
    build_index s =
    match texts_of (base_entries s current ++ (order_entry <$> recs)) with
    | Ok texts =>
        match encoder texts with
        | Ok [] =>
            (Raise IndexError,
             set_self_index (Some []) (set_encoded (fun log => log ++ [texts]) s3))
        | Ok rows =>
            (Ok (normalize_L2 <$> rows),
             set_self_index (Some (normalize_L2 <$> rows))
               (set_encoded (fun log => log ++ [texts]) s3))
        | Raise e => (Raise e, set_encoded (fun log => log ++ [texts]) s3)
        end
    | Raise e => (Raise e, s3)
    end.
Proof.
  intros Hcur Htext Horders.
  destruct (create_embeddings_run s current recs Hcur Htext Horders)
    as (s3 & Hentries & _ & Henc & Hix & _ & Hrun).
  exists s3. split; [done|]. split; [done|]. split; [done|].
  unfold build_index. rewrite run_bind, Hrun.
  destruct (texts_of _) as [texts|e]; [|done].
  destruct (encoder texts) as [[|v rows]|e]; [| |done].
  - by destruct s3.
  - destruct s3; msimpl. unfold index_add. msimpl. done.
Qed.

Lemma get_relevant_faqs_is_relevant query threshold :
  get_relevant_faqs query threshold = relevant query threshold 5.
Proof. reflexivity. Qed.

End Assemble.

(** * The claims *)

Lemma sample_order_is_record : order_record sample_order sample_order_fields.
Proof.
  repeat split; try reflexivity.
  eexists. split; [reflexivity|].
  repeat constructor; eexists; (split; [reflexivity|]); split; reflexivity.
Qed.

Lemma wf_ready_engine : wf_state ready_engine.
Proof. exists [sample_faq; order_entry sample_order_fields]. by_evaluation. Qed.

(** ** Search *)

(** C1: the code at a failing input.  The index holds two rows and the
    entry list two entries; a search for three neighbours returns three
    results, not [min(3, 2)]: the third is the last entry again, with the
    score FAISS gives a missing neighbour.  ([search_keeps_every_slot] has
    the general statement.) *)
Theorem search_pads_short_index :
  ntotal <$> self_index paired_engine = Some 2%nat /\
  length <$> entries_of paired_engine = Some 2%nat /\
  (search "refund" 3 paired_engine).1 =
    Ok [(1%nat, S754_finite false 35 0); (0%nat, S754_finite false 21 0);
        (1%nat, neg_flt_max)].
Proof. by_evaluation. Qed.

(** C2: the code at failing inputs.  With three index rows and two
    entries, row 2 is dropped, but each of the two slots labelled [-1] is
    mapped to the last entry; with one index row and no entries the slot
    labelled [-1] makes the search raise. *)
Theorem search_maps_missing_slot_to_last_entry :
  lists mismatched_engine !! self_faqs mismatched_engine = Some [0%nat; 1%nat] /\
  index_search_row [row 3; row 5; row 7] 5 [S754_finite false 7 0] =
    [(S754_finite false 49 0, 2); (S754_finite false 35 0, 1);
     (S754_finite false 21 0, 0); (neg_flt_max, -1); (neg_flt_max, -1)] /\
  (search "refund" 5 mismatched_engine).1 =
    Ok [(1%nat, S754_finite false 35 0); (0%nat, S754_finite false 21 0);
        (1%nat, neg_flt_max); (1%nat, neg_flt_max)] /\
  (search "refund" 2 orphan_engine).1 = Raise IndexError.
Proof. by_evaluation. Qed.

(** ** Building *)




(** C5: the code at a failing input.  Building twice from the same
    sources appends the order entry a second time, to the very list object
    the first build produced. *)
Theorem build_index_twice_duplicates_orders :
  entries_of built_once = Some [sample_faq; order_entry sample_order_fields] /\
  entries_of built_twice =
    Some [sample_faq; order_entry sample_order_fields; order_entry sample_order_fields] /\
  self_faqs built_twice = self_faqs built_once /\
  lists built_once !! self_faqs built_once = Some [0%nat; 1%nat] /\
  lists built_twice !! self_faqs built_once = Some [0%nat; 1%nat; 2%nat] /\
  files built_twice = files fresh_engine.
Proof. by_evaluation. Qed.




(** ** Loading and initialising *)

(** C4 (amended).  [load_index] fails as a whole, leaving the engine as it
    was, when the index artifact is absent or unreadable; when both
    artifacts are readable it succeeds and publishes both halves as they
    are, whatever their row counts: it compares no row counts. *)
Theorem load_index_both_or_untouched `{!Externals} s :
  (stored_index s = None -> load_index s = (Ok false, s)) /\
  (forall ix entries,
     stored_index s = Some ix -> stored_entries s = Some entries ->
     load_index s = (Ok true, publish ix entries s) /\
     self_index (publish ix entries s) = Some ix /\
     entries_of (publish ix entries s) = Some entries).
Proof.
  split.
  - intros Hix. by rewrite load_index_run, Hix.
  - intros ix entries Hix Hen. rewrite load_index_run, Hix, Hen.
    split; [done|]. split; [done|]. apply entries_of_publish.
Qed.

Lemma load_index_both_or_untouched_witness :
  load_index (new_engine default_index_path ∅) =
    (Ok false, new_engine default_index_path ∅) /\
  entries_of (load_index (new_engine default_index_path paired_disk)).2 =
    Some sample_entries.
Proof.
  split.
  - apply (proj1 (load_index_both_or_untouched (new_engine default_index_path ∅))).
    reflexivity.
  - destruct (proj2 (load_index_both_or_untouched (new_engine default_index_path paired_disk))
                [row 3; row 5] sample_entries) as (Hrun & _ & Hentries).
    + reflexivity.
    + reflexivity.
    + rewrite Hrun. exact Hentries.
Defined.

(** C4, as stated, fails.  With the index artifact present and the entries
    artifact missing, [load_index] reports failure but has already bound
    [self.index]; with three index rows and two entries it reports success
    and serves the mismatched pair. *)
Lemma load_index_half_and_mismatch :
  (load_index (new_engine default_index_path half_disk)).1 = Ok false /\
  self_index (new_engine default_index_path half_disk) = None /\
  self_index (load_index (new_engine default_index_path half_disk)).2 = Some [row 3] /\
  (load_index (new_engine default_index_path mismatched_disk)).1 = Ok true /\
  ntotal <$> self_index (load_index (new_engine default_index_path mismatched_disk)).2
    = Some 3%nat /\
  length <$> entries_of (load_index (new_engine default_index_path mismatched_disk)).2
    = Some 2%nat.
Proof. by_evaluation. Qed.

(** C9 (amended).  [initialize] has no check for an engine that is already
    initialised: a second call reads the two artifacts again.  When the
    entries artifact has a path of its own (the index path contains
    [.bin], as the default does) and a first [initialize] has returned,
    the second one returns too, invokes the encoder on nothing and writes
    nothing, and the pair it loads has the same index and the same entry
    values as the pair in memory. *)
Theorem initialize_again_reloads `{!Externals} s s1 :
  faq_data_path (self_index_path s) <> self_index_path s ->
  initialize s = (Ok tt, s1) ->
  exists s2,
    initialize s1 = (Ok tt, s2) /\
    is_Some (self_index s1) /\ self_index s2 = self_index s1 /\
    is_Some (entries_of s1) /\ entries_of s2 = entries_of s1 /\
    encoded s2 = encoded s1 /\ files s2 = files s1.
Proof.
  intros Hne. rewrite initialize_run, load_index_run.
  assert (forall ix entries s0,
            stored_index s0 = Some ix -> stored_entries s0 = Some entries ->
            self_index s0 = Some ix -> entries_of s0 = Some entries ->
            exists s2,
              initialize s0 = (Ok tt, s2) /\
              is_Some (self_index s0) /\ self_index s2 = self_index s0 /\
              is_Some (entries_of s0) /\ entries_of s2 = entries_of s0 /\
              encoded s2 = encoded s0 /\ files s2 = files s0) as Hreload.
  { intros ix entries s0 Hix Hen Hself Hentries.
    exists (publish ix entries s0). rewrite (initialize_after_load ix entries) by done.
    rewrite entries_of_publish, Hself, Hentries. by eauto 10. }
  assert (forall s0, self_index_path s0 = self_index_path s ->
            (build_index;; save_index) s0 = (Ok tt, s1) ->
            exists ix entries,
              stored_index s1 = Some ix /\ stored_entries s1 = Some entries /\
              self_index s1 = Some ix /\ entries_of s1 = Some entries) as Hbuilt.
  { intros s0 Hpath. rewrite run_bind.
    destruct (build_index s0) as [[ix|e] sb] eqn:Hb; [|done].
    pose proof (build_index_ok _ _ _ Hb) as Hself.
    assert (self_index_path sb = self_index_path s) as Hpb.
    { pose proof (preserves_build_index (keeps_path (self_index_path s)) s0 Hpath) as Hp.
      by rewrite Hb in Hp. }
    rewrite save_index_run, Hself.
    destruct (str_contains_char _ _); [|done].
    destruct (entries_of sb) as [entries|] eqn:Hentries; [|done].
    intros [= <-]. exists ix, entries.
    rewrite <- Hpb in Hne.
    destruct (stored_after_save ix entries sb Hne) as [H1 H2].
    split; [done|]. split; [done|]. split; [by destruct sb|].
    by destruct sb. }
  destruct (stored_index s) as [ix|] eqn:Hix.
  - destruct (stored_entries s) as [entries|] eqn:Hen.
    + intros [= <-]. apply (Hreload ix entries).
      * by destruct s.
      * by destruct s.
      * done.
      * apply entries_of_publish.
    + intros Hrun.
      assert (self_index_path (set_self_index (Some ix) s) = self_index_path s) as Hp
        by (by destruct s).
      destruct (Hbuilt _ Hp Hrun) as (ix' & entries & ? & ? & ? & ?).
      by apply (Hreload ix' entries).
  - intros Hrun. destruct (Hbuilt _ eq_refl Hrun)
      as (ix' & entries & ? & ? & ? & ?). by apply (Hreload ix' entries).
Qed.

Lemma initialize_again_reloads_witness :
  exists s2,
    initialize ready_engine = (Ok tt, s2) /\
    is_Some (self_index ready_engine) /\ self_index s2 = self_index ready_engine /\
    is_Some (entries_of ready_engine) /\ entries_of s2 = entries_of ready_engine /\
    encoded s2 = encoded ready_engine /\ files s2 = files ready_engine.
Proof.
  apply (initialize_again_reloads fresh_engine).
  - vm_compute. discriminate.
  - unfold ready_engine. apply (run_ok initialize fresh_engine tt). by_evaluation.
Defined.

(** C9, as stated, fails.  With an index path that has no [.bin] in it the
    entries artifact is written over the index artifact, so a second
    [initialize] finds no index to load: it builds again, the encoder is
    invoked a second time and the order entries are appended a second
    time. *)
Lemma initialize_again_rebuilds :
  (initialize clobbering_engine).1 = Ok tt /\
  (initialize clobbered_once).1 = Ok tt /\
  length (encoded clobbered_once) = 1%nat /\
  length (encoded clobbered_twice) = 2%nat /\
  length <$> entries_of clobbered_once = Some 2%nat /\
  length <$> entries_of clobbered_twice = Some 3%nat.
Proof. by_evaluation. Qed.

(** ** Relevant entries *)

(** C6.  [get_relevant_faqs(query, threshold)] is [search(query, k=5)]
    with the results whose score is below the threshold removed: the
    references it returns denote, in the order of the search results that
    clear the threshold, copies of their entries with [similarity_score]
    set to the score.  When none clears the threshold the result is the
    empty list; an exception arises only when the search itself raises. *)
Theorem get_relevant_faqs_filters_search `{!Externals} query threshold s :
  wf_state s ->
  match search query 5 s with
  | (Ok results, s1) =>
      exists ps s2,
        get_relevant_faqs query threshold s = (Ok ps, s2) /\
        Forall2 (fun p r => exists d, dicts s1 !! r.1 = Some d /\
                                      dicts s2 !! p = Some (annotate d r.2))
                ps (List.filter (clears threshold) results)
  | (Raise e, s1) => get_relevant_faqs query threshold s = (Raise e, s1)
  end.
Proof.
  intros Hwf. unfold get_relevant_faqs. rewrite run_bind.
  destruct (search query 5 s) as [[results|e] s1] eqn:Hsearch; [|done].
  pose proof (search_results_live _ _ _ _ _ Hwf Hsearch) as Hlive.
  rewrite relevant_loop_run by done.
  eexists _, _. split; [reflexivity|].
  set (kept := List.filter (clears threshold) results).
  assert (Forall (fun r => is_Some (dicts s1 !! r.1)) kept) as Hkept.
  { apply Forall_forall. intros r Hr.
    apply list_elem_of_In, filter_In in Hr as [Hr _]. apply list_elem_of_In in Hr.
    by apply (proj1 (Forall_forall _ _) Hlive). }
  pose proof (lookup_fresh_block (dicts s1)
                ((fun r => annotate (deref s1 r.1) r.2) <$> kept)) as Hall.
  rewrite length_fmap in Hall. apply Forall2_fmap_r in Hall.
  assert (dicts (set_dicts (fun h => h ++ ((fun r => annotate (deref s1 r.1) r.2) <$> kept)) s1)
          = dicts s1 ++ ((fun r => annotate (deref s1 r.1) r.2) <$> kept)) as ->
    by (by destruct s1).
  remember (dicts s1 ++ _) as h2 eqn:Hh2. clear Hh2.
  induction Hall as [|q r qs rs Hq _ IH]; [constructor|].
  apply Forall_cons in Hkept as [[d Hd] Hkept]. constructor; [|by apply IH].
  exists d. split; [done|]. cbn in Hq. rewrite Hq. unfold deref. by rewrite Hd.
Qed.

Lemma get_relevant_faqs_filters_search_witness :
  match search "refund" 5 ready_engine with
  | (Ok results, s1) =>
      exists ps s2,
        get_relevant_faqs "refund" float_500 ready_engine = (Ok ps, s2) /\
        Forall2 (fun p r => exists d, dicts s1 !! r.1 = Some d /\
                                      dicts s2 !! p = Some (annotate d r.2))
                ps (List.filter (clears float_500) results)
  | (Raise e, s1) => get_relevant_faqs "refund" float_500 ready_engine = (Raise e, s1)
  end.
Proof.
  apply (get_relevant_faqs_filters_search "refund" float_500 ready_engine).
  exact wf_ready_engine.
Defined.

(** C8.  For thresholds [t >= t'] and any [k], the entries
    [relevant(query, t, k)] returns are, by value and in order, a
    subsequence of those [relevant(query, t', k)] returns, and when every
    score of [search(query, k)] is below [t] the result is empty.  Both
    calls raise exactly when the search raises. *)
Theorem relevant_threshold_monotone `{!Externals} query k t t' s :
  wf_state s ->
  float_ge t t' = true ->
  match search query k s with
  | (Ok results, s1) =>
      exists ps s2 ps' s2',
        relevant query t k s = (Ok ps, s2) /\
        relevant query t' k s = (Ok ps', s2') /\
        (deref s2 <$> ps) `sublist_of` (deref s2' <$> ps') /\
        (Forall (fun r => float_lt r.2 t = true) results -> ps = [])
  | (Raise e, s1) =>
      relevant query t k s = (Raise e, s1) /\ relevant query t' k s = (Raise e, s1)
  end.
Proof.
  intros Hwf Hge. unfold relevant. rewrite !run_bind.
  destruct (search query k s) as [[results|e] s1] eqn:Hsearch; [|done].
  pose proof (search_results_live _ _ _ _ _ Hwf Hsearch) as Hlive.
  rewrite !relevant_loop_run by done.
  eexists _, _, _, _. split; [reflexivity|]. split; [reflexivity|]. split.
  - rewrite <- (length_fmap (fun r => annotate (deref s1 r.1) r.2)
                 (List.filter (clears t) results)).
    rewrite <- (length_fmap (fun r => annotate (deref s1 r.1) r.2)
                 (List.filter (clears t') results)).
    rewrite !deref_fresh_block. apply fmap_sublist, filter_sublist_impl.
    intros r. by apply clears_lower.
  - intros Hbelow. rewrite filter_none; [done|].
    eapply Forall_impl; [exact Hbelow|]. intros r. apply below_not_clears.
Qed.

Lemma relevant_threshold_monotone_witness :
  match search "refund" 3 ready_engine with
  | (Ok results, s1) =>
      exists ps s2 ps' s2',
        relevant "refund" float_500 3 ready_engine = (Ok ps, s2) /\
        relevant "refund" float_100 3 ready_engine = (Ok ps', s2') /\
        (deref s2 <$> ps) `sublist_of` (deref s2' <$> ps') /\
        (Forall (fun r => float_lt r.2 float_500 = true) results -> ps = [])
  | (Raise e, s1) =>
      relevant "refund" float_500 3 ready_engine = (Raise e, s1) /\
      relevant "refund" float_100 3 ready_engine = (Raise e, s1)
  end.
Proof.
  apply (relevant_threshold_monotone "refund" 3 float_500 float_100 ready_engine).
  - exact wf_ready_engine.
  - reflexivity.
Defined.

(** C10 (amended).  Whatever the query and the threshold, and whether the
    call returns or raises, every dict object that existed before
    [get_relevant_faqs] is unchanged after it, the stored entries among
    them: the score is written to a copy.  On an engine that already has an
    index, the list [self.faqs] refers to, the index and the entry values
    are unchanged as well.  (On an engine without an index the call loads
    or builds the pair first, which may rebind or extend the entry list.) *)
Theorem get_relevant_faqs_leaves_entries `{!Externals} query threshold s :
  (forall p d, dicts s !! p = Some d ->
     dicts (get_relevant_faqs query threshold s).2 !! p = Some d) /\
  (is_Some (self_index s) ->
   lists (get_relevant_faqs query threshold s).2 = lists s /\
   self_faqs (get_relevant_faqs query threshold s).2 = self_faqs s /\
   self_index (get_relevant_faqs query threshold s).2 = self_index s /\
   forall entries, entries_of s = Some entries ->
     entries_of (get_relevant_faqs query threshold s).2 = Some entries).
Proof.
  assert (forall p d, dicts s !! p = Some d ->
            dicts (get_relevant_faqs query threshold s).2 !! p = Some d) as Hkept.
  { intros p d Hp.
    pose proof (preserves_get_relevant_faqs (keeps_dicts (dicts s)) query threshold s)
      as Hpre.
    eapply prefix_lookup_Some; [exact Hp|]. apply Hpre. by unfold keeps_dicts. }
  split; [exact Hkept|]. intros Hready.
  unfold get_relevant_faqs in *. rewrite run_bind in *.
  pose proof (search_ready_state query 5 s Hready) as Hs.
  destruct (search query 5 s) as [[results|e] s1]; cbn [snd] in *; subst s1.
  - pose proof (relevant_loop_same_engine threshold results
                  (set_encoded (fun log => log ++ [[query]]) s))
      as (Hl & _ & _ & Hi & Hf & _).
    split; [by rewrite Hl; destruct s|]. split; [by rewrite Hf; destruct s|].
    split; [by rewrite Hi; destruct s|].
    intros entries (ps & Hps & Hall)%entries_at_spec. apply entries_at_spec.
    exists ps. rewrite Hf, Hl. split; [by destruct s|].
    eapply Forall2_impl; [exact Hall|]. intros p d Hp. by apply Hkept.
  - split; [by destruct s|]. split; [by destruct s|]. split; [by destruct s|].
    intros entries Hen. by destruct s.
Qed.

Lemma get_relevant_faqs_leaves_entries_witness :
  lists (get_relevant_faqs "refund" float_100 ready_engine).2 = lists ready_engine /\
  self_faqs (get_relevant_faqs "refund" float_100 ready_engine).2 = self_faqs ready_engine /\
  self_index (get_relevant_faqs "refund" float_100 ready_engine).2 = self_index ready_engine /\
  forall entries, entries_of ready_engine = Some entries ->
    entries_of (get_relevant_faqs "refund" float_100 ready_engine).2 = Some entries.
Proof.
  apply (proj2 (get_relevant_faqs_leaves_entries "refund" float_100 ready_engine)).
  exists [row 47; row 155]. by_evaluation.
Defined.

(** C10, as stated, fails.  On an engine without an index the call first
    loads or builds.  On a new engine it rebinds [self.faqs] to the list it
    assembles, so the stored entries go from none to two; on an engine that
    has entries and no index it extends the very list object [self.faqs]
    refers to. *)
Lemma get_relevant_faqs_changes_entry_list :
  self_index fresh_engine = None /\
  entries_of fresh_engine = Some [] /\
  entries_of (get_relevant_faqs "refund" float_100 fresh_engine).2 =
    Some [sample_faq; order_entry sample_order_fields] /\
  self_faqs fresh_engine <> self_faqs (get_relevant_faqs "refund" float_100 fresh_engine).2 /\
  self_index faqs_only_engine = None /\
  lists faqs_only_engine !! self_faqs faqs_only_engine = Some [0%nat] /\
  lists (get_relevant_faqs "refund" float_100 faqs_only_engine).2 !!
    self_faqs faqs_only_engine = Some [0%nat; 1%nat] /\
  self_faqs (get_relevant_faqs "refund" float_100 faqs_only_engine).2 =
    self_faqs faqs_only_engine.
Proof.
  split; [by_evaluation|]. split; [by_evaluation|]. split; [by_evaluation|].
  split; [vm_compute; discriminate|]. by_evaluation.
Qed.
(** * Further properties *)

(** X1.  Whenever [search(query, k)] returns, it returns at most [k]
    results. *)
Theorem search_returns_at_most_k `{!Externals} query k s results s1 :
  search query k s = (Ok results, s1) -> (length results <= k)%nat.
Proof.
  intros (faqs & ix & v & _ & Hres)%search_slots.
  apply collect_results_length in Hres. by rewrite index_search_row_length in Hres.
Qed.

Lemma search_returns_at_most_k_witness :
  (length [(1%nat, S754_finite false 35 0); (0%nat, S754_finite false 21 0);
           (1%nat, neg_flt_max)] <= 3)%nat.
Proof.
  apply (search_returns_at_most_k "refund" 3 paired_engine _
           (search "refund" 3 paired_engine).2).
  apply (run_ok (search "refund" 3) paired_engine). by_evaluation.
Defined.

(** X2.  On an engine that has an index of at least [k] rows, [k]
    positive, whose scores against the query are numbers no two of which
    are equal, a search for [k] neighbours does not raise in its loop: it
    returns, in the order of the index's answer, [entries[row]] with its
    score for every returned row that has an entry, and drops the rows
    beyond the entry list. *)
Theorem search_maps_rows_to_entries `{!Externals} query k s ix v rest faqs :
  self_index s = Some ix ->
  encoder [query] = Ok (v :: rest) ->
  lists s !! self_faqs s = Some faqs ->
  (0 < k <= ntotal ix)%nat ->
  distinct_scores (inner_product (normalize_L2 v) <$> ix) = true ->
  (search query k s).1 = Ok (kept_rows faqs (index_search_row ix k (normalize_L2 v))).
Proof.
  intros Hix Henc Hfaqs [Hpos Hk] _.
  rewrite (search_ready_run query k s ix v rest faqs) by done. cbn [fst].
  apply collect_results_rows.
  eapply Forall_impl; [by apply index_search_row_filled|]. intros sl. cbn. lia.
Qed.

Lemma search_maps_rows_to_entries_witness :
  (search "refund" 3 mismatched_engine).1 =
  Ok (kept_rows [0%nat; 1%nat]
        (index_search_row [row 3; row 5; row 7] 3 (normalize_L2 (row 7)))).
Proof.
  apply (search_maps_rows_to_entries "refund" 3 mismatched_engine
           [row 3; row 5; row 7] (row 7) [] [0%nat; 1%nat]).
  - by_evaluation.
  - reflexivity.
  - by_evaluation.
  - cbn. lia.
  - reflexivity.
Defined.

(** X3.  Saving and loading go round: when the entries artifact has a
    path of its own and [save_index] has returned on an engine with an
    index, [load_index] succeeds and publishes the index that was in memory
    and entries of the same values. *)
Theorem save_index_then_load_index `{!Externals} s ix s1 :
  faq_data_path (self_index_path s) <> self_index_path s ->
  self_index s = Some ix ->
  save_index s = (Ok tt, s1) ->
  exists entries,
    entries_of s = Some entries /\
    load_index s1 = (Ok true, publish ix entries s1) /\
    self_index (publish ix entries s1) = Some ix /\
    entries_of (publish ix entries s1) = Some entries.
Proof.
  intros Hne Hix. rewrite save_index_run, Hix.
  destruct (str_contains_char _ _); [|done].
  destruct (entries_of s) as [entries|]; [|done].
  intros [= <-]. exists entries. split; [done|].
  destruct (stored_after_save ix entries s Hne) as [H1 H2].
  rewrite load_index_run, H1, H2. split; [done|]. split; [done|].
  apply entries_of_publish.
Qed.

Lemma save_index_then_load_index_witness :
  exists entries,
    entries_of built_once = Some entries /\
    load_index (save_index built_once).2 =
      (Ok true, publish [row 47; row 155] entries (save_index built_once).2) /\
    self_index (publish [row 47; row 155] entries (save_index built_once).2) =
      Some [row 47; row 155] /\
    entries_of (publish [row 47; row 155] entries (save_index built_once).2) =
      Some entries.
Proof.
  apply (save_index_then_load_index built_once).
  - vm_compute. discriminate.
  - by_evaluation.
  - apply (run_ok save_index built_once). by_evaluation.
Defined.
(** * Further lemmas *)

(** * What the methods leave alone *)

Section Unchanged.
Context {B : Type} (proj : state -> B).

Lemma unchanged_ret {A} (a : A) : unchanged proj (mret a).
Proof. by intros s. Qed.

Lemma unchanged_raise {A} e : unchanged proj (@raise A e).
Proof. by intros s. Qed.

Lemma unchanged_lift {A} (o : outcome A) : unchanged proj (lift o).
Proof. by intros s. Qed.

Lemma unchanged_gets {A} (f : state -> A) : unchanged proj (gets f).
Proof. by intros s. Qed.

Lemma unchanged_modify f : (forall s, proj (f s) = proj s) -> unchanged proj (modify f).
Proof. intros Hf s. apply Hf. Qed.

Lemma unchanged_bind {A C} (m : M A) (f : A -> M C) :
  unchanged proj m -> (forall a, unchanged proj (f a)) -> unchanged proj (m ≫= f).
Proof.
  intros Hm Hf s. rewrite run_bind. specialize (Hm s).
  destruct (m s) as [[a|e] s']; cbn [snd] in *; [|done].
  by rewrite Hf.
Qed.

Lemma unchanged_try_except {A} (body : M A) handler :
  unchanged proj body -> (forall e, unchanged proj (handler e)) ->
  unchanged proj (try_except body handler).
Proof.
  intros Hb Hh s. unfold try_except. specialize (Hb s).
  destruct (body s) as [[a|e] s']; cbn [snd] in *; [done|].
  by rewrite Hh.
Qed.

Lemma unchanged_for_each {A C} (f : A -> M C) l :
  (forall x, unchanged proj (f x)) -> unchanged proj (for_each f l).
Proof.
  intros Hf. induction l as [|x l IH]; [apply unchanged_ret|].
  cbn [for_each]. apply unchanged_bind; [done|]. intros y.
  apply unchanged_bind; [done|]. intros ys. apply unchanged_ret.
Qed.

Lemma unchanged_read_dict p : unchanged proj (read_dict p).
Proof. intros s. unfold read_dict. by destruct (dicts s !! p). Qed.

Lemma unchanged_read_list p : unchanged proj (read_list p).
Proof. intros s. unfold read_list. by destruct (lists s !! p). Qed.

Lemma unchanged_json_load path : unchanged proj (json_load path).
Proof. intros s. unfold json_load. by destruct (files s !! path) as [[]|]. Qed.

Lemma unchanged_read_index path : unchanged proj (read_index path).
Proof. intros s. unfold read_index. by destruct (files s !! path) as [[]|]. Qed.

Lemma unchanged_pickle_load path : unchanged proj (pickle_load path).
Proof. intros s. unfold pickle_load. by destruct (files s !! path) as [[]|]. Qed.

Lemma unchanged_makedirs_dirname path : unchanged proj (makedirs_dirname path).
Proof. intros s. unfold makedirs_dirname. by destruct (str_contains_char _ _). Qed.

End Unchanged.

(** One step of a proof that a method leaves a component alone: the
    structure of the method is followed, and each update of the state is
    checked not to touch the component. *)
Ltac unchanged_step :=
  match goal with
  | |- unchanged _ (mret _) => apply unchanged_ret
  | |- unchanged _ (raise _) => apply unchanged_raise
  | |- unchanged _ (lift _) => apply unchanged_lift
  | |- unchanged _ (gets _) => apply unchanged_gets
  | |- unchanged _ (read_dict _) => apply unchanged_read_dict
  | |- unchanged _ (read_list _) => apply unchanged_read_list
  | |- unchanged _ (json_load _) => apply unchanged_json_load
  | |- unchanged _ (read_index _) => apply unchanged_read_index
  | |- unchanged _ (pickle_load _) => apply unchanged_pickle_load
  | |- unchanged _ (makedirs_dirname _) => apply unchanged_makedirs_dirname
  | |- unchanged _ (modify _) => apply unchanged_modify; intros []; reflexivity
  | |- unchanged _ (alloc_dict _) => intros []; reflexivity
  | |- unchanged _ (alloc_list _) => intros []; reflexivity
  | |- unchanged _ (_ ≫= _) => apply unchanged_bind; [|intros ?]
  | |- unchanged _ (try_except _ _) => apply unchanged_try_except; [|intros ?]
  | |- unchanged _ (for_each _ _) => apply unchanged_for_each; intros ?
  | |- unchanged _ (if ?b then _ else _) => destruct b
  | |- unchanged _ (match ?x with _ => _ end) => destruct x
  end.

Ltac unchanged_steps := repeat unchanged_step.

Section UnchangedMethods.
Context `{!Externals}.

(** Nothing but [save_index] writes to the disk. *)
Lemma unchanged_files_load_faqs path : unchanged files (load_faqs path).
Proof. unfold load_faqs, new_entries. unchanged_steps. Qed.

Lemma unchanged_files_load_order_data path : unchanged files (load_order_data path).
Proof. unfold load_order_data. unchanged_steps. Qed.

Lemma unchanged_files_create_embeddings : unchanged files create_embeddings.
Proof.
  unfold create_embeddings, write_list, model_encode. unchanged_steps;
    first [apply unchanged_files_load_faqs | apply unchanged_files_load_order_data].
Qed.

Lemma unchanged_files_build_index : unchanged files build_index.
Proof.
  unfold build_index, index_add. unchanged_steps. apply unchanged_files_create_embeddings.
Qed.

Lemma unchanged_files_load_index : unchanged files load_index.
Proof. unfold load_index, new_entries. unchanged_steps. Qed.

End UnchangedMethods.

Section UnchangedMore.
Context `{!Externals}.

(** The encoder is invoked by [create_embeddings] and [search] only. *)
Lemma unchanged_encoded_load_index : unchanged encoded load_index.
Proof. unfold load_index, new_entries. unchanged_steps. Qed.

Lemma unchanged_encoded_save_index : unchanged encoded save_index.
Proof. unfold save_index, write_file, read_entries. unchanged_steps. Qed.

Lemma unchanged_encoded_load_faqs path : unchanged encoded (load_faqs path).
Proof. unfold load_faqs, new_entries. unchanged_steps. Qed.

Lemma unchanged_encoded_load_order_data path : unchanged encoded (load_order_data path).
Proof. unfold load_order_data. unchanged_steps. Qed.

(** [self.index] is bound by [build_index] and [load_index] only. *)
Lemma unchanged_index_load_faqs path : unchanged self_index (load_faqs path).
Proof. unfold load_faqs, new_entries. unchanged_steps. Qed.

Lemma unchanged_index_load_order_data path : unchanged self_index (load_order_data path).
Proof. unfold load_order_data. unchanged_steps. Qed.

Lemma unchanged_index_create_embeddings : unchanged self_index create_embeddings.
Proof.
  unfold create_embeddings, write_list, model_encode. unchanged_steps;
    first [apply unchanged_index_load_faqs | apply unchanged_index_load_order_data].
Qed.

Lemma unchanged_index_save_index : unchanged self_index save_index.
Proof. unfold save_index, write_file, read_entries. unchanged_steps. Qed.

(** [save_index] changes nothing in memory. *)
Lemma unchanged_dicts_save_index : unchanged dicts save_index.
Proof. unfold save_index, write_file, read_entries. unchanged_steps. Qed.

Lemma unchanged_lists_save_index : unchanged lists save_index.
Proof. unfold save_index, write_file, read_entries. unchanged_steps. Qed.

Lemma unchanged_faqs_save_index : unchanged self_faqs save_index.
Proof. unfold save_index, write_file, read_entries. unchanged_steps. Qed.

Lemma unchanged_path_save_index : unchanged self_index_path save_index.
Proof. unfold save_index, write_file, read_entries. unchanged_steps. Qed.

End UnchangedMore.

Section InitializeRuns.
Context `{!Externals}.

Lemma unchanged_path_build_index : unchanged self_index_path build_index.
Proof.
  intros s. apply (preserves_build_index (keeps_path (self_index_path s))). done.
Qed.

(** The artifacts after a successful [save_index]. *)
Lemma save_index_ok s s1 :
  save_index s = (Ok tt, s1) ->
  match self_index s with
  | None => s1 = s
  | Some ix =>
      exists entries,
        entries_of s = Some entries /\
        s1 = set_files (fun fs => <[faq_data_path (self_index_path s) := FilePickle entries]>
                                    (<[self_index_path s := FileIndex ix]> fs)) s
  end.
Proof.
  rewrite save_index_run. destruct (self_index s) as [ix|]; [|by intros [= <-]].
  destruct (str_contains_char _ _); [|done].
  destruct (entries_of s) as [entries|]; [|done]. intros [= <-]. by exists entries.
Qed.

(** A build followed by a save: the pair in memory, and what is on disk. *)
Lemma build_save_ok s s1 :
  (build_index;; save_index) s = (Ok tt, s1) ->
  exists ix entries,
    self_index s1 = Some ix /\ entries_of s1 = Some entries /\
    stored_entries s1 = Some entries /\
    (faq_data_path (self_index_path s) <> self_index_path s -> stored_index s1 = Some ix).
Proof.
  rewrite run_bind. destruct (build_index s) as [[ix|e] sb] eqn:Hb; [|done].
  pose proof (build_index_ok _ _ _ Hb) as Hself.
  pose proof (unchanged_path_build_index s) as Hpath. rewrite Hb in Hpath. cbn in Hpath.
  intros Hsave%save_index_ok. rewrite Hself in Hsave.
  destruct Hsave as (entries & Hentries & ->). exists ix, entries.
  split; [by destruct sb|]. split; [by destruct sb|]. split.
  - unfold stored_entries. destruct sb; cbn. by rewrite lookup_insert_eq.
  - intros Hne. rewrite <- Hpath in Hne.
    by destruct (stored_after_save ix entries sb Hne).
Qed.

Lemma initialize_ok_index s s1 :
  initialize s = (Ok tt, s1) -> is_Some (self_index s1).
Proof.
  rewrite initialize_run, load_index_run.
  assert (forall s0, (build_index;; save_index) s0 = (Ok tt, s1) -> is_Some (self_index s1))
    as Hbuilt by (intros s0 (ix & ? & -> & _)%build_save_ok; eauto).
  destruct (stored_index s) as [ix|]; [destruct (stored_entries s) as [entries|]|]; eauto.
  intros [= <-]. by exists ix.
Qed.

End InitializeRuns.

(** ** Sources *)

Lemma text_source_dec disk path : {text_source disk path} + {~ text_source disk path}.
Proof.
  unfold text_source. destruct (disk !! path) as [[]|]; first [by left | right; tauto].
Qed.

Lemma source_rows_not_text disk path : ~ text_source disk path -> source_rows disk path = [].
Proof. unfold text_source, source_rows. by destruct (disk !! path) as [[]|]. Qed.

(** ** Strings *)

Lemma str_prefix_head a p c s : str_prefix (String a p) (String c s) = true -> c = a.
Proof.
  cbn [str_prefix]. destruct (Ascii.eqb_spec a c) as [->|]; [done|discriminate].
Qed.

(** ** More on building *)

Lemma entries_at_alloc s p ds rows :
  entries_at s p = Some ds -> entries_at (set_dicts (fun h => h ++ rows) s) p = Some ds.
Proof.
  intros (ps & Hps & Hall)%entries_at_spec. apply entries_at_spec. exists ps.
  destruct s; cbn in *. split; [done|].
  eapply Forall2_impl; [exact Hall|]. intros q d Hq. by apply lookup_app_l_Some.
Qed.

Lemma entries_at_length s p ps ds :
  lists s !! p = Some ps -> entries_at s p = Some ds -> length ds = length ps.
Proof.
  intros Hps (ps' & Hps' & Hall)%entries_at_spec.
  assert (ps' = ps) as -> by congruence. symmetry. by eapply Forall2_length.
Qed.

Section Building.
Context `{!Externals}.

(** The loop that forms the texts reads only, and forms one text per
    entry. *)
Lemma texts_loop_post ps s o s1 :
  for_each (fun q => faq ← read_dict q; lift (combined_text faq)) ps s = (o, s1) ->
  s1 = s /\ forall texts, o = Ok texts -> length texts = length ps.
Proof.
  revert o s1. induction ps as [|p ps IH]; intros o s1.
  - intros [= <- <-]. split; [done|]. by intros texts [= <-].
  - cbn [for_each]. rewrite !run_bind. unfold read_dict at 1.
    destruct (dicts s !! p) as [d|]; [|intros [= <- <-]; by split].
    unfold lift at 1. destruct (combined_text d) as [t|e]; [|intros [= <- <-]; by split].
    rewrite run_bind.
    destruct (for_each _ ps s) as [[ts|e] s2] eqn:E; destruct (IH _ _ eq_refl) as [-> Hlen].
    + intros [= <- <-]. split; [done|]. intros texts [= <-]. cbn. by rewrite (Hlen ts).
    + intros [= <- <-]. by split.
Qed.

(** When [create_embeddings] returns, the rows are the encoder's answer to
    a batch of one text per entry of [self.faqs]. *)
Lemma create_embeddings_ok s emb s1 :
  create_embeddings s = (Ok emb, s1) ->
  exists faqs texts,
    lists s1 !! self_faqs s1 = Some faqs /\ length texts = length faqs /\
    encoder texts = Ok emb.
Proof.
  unfold create_embeddings. rewrite run_bind. cbn [gets]. rewrite run_bind.
  destruct (read_list (self_faqs s) s) as [[cur|e] s0]; [|done]. rewrite run_bind.
  destruct ((if bool_decide (cur = []) then load_faqs default_faq_path;; mret tt else mret tt) s0)
    as [[[]|e] sa]; [|done].
  rewrite run_bind. destruct (load_order_data default_order_path sa) as [[order_faqs|e] sb]; [|done].
  rewrite run_bind. cbn [gets]. rewrite run_bind.
  destruct (read_list (self_faqs sb) sb) as [[cur2|e] sc]; [|done].
  rewrite run_bind. cbn [write_list modify].
  set (s3 := set_lists _ sc). rewrite run_bind. cbn [gets]. rewrite run_bind.
  unfold read_list. destruct (lists s3 !! self_faqs s3) as [faqs|] eqn:Hfaqs; [|done].
  rewrite run_bind.
  destruct (for_each _ faqs s3) as [[texts|e] s4] eqn:Ht;
    destruct (texts_loop_post _ _ _ _ Ht) as [-> Hlen]; [|done].
  unfold model_encode. rewrite run_bind. cbn [modify]. unfold lift.
  destruct (encoder texts) as [rows|e] eqn:Henc; [|done].
  intros [= <- <-]. exists faqs, texts. split; [by destruct s3|]. split; [by apply Hlen|done].
Qed.

Lemma build_index_inv s ix s1 :
  build_index s = (Ok ix, s1) ->
  exists emb sc,
    create_embeddings s = (Ok emb, sc) /\ ix = normalize_L2 <$> emb /\
    s1 = set_self_index (Some ix) sc.
Proof.
  unfold build_index. rewrite run_bind.
  destruct (create_embeddings s) as [[emb|e] sc]; [|done].
  destruct emb as [|v emb]; [done|].
  destruct sc; msimpl. unfold index_add. msimpl. intros [= <- <-]. eauto.
Qed.

(** With a non-empty [self.faqs], [create_embeddings] keeps [self.faqs]
    bound to the same list object. *)
Lemma create_embeddings_keeps_list s cur :
  lists s !! self_faqs s = Some cur -> cur <> [] ->
  self_faqs (create_embeddings s).2 = self_faqs s.
Proof.
  intros Hcur Hne. unfold create_embeddings. rewrite run_bind. cbn [gets].
  rewrite run_bind. unfold read_list at 1. rewrite Hcur.
  rewrite bool_decide_eq_false_2 by done. rewrite (run_bind (mret tt)).
  unfold mret at 1, M_ret.
  match goal with |- self_faqs (?tail s).2 = _ =>
    assert (unchanged self_faqs tail) as Htail; [|apply Htail] end.
  unfold load_order_data, write_list, model_encode. unchanged_steps.
Qed.

End Building.

(** ** Order records that cannot be converted *)

Section BadOrders.
Context `{!Externals}.

Lemma order_to_faq_no_items order :
  order !! "items" = None -> order_to_faq order = Raise (KeyError "items").
Proof. intros Hitems. unfold order_to_faq, dict_getitem. cbn [py_getitem]. by rewrite Hitems. Qed.

(** The loop of [load_order_data] stops at the first order that cannot be
    converted; the entries made for the orders before it stay allocated. *)
Lemma alloc_loop_raise {A} (g : A -> outcome dict) xs ds bad rest e s :
  Forall2 (fun x d => g x = Ok d) xs ds ->
  g bad = Raise e ->
  for_each (fun x => d ← lift (g x); alloc_dict d) (xs ++ bad :: rest) s =
  (Raise e, set_dicts (fun h => h ++ ds) s).
Proof.
  intros Hall Hbad. revert s. induction Hall as [|x d xs ds Hx _ IH]; intros s.
  - cbn [app for_each]. rewrite !run_bind. unfold lift at 1. rewrite Hbad.
    destruct s; msimpl. by rewrite app_nil_r.
  - cbn [app for_each]. rewrite !run_bind. unfold lift at 1. rewrite Hx.
    cbn [alloc_dict]. rewrite run_bind, IH. destruct s; msimpl. by rewrite <- app_assoc.
Qed.

Lemma load_order_data_raise s good recs bad rest key :
  files s !! default_order_path = Some (FileJson (good ++ bad :: rest)) ->
  Forall2 order_record good recs ->
  order_to_faq bad = Raise (KeyError key) ->
  load_order_data default_order_path s =
  (Raise (KeyError key), set_dicts (fun h => h ++ (order_entry <$> recs)) s).
Proof.
  intros Hfile Hgood Hbad. unfold load_order_data, try_except. rewrite run_bind.
  unfold json_load. rewrite Hfile.
  rewrite (alloc_loop_raise order_to_faq good (order_entry <$> recs) bad rest (KeyError key));
    [done| |done].
  apply Forall2_fmap_r. eapply Forall2_impl; [exact Hgood|].
  intros o r. apply order_to_faq_entry.
Qed.

(** The first phase of [create_embeddings]: the FAQ source is read when
    [self.faqs] is empty.  What follows runs from the state reached. *)
Lemma create_embeddings_load_phase s current :
  entries_of s = Some current ->
  (current = [] -> text_source (files s) default_faq_path) ->
  exists s1,
    entries_of s1 = Some (base_entries s current) /\
    files s1 = files s /\ encoded s1 = encoded s /\ self_index s1 = self_index s /\
    create_embeddings s =
    (order_faqs ← load_order_data default_order_path;
     p ← gets self_faqs;
     current ← read_list p;
     write_list p (current ++ order_faqs);;
     p ← gets self_faqs;
     faqs ← read_list p;
     texts ← for_each (fun q => faq ← read_dict q; lift (combined_text faq)) faqs;
     model_encode texts) s1.
Proof.
  intros (cur & Hcur & Hall)%entries_at_spec Htext.
  unfold create_embeddings at 1. rewrite run_bind. cbn [gets]. rewrite run_bind.
  unfold read_list at 1. rewrite Hcur. rewrite run_bind.
  unfold base_entries. destruct (bool_decide_reflect (cur = [])) as [->|Hne].
  - apply Forall2_nil_inv_l in Hall as ->. rewrite bool_decide_eq_true_2 by done.
    rewrite run_bind, load_faqs_run. unfold source_rows.
    specialize (Htext eq_refl). unfold text_source in Htext.
    destruct (files s !! default_faq_path) as [[rows| | | |]|] eqn:Hfile; try done;
      eexists; (split; [|split; [|split; [|split; [|reflexivity]]]]);
      try (by destruct s);
      try (apply entries_at_spec; exists []; destruct s; cbn in *; split;
           [by apply lookup_app_l_Some|constructor]).
    apply entries_at_spec. exists (seq (length (dicts s)) (length rows)).
    destruct s; cbn in *. split; [by rewrite list_lookup_middle|apply lookup_fresh_block].
  - assert (current <> []) as Hne'
      by (intros ->; by apply Forall2_nil_inv_r in Hall).
    rewrite bool_decide_eq_false_2 by done. exists s.
    split; [apply entries_at_spec; eauto|]. done.
Qed.

End BadOrders.

(** ** More on the loop of [search] *)

Lemma collect_results_app faqs slots1 slots2 :
  collect_results faqs (slots1 ++ slots2) =
  (results1 ← collect_results faqs slots1;
   results2 ← collect_results faqs slots2;
   mret (results1 ++ results2)).
Proof.
  induction slots1 as [|[score idx] slots1 IH]; cbn [app collect_results].
  - by destruct (collect_results faqs slots2).
  - destruct (idx <? Z.of_nat (length faqs)); [|exact IH].
    destruct (list_getitem faqs idx); [|done]. cbn. rewrite IH.
    destruct (collect_results faqs slots1); [|done]. cbn.
    by destruct (collect_results faqs slots2).
Qed.

(** Every slot that FAISS left unfilled yields the last entry. *)
Lemma collect_results_missing faqs last_faq n :
  collect_results (faqs ++ [last_faq]) (replicate n missing_slot) =
  Ok (replicate n (last_faq, neg_flt_max)).
Proof.
  induction n as [|n IH]; [done|].
  cbn [replicate]. unfold missing_slot at 1. cbn [collect_results].
  rewrite (proj2 (Z.ltb_lt _ _)) by lia.
  rewrite list_getitem_last. cbn. by rewrite IH.
Qed.

Lemma index_search_row_split `{!Externals} ix k q :
  index_search_row ix k q =
  take k (sort_desc (scored_rows ix q)) ++ replicate (k - ntotal ix) missing_slot.
Proof.
  unfold index_search_row.
  rewrite take_app, take_replicate, sort_desc_length, scored_rows_length.
  do 2 f_equal. lia.
Qed.

(** ** The texts handed to the encoder *)

Lemma texts_of_ok `{!Externals} entries :
  Forall (fun d : dict => is_Some (d !! "question") /\ is_Some (d !! "answer")) entries ->
  exists texts,
    texts_of entries = Ok texts /\
    Forall2 (fun (d : dict) t => exists q a,
               d !! "question" = Some q /\ d !! "answer" = Some a /\
               t = py_format q +:+ " " +:+ py_format a) entries texts.
Proof.
  induction 1 as [|d entries [[q Hq] [a Ha]] _ (texts & IH & Hall)].
  - exists []. split; [done|constructor].
  - exists ((py_format q +:+ " " +:+ py_format a) :: texts). split.
    + cbn [texts_of]. unfold combined_text, dict_getitem. cbn [py_getitem].
      rewrite Hq, Ha. cbn. by rewrite IH.
    + constructor; [by exists q, a|done].
Qed.

Lemma search_length `{!Externals} query k s results s1 :
  search query k s = (Ok results, s1) -> (length results <= k)%nat.
Proof.
  intros (faqs & ix & v & _ & Hres)%search_slots.
  apply collect_results_length in Hres. by rewrite index_search_row_length in Hres.
Qed.

(** ** The loaders *)

Section Loaders.
Context `{!Externals}.

Lemma unchanged_lists_load_order_data path : unchanged lists (load_order_data path).
Proof. unfold load_order_data. unchanged_steps. Qed.

Lemma unchanged_faqs_load_order_data path : unchanged self_faqs (load_order_data path).
Proof. unfold load_order_data. unchanged_steps. Qed.

Lemma preserves_load_order_data (I : state -> Prop) `{!Invariant I} path :
  preserves I (load_order_data path).
Proof.
  intros s HI. destruct (load_order_data path s) as [o s1] eqn:Hrun.
  by destruct (load_order_data_post I path s o s1 HI Hrun).
Qed.

(** The loop of [load_order_data], when it returns: one new dict per
    order, at consecutive addresses. *)
Lemma alloc_loop_ok {A} (g : A -> outcome dict) xs s ps s1 :
  for_each (fun x => d ← lift (g x); alloc_dict d) xs s = (Ok ps, s1) ->
  ps = seq (length (dicts s)) (length xs) /\
  length (dicts s1) = (length (dicts s) + length xs)%nat.
Proof.
  revert s ps s1. induction xs as [|x xs IH]; intros s ps s1.
  - intros [= <- <-]. split; [done|]. cbn. lia.
  - cbn [for_each]. rewrite !run_bind. unfold lift at 1.
    destruct (g x) as [d|e]; [|done]. cbn [alloc_dict]. rewrite run_bind.
    set (s0 := set_dicts (fun h => h ++ [d]) s).
    assert (length (dicts s0) = S (length (dicts s))) as Hlen.
    { subst s0. destruct s; cbn. rewrite length_app. cbn. lia. }
    destruct (for_each _ xs s0) as [[qs|e] s2] eqn:Hloop; [|done].
    intros [= <- <-]. destruct (IH _ _ _ Hloop) as [-> Hlen2].
    rewrite Hlen in *. cbn [length seq]. split; [done|lia].
Qed.

(** Converting an order raises nothing but [KeyError] and [TypeError]. *)

Lemma py_getitem_raises v key e : py_getitem v key = Raise e -> lookup_error e.
Proof.
  destruct v as [| | | | |l|d]; cbn; try (intros [= <-]; by right).
  destruct (d !! key); [done|]. intros [= <-]. left. eauto.
Qed.

Lemma items_texts_raises items e : items_texts items = Raise e -> lookup_error e.
Proof.
  induction items as [|item items IH]; [done|]. cbn [items_texts]. unfold item_text.
  destruct (py_getitem item "name") eqn:Hn; [|intros [= <-]; by eapply py_getitem_raises].
  destruct (py_getitem item "quantity") eqn:Hq; [|intros [= <-]; by eapply py_getitem_raises].
  cbn. destruct (items_texts items); [done|]. intros [= <-]. by apply IH.
Qed.

Lemma order_to_faq_raises order e : order_to_faq order = Raise e -> lookup_error e.
Proof.
  unfold order_to_faq, dict_getitem.
  repeat match goal with
  | |- (py_getitem ?v ?key ≫= _) = _ -> _ =>
      let Hk := fresh "Hk" in
      destruct (py_getitem v key) eqn:Hk;
        [cbn [mbind outcome_bind]|intros [= <-]; by eapply py_getitem_raises]
  end.
  destruct (py_iter _) as [items|e'] eqn:Hiter.
  2:{ intros [= <-]. right. destruct a; cbn in Hiter; congruence. }
  cbn [mbind outcome_bind].
  destruct (items_texts items) eqn:Hitems; [|intros [= <-]; by eapply items_texts_raises].
  cbn [mbind outcome_bind].
  repeat match goal with
  | |- (py_getitem ?v ?key ≫= _) = _ -> _ =>
      let Hk := fresh "Hk" in
      destruct (py_getitem v key) eqn:Hk;
        [cbn [mbind outcome_bind]|intros [= <-]; by eapply py_getitem_raises]
  end.
  done.
Qed.

Lemma alloc_loop_exn {A} (g : A -> outcome dict) xs s e s1 :
  for_each (fun x => d ← lift (g x); alloc_dict d) xs s = (Raise e, s1) ->
  exists x, g x = Raise e.
Proof.
  revert s. induction xs as [|x xs IH]; intros s; [done|].
  cbn [for_each]. rewrite !run_bind. unfold lift at 1.
  destruct (g x) as [d|e'] eqn:Hx; [|intros [= <- <-]; eauto].
  cbn [alloc_dict]. rewrite run_bind.
  destruct (for_each _ xs _) as [[qs|e'] s2] eqn:Hloop; [done|].
  intros [= <- <-]. by eapply IH.
Qed.

End Loaders.

(** * Further properties of the engine *)

(** X4.  [load_index] never raises and only reads: it writes no file, does
    not invoke the encoder, and leaves every dict and list object that
    existed as it was.  [self.index] is rebound exactly when the index
    artifact is readable, whatever becomes of the entries artifact.
    Without a readable index artifact the result is [False] and the engine
    is as it was; with both artifacts readable, the entries artifact being
    a list of dicts, the result is [True]. *)
Theorem load_index_reads_only `{!Externals} s :
  exists loaded,
    (load_index s).1 = Ok loaded /\
    files (load_index s).2 = files s /\
    encoded (load_index s).2 = encoded s /\
    dicts s `prefix_of` dicts (load_index s).2 /\
    lists s `prefix_of` lists (load_index s).2 /\
    self_index (load_index s).2 =
      match stored_index s with Some ix => Some ix | None => self_index s end /\
    (stored_index s = None -> loaded = false /\ (load_index s).2 = s) /\
    (is_Some (stored_index s) -> is_Some (stored_entries s) -> loaded = true).
Proof.
  pose proof (unchanged_files_load_index s) as Hfiles.
  pose proof (unchanged_encoded_load_index s) as Henc.
  rewrite load_index_run in *.
  destruct (stored_index s) as [ix|]; [destruct (stored_entries s) as [entries|]|].
  - exists true. cbn [fst snd] in *. split; [done|]. split; [done|]. split; [done|].
    split; [by apply prefix_app_r|]. split; [by apply prefix_app_r|].
    split; [done|]. split; [done|]. done.
  - exists false. cbn [fst snd] in *. split; [done|]. split; [done|]. split; [done|].
    split; [by destruct s|]. split; [by destruct s|]. split; [by destruct s|].
    split; [done|]. by intros _ [? [=]].
  - exists false. cbn [fst snd] in *. split; [done|]. split; [done|]. split; [done|].
    split; [done|]. split; [done|]. split; [done|]. split; [done|].
    by intros [? [=]].
Qed.

(** X5.  [save_index] changes nothing in memory and writes at most two
    paths, the index path and the path derived from it for the entries;
    without an index it does nothing at all. *)
Theorem save_index_writes_two_paths `{!Externals} s :
  dicts (save_index s).2 = dicts s /\ lists (save_index s).2 = lists s /\
  encoded (save_index s).2 = encoded s /\ self_index (save_index s).2 = self_index s /\
  self_faqs (save_index s).2 = self_faqs s /\
  self_index_path (save_index s).2 = self_index_path s /\
  (forall path, path <> self_index_path s -> path <> faq_data_path (self_index_path s) ->
     files (save_index s).2 !! path = files s !! path) /\
  (self_index s = None -> save_index s = (Ok tt, s)).
Proof.
  split; [apply unchanged_dicts_save_index|]. split; [apply unchanged_lists_save_index|].
  split; [apply unchanged_encoded_save_index|]. split; [apply unchanged_index_save_index|].
  split; [apply unchanged_faqs_save_index|]. split; [apply unchanged_path_save_index|].
  rewrite save_index_run. split.
  - intros path Hp1 Hp2. destruct (self_index s); [|done].
    destruct (str_contains_char _ _); [|done].
    destruct (entries_of s); destruct s; cbn in *;
      by rewrite ?lookup_insert_ne by done.
  - by intros ->.
Qed.

(** X6.  When [initialize] returns, the engine has an index and entries,
    and the entries artifact on disk holds exactly the entries in memory;
    when the entries artifact has a path of its own, the index artifact
    holds the index in memory as well. *)
Theorem initialize_publishes_and_persists `{!Externals} s s1 :
  initialize s = (Ok tt, s1) ->
  exists ix entries,
    self_index s1 = Some ix /\ entries_of s1 = Some entries /\
    stored_entries s1 = Some entries /\
    (faq_data_path (self_index_path s) <> self_index_path s -> stored_index s1 = Some ix).
Proof.
  rewrite initialize_run, load_index_run.
  destruct (stored_index s) as [ix|] eqn:Hix; [destruct (stored_entries s) as [entries|] eqn:Hen|].
  - intros [= <-]. exists ix, entries. split; [done|]. split; [apply entries_of_publish|].
    split; [by destruct s|]. by destruct s.
  - intros Hrun. apply build_save_ok in Hrun. by destruct s.
  - apply build_save_ok.
Qed.

Lemma initialize_publishes_and_persists_witness :
  exists ix entries,
    self_index ready_engine = Some ix /\ entries_of ready_engine = Some entries /\
    stored_entries ready_engine = Some entries /\
    (faq_data_path (self_index_path fresh_engine) <> self_index_path fresh_engine ->
     stored_index ready_engine = Some ix).
Proof.
  apply (initialize_publishes_and_persists fresh_engine ready_engine).
  unfold ready_engine. apply (run_ok initialize fresh_engine tt). by_evaluation.
Defined.

(** X7.  [search] on an engine without an index is [initialize] followed
    by the search: it loads the pair or builds and saves it first, and
    raises what that step raises. *)
Theorem search_initializes_first `{!Externals} query k s :
  self_index s = None ->
  search query k s = (initialize;; search query k) s.
Proof.
  intros Hnone. rewrite (run_bind initialize).
  unfold search at 1. rewrite run_bind. cbn [gets]. rewrite Hnone.
  rewrite run_bind. change (loaded ← load_index; if loaded : bool then mret tt else build_index;; save_index) with initialize.
  destruct (initialize s) as [[[]|e] s1] eqn:Hinit; [|done].
  destruct (initialize_ok_index s s1 Hinit) as [ix Hix].
  unfold search. rewrite (run_bind (gets self_index)). cbn [gets]. rewrite Hix.
  by rewrite (run_bind (mret tt)).
Qed.

Lemma search_initializes_first_witness :
  search "refund" 3 fresh_engine = (initialize;; search "refund" 3) fresh_engine.
Proof. apply (search_initializes_first "refund" 3 fresh_engine). reflexivity. Defined.

(** X8.  With an index path that has no directory part, [save_index]
    cannot create the directory: when no pair can be loaded and the build
    succeeds, [initialize] raises [FileNotFoundError].  The index it built
    stays in memory, and nothing has been written. *)
Theorem initialize_without_directory `{!Externals} s ix s1 :
  str_contains_char "/" (self_index_path s) = false ->
  (load_index s).1 = Ok false ->
  build_index (load_index s).2 = (Ok ix, s1) ->
  initialize s = (Raise FileNotFoundError, s1) /\
  self_index s1 = Some ix /\ files s1 = files s.
Proof.
  intros Hdir Hload Hbuild. rewrite initialize_run.
  pose proof (unchanged_files_load_index s) as Hf0.
  assert (self_index_path (load_index s).2 = self_index_path s) as Hp0
    by (apply (preserves_load_index (keeps_path (self_index_path s))); done).
  destruct (load_index s) as [[[]|e] s0]; try done. cbn [fst snd] in *.
  pose proof (unchanged_files_build_index s0) as Hf1.
  pose proof (unchanged_path_build_index s0) as Hp1.
  rewrite run_bind, Hbuild in *. cbn [snd] in *.
  pose proof (build_index_ok _ _ _ Hbuild) as Hix.
  rewrite save_index_run, Hix, Hp1, Hp0, Hdir. split; [done|]. split; [done|]. congruence.
Qed.

Lemma initialize_without_directory_witness :
  initialize (new_engine "index.bin" sample_disk) =
    (Raise FileNotFoundError, (build_index (new_engine "index.bin" sample_disk)).2) /\
  self_index (build_index (new_engine "index.bin" sample_disk)).2 = Some [row 47; row 155] /\
  files (build_index (new_engine "index.bin" sample_disk)).2 =
    files (new_engine "index.bin" sample_disk).
Proof.
  apply (initialize_without_directory (new_engine "index.bin" sample_disk) [row 47; row 155]).
  - reflexivity.
  - reflexivity.
  - apply (run_ok build_index (new_engine "index.bin" sample_disk)). by_evaluation.
Defined.

(** X9.  The path [save_index] and [load_index] derive for the entries
    artifact is the index path itself exactly when [.bin] does not occur
    in the index path: only an index path with [.bin] in it gives the
    entries an artifact of their own. *)
Theorem faq_data_path_same_without_bin index_path :
  faq_data_path index_path = index_path <-> str_contains ".bin" index_path = false.
Proof.
  unfold faq_data_path, str_replace.
  induction index_path as [|c s IH]; [done|].
  cbn [str_replace_from str_contains].
  destruct (str_prefix ".bin" (String c s)) eqn:Hpre.
  - split; [|done]. intros Heq. exfalso.
    apply str_prefix_head in Hpre as ->. discriminate Heq.
  - cbn [orb]. rewrite <- IH. split; [by intros [= ?]|by intros ->].
Qed.

(** X10.  When the encoder returns one row per text, a build that
    succeeds leaves the engine with an index of exactly one row per entry. *)
Theorem build_index_one_row_per_entry `{!Externals} s ix s1 :
  (forall texts rows, encoder texts = Ok rows -> length rows = length texts) ->
  wf_state s ->
  build_index s = (Ok ix, s1) ->
  exists entries,
    self_index s1 = Some ix /\ entries_of s1 = Some entries /\
    ntotal ix = length entries.
Proof.
  intros Hrows Hwf Hbuild.
  pose proof (preserves_build_index wf_state s Hwf) as [entries Hentries].
  rewrite Hbuild in Hentries. cbn [snd] in Hentries.
  exists entries. split; [by eapply build_index_ok|]. split; [done|].
  destruct (build_index_inv _ _ _ Hbuild) as (emb & sc & Hce & -> & ->).
  destruct (create_embeddings_ok _ _ _ Hce) as (faqs & texts & Hfaqs & Hlen & Henc).
  unfold ntotal. rewrite length_fmap, (Hrows _ _ Henc), Hlen. symmetry.
  eapply (entries_at_length (set_self_index _ sc)); [|exact Hentries]. by destruct sc.
Qed.

Lemma build_index_one_row_per_entry_witness :
  exists entries,
    self_index built_once = Some [row 47; row 155] /\
    entries_of built_once = Some entries /\
    ntotal [row 47; row 155] = length entries.
Proof.
  apply (build_index_one_row_per_entry fresh_engine).
  - intros texts rows [= <-]. apply length_fmap.
  - apply wf_new_engine.
  - unfold built_once. apply (run_ok build_index fresh_engine). by_evaluation.
Defined.

(** X11.  On an engine whose entry list is not empty, [build_index] does
    not read the FAQ source again: it appends one entry per order record to
    the list object [self.faqs] already refers to, so every further build
    makes the list longer by the number of orders. *)
Theorem build_index_appends_orders `{!Externals} s current recs :
  entries_of s = Some current -> current <> [] ->
  Forall2 order_record (source_rows (files s) default_order_path) recs ->
  entries_of (build_index s).2 = Some (current ++ (order_entry <$> recs)) /\
  self_faqs (build_index s).2 = self_faqs s.
Proof.
  intros Hcur Hne Horders. split.
  - destruct (text_source_dec (files s) default_order_path) as [Htext|Hbytes].
    + destruct (build_index_run s current recs Hcur) as (s3 & Hentries & _ & _ & ->);
        [by split|done|].
      unfold base_entries in *. rewrite bool_decide_eq_false_2 in * by done.
      destruct (texts_of _) as [texts|e]; [|done].
      destruct (encoder texts) as [[|v rows]|e]; cbn [snd];
        by rewrite ?entries_of_set_self_index, entries_of_set_encoded.
    + rewrite (source_rows_not_text _ _ Hbytes) in Horders.
      apply Forall2_nil_inv_l in Horders as ->. cbn [fmap list_fmap]. rewrite app_nil_r.
      destruct (create_embeddings_load_phase s current Hcur) as (s1 & Hentries & Hfiles & _ & _ & Hrun);
        [done|].
      unfold base_entries in Hentries. rewrite bool_decide_eq_false_2 in Hentries by done.
      unfold build_index. rewrite run_bind, Hrun, run_bind.
      rewrite load_order_data_bytes by (by rewrite Hfiles). done.
  - apply entries_at_spec in Hcur as (cur & Hcur & Hall).
    assert (cur <> []) as Hne' by (intros ->; by apply Forall2_nil_inv_l in Hall).
    pose proof (create_embeddings_keeps_list s cur Hcur Hne') as Hkeep.
    unfold build_index. rewrite run_bind.
    destruct (create_embeddings s) as [[emb|e] sc]; cbn [snd] in *; [|done].
    destruct emb as [|v emb]; [by destruct sc|].
    destruct sc; msimpl. unfold index_add. msimpl. done.
Qed.

Lemma build_index_appends_orders_witness :
  entries_of (build_index built_once).2 =
    Some ([sample_faq; order_entry sample_order_fields] ++
          (order_entry <$> [sample_order_fields])) /\
  self_faqs (build_index built_once).2 = self_faqs built_once.
Proof.
  apply (build_index_appends_orders built_once).
  - by_evaluation.
  - discriminate.
  - assert (source_rows (files built_once) default_order_path = [sample_order]) as ->
      by by_evaluation.
    repeat constructor. apply sample_order_is_record.
Defined.

(** X12.  A build is not undone when the encoder fails: when the sources
    it reads are each missing, a JSON array of objects, or text that is not
    JSON, and the encoder raises on the texts of the entries,
    [build_index] raises the encoder's exception and leaves [self.index] as
    it was, but the order entries have already been appended to
    [self.faqs]. *)
Theorem build_index_encoder_failure `{!Externals} s current recs texts e :
  entries_of s = Some current ->
  text_sources s current ->
  Forall2 order_record (source_rows (files s) default_order_path) recs ->
  texts_of (base_entries s current ++ (order_entry <$> recs)) = Ok texts ->
  encoder texts = Raise e ->
  (build_index s).1 = Raise e /\
  self_index (build_index s).2 = self_index s /\
  entries_of (build_index s).2 = Some (base_entries s current ++ (order_entry <$> recs)) /\
  encoded (build_index s).2 = encoded s ++ [texts].
Proof.
  intros Hcur Htext Horders Htexts Henc.
  destruct (create_embeddings_run s current recs Hcur Htext Horders)
    as (s3 & Hentries & _ & Hlog & Hix & _ & Hrun).
  unfold build_index. rewrite run_bind, Hrun, Htexts, Henc. cbn [fst snd].
  split; [done|]. split; [by destruct s3|].
  split; [by rewrite entries_of_set_encoded|]. destruct s3; cbn in *. by subst.
Qed.

Lemma build_index_encoder_failure_witness :
  (@build_index failing_externals built_once).1 = Raise EncoderError /\
  self_index (@build_index failing_externals built_once).2 = self_index built_once /\
  entries_of (@build_index failing_externals built_once).2 =
    Some (@base_entries built_once [sample_faq; order_entry sample_order_fields] ++
          (@order_entry failing_externals <$> [sample_order_fields])) /\
  encoded (@build_index failing_externals built_once).2 =
    encoded built_once ++
    [["How do refunds work? Refunds post in 3-5 days.";
      "Order FD1 details Order ID: FD1, Customer: Ann, Restaurant: Roma, Items: Pizza (x2), Cola (x1), Total: $25, Status: delivered, Delivery Address: 1 Main St";
      "Order FD1 details Order ID: FD1, Customer: Ann, Restaurant: Roma, Items: Pizza (x2), Cola (x1), Total: $25, Status: delivered, Delivery Address: 1 Main St"]].
Proof.
  apply (@build_index_encoder_failure failing_externals built_once
           [sample_faq; order_entry sample_order_fields] [sample_order_fields]).
  - by_evaluation.
  - split; [exact I|discriminate].
  - assert (source_rows (files built_once) default_order_path = [sample_order]) as ->
      by by_evaluation.
    repeat constructor. apply sample_order_is_record.
  - by_evaluation.
  - reflexivity.
Defined.

(** X13.  An order source that parses is not tolerated when a record in
    it is incomplete: when an order record has no [items] (the records
    before it being complete), [build_index] raises [KeyError].  The
    encoder is not invoked, nothing is appended to the entries, and
    [self.index] and the disk stay as they were.  (The FAQ source, which is
    read first when [self.faqs] is empty, is then missing, a JSON array of
    objects, or text that is not JSON.) *)
Theorem build_index_malformed_order `{!Externals} s current good recs bad rest :
  entries_of s = Some current ->
  (current = [] -> text_source (files s) default_faq_path) ->
  files s !! default_order_path = Some (FileJson (good ++ bad :: rest)) ->
  Forall2 order_record good recs ->
  bad !! "items" = None ->
  (build_index s).1 = Raise (KeyError "items") /\
  entries_of (build_index s).2 = Some (base_entries s current) /\
  self_index (build_index s).2 = self_index s /\
  encoded (build_index s).2 = encoded s /\
  files (build_index s).2 = files s.
Proof.
  intros Hcur Htext Hfile Hgood Hbad.
  destruct (create_embeddings_load_phase s current Hcur Htext)
    as (s1 & Hentries & Hfiles & Hlog & Hix & Hrun).
  unfold build_index. rewrite run_bind, Hrun, run_bind.
  rewrite (load_order_data_raise s1 good recs bad rest "items");
    [|by rewrite Hfiles|done|by apply order_to_faq_no_items].
  cbn [fst snd]. split; [done|].
  split; [by apply entries_at_alloc|]. by destruct s1.
Qed.

Lemma build_index_malformed_order_witness :
  (build_index bad_order_engine).1 = Raise (KeyError "items") /\
  entries_of (build_index bad_order_engine).2 = Some (base_entries bad_order_engine []) /\
  self_index (build_index bad_order_engine).2 = self_index bad_order_engine /\
  encoded (build_index bad_order_engine).2 = encoded bad_order_engine /\
  files (build_index bad_order_engine).2 = files bad_order_engine.
Proof.
  apply (build_index_malformed_order bad_order_engine [] [sample_order]
           [sample_order_fields] sample_bad_order []).
  - reflexivity.
  - intros _. exact I.
  - reflexivity.
  - repeat constructor. apply sample_order_is_record.
  - reflexivity.
Defined.

(** X14.  On an engine whose entry list is not empty and at least as long
    as the index, the scores of the rows against the query being numbers no
    two of which are equal, a search for [k] neighbours, [k] positive,
    returns [k] results whatever the number of rows: the rows of the index,
    best first, each with its entry, and then, for every neighbour the
    index could not supply, the last entry of the list with the score
    [-FLT_MAX]. *)
Theorem search_pads_with_last_entry `{!Externals} query k s ix v rest faqs last_faq :
  self_index s = Some ix ->
  encoder [query] = Ok (v :: rest) ->
  lists s !! self_faqs s = Some (faqs ++ [last_faq]) ->
  (ntotal ix <= length (faqs ++ [last_faq]))%nat ->
  (0 < k)%nat ->
  distinct_scores (inner_product (normalize_L2 v) <$> ix) = true ->
  (search query k s).1 =
    Ok (kept_rows (faqs ++ [last_faq])
          (take k (sort_desc (scored_rows ix (normalize_L2 v)))) ++
        replicate (k - ntotal ix) (last_faq, neg_flt_max)).
Proof.
  intros Hix Henc Hfaqs Hrows Hk _.
  rewrite (search_ready_run query k s ix v rest (faqs ++ [last_faq])) by done. cbn [fst].
  rewrite index_search_row_split, collect_results_app, collect_results_missing.
  rewrite collect_results_rows; [done|].
  apply Forall_take, sort_desc_Forall.
  eapply Forall_impl; [apply scored_rows_labels|]. intros sl. cbn. lia.
Qed.

Lemma search_pads_with_last_entry_witness :
  (search "refund" 3 paired_engine).1 =
    Ok (kept_rows ([0%nat] ++ [1%nat])
          (take 3 (sort_desc (scored_rows [row 3; row 5] (normalize_L2 (row 7))))) ++
        replicate (3 - ntotal [row 3; row 5]) (1%nat, neg_flt_max)).
Proof.
  apply (search_pads_with_last_entry "refund" 3 paired_engine [row 3; row 5] (row 7) []).
  - by_evaluation.
  - reflexivity.
  - by_evaluation.
  - cbn. lia.
  - lia.
  - reflexivity.
Defined.

(** X15.  A search on an engine that has an index reads only: whether it
    returns or raises, it invokes the encoder once, on the query alone, and
    changes nothing else, neither on disk nor in memory. *)
Theorem search_ready_reads_only `{!Externals} query k s :
  is_Some (self_index s) ->
  encoded (search query k s).2 = encoded s ++ [[query]] /\
  files (search query k s).2 = files s /\
  dicts (search query k s).2 = dicts s /\
  lists (search query k s).2 = lists s /\
  self_faqs (search query k s).2 = self_faqs s /\
  self_index (search query k s).2 = self_index s.
Proof. intros Hready. rewrite search_ready_state by done. by destruct s. Qed.

Lemma search_ready_reads_only_witness :
  encoded (search "refund" 3 paired_engine).2 = encoded paired_engine ++ [["refund"]] /\
  files (search "refund" 3 paired_engine).2 = files paired_engine /\
  dicts (search "refund" 3 paired_engine).2 = dicts paired_engine /\
  lists (search "refund" 3 paired_engine).2 = lists paired_engine /\
  self_faqs (search "refund" 3 paired_engine).2 = self_faqs paired_engine /\
  self_index (search "refund" 3 paired_engine).2 = self_index paired_engine.
Proof.
  apply (search_ready_reads_only "refund" 3 paired_engine).
  exists [row 3; row 5]. by_evaluation.
Defined.

(** X16.  When the sources it reads are each missing, a JSON array of
    objects, or text that is not JSON, and every entry has a question and an
    answer, [create_embeddings] invokes the encoder once, on one text per
    entry in the order of the entries, each the entry's question and answer
    joined by a space, and returns what the encoder returns. *)
Theorem create_embeddings_encodes_every_entry `{!Externals} s current recs :
  entries_of s = Some current ->
  text_sources s current ->
  Forall2 order_record (source_rows (files s) default_order_path) recs ->
  Forall (fun d : dict => is_Some (d !! "question") /\ is_Some (d !! "answer"))
         (base_entries s current) ->
  exists texts,
    (create_embeddings s).1 = encoder texts /\
    encoded (create_embeddings s).2 = encoded s ++ [texts] /\
    Forall2 (fun (d : dict) t => exists q a,
               d !! "question" = Some q /\ d !! "answer" = Some a /\
               t = py_format q +:+ " " +:+ py_format a)
            (base_entries s current ++ (order_entry <$> recs)) texts.
Proof.
  intros Hcur Htext Horders Hbase.
  destruct (create_embeddings_run s current recs Hcur Htext Horders)
    as (s3 & _ & _ & Hlog & _ & _ & Hrun).
  destruct (texts_of_ok (base_entries s current ++ (order_entry <$> recs)))
    as (texts & Htexts & Hall).
  { apply Forall_app. split; [done|]. apply Forall_fmap, Forall_forall.
    intros r _. split; by eexists. }
  exists texts. rewrite Hrun, Htexts. cbn [fst snd].
  split; [done|]. split; [|done]. destruct s3; cbn in *. by subst.
Qed.

Lemma create_embeddings_encodes_every_entry_witness :
  exists texts,
    (create_embeddings fresh_engine).1 = encoder texts /\
    encoded (create_embeddings fresh_engine).2 = encoded fresh_engine ++ [texts] /\
    Forall2 (fun (d : dict) t => exists q a,
               d !! "question" = Some q /\ d !! "answer" = Some a /\
               t = py_format q +:+ " " +:+ py_format a)
            (base_entries fresh_engine [] ++ (order_entry <$> [sample_order_fields])) texts.
Proof.
  apply (create_embeddings_encodes_every_entry fresh_engine [] [sample_order_fields]).
  - reflexivity.
  - split; [exact I|intros _; exact I].
  - repeat constructor. apply sample_order_is_record.
  - repeat constructor; by eexists.
Defined.

(** X17.  [get_relevant_faqs] returns at most five dicts, and every one of
    them is an object of its own made during the call: no two results are
    the same object, and none is an entry of the engine or an object that
    existed before. *)
Theorem get_relevant_faqs_returns_new_dicts `{!Externals} query threshold s ps s2 :
  wf_state s ->
  get_relevant_faqs query threshold s = (Ok ps, s2) ->
  (length ps <= 5)%nat /\ NoDup ps /\
  Forall (fun p => (length (dicts s) <= p < length (dicts s2))%nat) ps /\
  exists faqs, lists s2 !! self_faqs s2 = Some faqs /\ Forall (fun p => p ∉ faqs) ps.
Proof.
  intros Hwf. unfold get_relevant_faqs. rewrite run_bind.
  destruct (search query 5 s) as [[results|e] s1] eqn:Hsearch; [|done].
  pose proof (search_results_live _ _ _ _ _ Hwf Hsearch) as Hlive.
  pose proof (search_length _ _ _ _ _ Hsearch) as Hlen.
  pose proof (preserves_search wf_state query 5 s Hwf) as Hwf1.
  pose proof (preserves_search (keeps_dicts (dicts s)) query 5 s) as Hgrow.
  rewrite Hsearch in Hwf1, Hgrow. cbn [snd] in Hwf1, Hgrow.
  specialize (Hgrow (reflexivity _)). apply prefix_length in Hgrow.
  rewrite relevant_loop_run by done. intros [= <- <-].
  set (kept := List.filter (clears threshold) results).
  assert (length kept <= length results)%nat as Hkept by apply List.filter_length_le.
  assert (dicts (set_dicts (fun h => h ++ ((fun r => annotate (deref s1 r.1) r.2) <$> kept)) s1)
          = dicts s1 ++ ((fun r => annotate (deref s1 r.1) r.2) <$> kept)) as Hd
    by (by destruct s1).
  split; [rewrite length_seq; lia|]. split; [apply NoDup_seq|]. split.
  - apply Forall_seq. intros j Hj. rewrite Hd, length_app, length_fmap. lia.
  - apply wf_state_spec in Hwf1 as (faqs & Hfaqs & Hold). exists faqs.
    split; [by destruct s1|]. apply Forall_seq. intros j Hj Hin.
    apply (proj1 (Forall_forall _ _) Hold) in Hin. lia.
Qed.

Lemma get_relevant_faqs_returns_new_dicts_witness :
  (length [2%nat; 3%nat] <= 5)%nat /\ NoDup [2%nat; 3%nat] /\
  Forall (fun p => (length (dicts ready_engine) <= p <
                    length (dicts (get_relevant_faqs "refund" float_100 ready_engine).2))%nat)
         [2%nat; 3%nat] /\
  exists faqs,
    lists (get_relevant_faqs "refund" float_100 ready_engine).2 !!
      self_faqs (get_relevant_faqs "refund" float_100 ready_engine).2 = Some faqs /\
    Forall (fun p => p ∉ faqs) [2%nat; 3%nat].
Proof.
  apply (get_relevant_faqs_returns_new_dicts "refund" float_100 ready_engine).
  - exists [sample_faq; order_entry sample_order_fields]. by_evaluation.
  - apply (run_ok (get_relevant_faqs "refund" float_100) ready_engine). by_evaluation.
Defined.

(** X18.  On an engine whose entry list is empty, every search for more
    neighbours than the index has rows raises [IndexError]: the first slot
    the index could not fill is looked up in the empty list.  So after a
    build from empty sources no search for one neighbour or more returns. *)
Theorem search_raises_on_empty_entries `{!Externals} query k s ix v rest :
  self_index s = Some ix ->
  encoder [query] = Ok (v :: rest) ->
  lists s !! self_faqs s = Some [] ->
  (ntotal ix < k)%nat ->
  (search query k s).1 = Raise IndexError.
Proof.
  intros Hix Henc Hfaqs Hk.
  rewrite (search_ready_run query k s ix v rest []) by (done || lia). cbn [fst].
  rewrite index_search_row_split, collect_results_app.
  rewrite (collect_results_rows [] (take k _)).
  2:{ apply Forall_take, sort_desc_Forall.
      eapply Forall_impl; [apply scored_rows_labels|]. intros sl. cbn. lia. }
  destruct (k - ntotal ix)%nat as [|n] eqn:Hn; [lia|]. reflexivity.
Qed.

Lemma search_raises_on_empty_entries_witness :
  (search "anything" 1 empty_built).1 = Raise IndexError.
Proof.
  apply (search_raises_on_empty_entries "anything" 1 empty_built [] (row 9) []).
  - by_evaluation.
  - reflexivity.
  - by_evaluation.
  - cbn. lia.
Defined.

(** X19.  [load_faqs] writes nothing, and what it does depends on the
    file.  When the file is a JSON array of objects, [self.faqs] is rebound
    to a list of its entries and that same list is returned.  When the file
    is missing or is text that is not JSON, a new empty list is returned
    and the engine keeps the entries it had.  When the file is not text,
    [load_faqs] raises [UnicodeDecodeError], which neither handler catches,
    and the engine is as it was. *)
Theorem load_faqs_rebinds_or_keeps `{!Externals} faq_path s :
  wf_state s ->
  files (load_faqs faq_path s).2 = files s /\
  match files s !! faq_path with
  | Some (FileJson rows) =>
      exists p,
        (load_faqs faq_path s).1 = Ok p /\
        self_faqs (load_faqs faq_path s).2 = p /\
        entries_of (load_faqs faq_path s).2 = Some rows
  | None | Some FileText =>
      exists p,
        (load_faqs faq_path s).1 = Ok p /\
        p <> self_faqs (load_faqs faq_path s).2 /\
        lists (load_faqs faq_path s).2 !! p = Some [] /\
        self_faqs (load_faqs faq_path s).2 = self_faqs s /\
        entries_of (load_faqs faq_path s).2 = entries_of s
  | Some _ => load_faqs faq_path s = (Raise UnicodeDecodeError, s)
  end.
Proof.
  intros Hwf. split; [apply unchanged_files_load_faqs|].
  rewrite load_faqs_run.
  apply wf_state_spec in Hwf as (ps & Hps & Hlive).
  pose proof (lookup_lt_Some _ _ _ Hps) as Hlt.
  assert (self_faqs (set_lists (fun h => h ++ [[]]) s) = self_faqs s /\
          lists (set_lists (fun h => h ++ [[]]) s) = lists s ++ [[]] /\
          entries_of (set_lists (fun h => h ++ [[]]) s) = entries_of s) as (Hf & Hl & He).
  { unfold entries_of, entries_at. destruct s; cbn in *.
    by rewrite (lookup_app_l_Some _ _ _ _ Hps), Hps. }
  destruct (files s !! faq_path) as [[rows| | | |]|]; cbn [fst snd]; try done;
    exists (length (lists s)); (split; [done|]);
    try (rewrite Hf, Hl; split; [lia|]; split; [by rewrite list_lookup_middle|done]).
  split; [by destruct s|].
  apply entries_at_spec. exists (seq (length (dicts s)) (length rows)).
  destruct s; cbn. split; [by rewrite list_lookup_middle|apply lookup_fresh_block].
Qed.

Lemma load_faqs_rebinds_or_keeps_witness :
  files (load_faqs default_faq_path fresh_engine).2 = files fresh_engine /\
  exists p,
    (load_faqs default_faq_path fresh_engine).1 = Ok p /\
    self_faqs (load_faqs default_faq_path fresh_engine).2 = p /\
    entries_of (load_faqs default_faq_path fresh_engine).2 = Some [sample_faq].
Proof.
  apply (load_faqs_rebinds_or_keeps default_faq_path fresh_engine). apply wf_new_engine.
Defined.

(** X20.  [load_order_data] only returns: it adds nothing to [self.faqs]
    and changes no list object, no file and no existing dict.  When it
    returns, the result is one new dict per record of the source, in order.
    A source that is missing, an empty array, or text that is not JSON gives
    the empty list and leaves the state as it was; a source that is not
    text makes it raise [UnicodeDecodeError], which neither handler
    catches. *)
Theorem load_order_data_only_returns `{!Externals} order_path s :
  lists (load_order_data order_path s).2 = lists s /\
  self_faqs (load_order_data order_path s).2 = self_faqs s /\
  files (load_order_data order_path s).2 = files s /\
  self_index (load_order_data order_path s).2 = self_index s /\
  dicts s `prefix_of` dicts (load_order_data order_path s).2 /\
  (forall ps,
     (load_order_data order_path s).1 = Ok ps ->
     ps = seq (length (dicts s)) (length (source_rows (files s) order_path)) /\
     length (dicts (load_order_data order_path s).2) =
       (length (dicts s) + length (source_rows (files s) order_path))%nat) /\
  (empty_source (files s) order_path -> load_order_data order_path s = (Ok [], s)) /\
  (~ text_source (files s) order_path ->
   load_order_data order_path s = (Raise UnicodeDecodeError, s)).
Proof.
  split; [apply unchanged_lists_load_order_data|].
  split; [apply unchanged_faqs_load_order_data|].
  split; [apply unchanged_files_load_order_data|].
  split; [apply unchanged_index_load_order_data|].
  split.
  { apply (preserves_load_order_data (keeps_dicts (dicts s))). by unfold keeps_dicts. }
  split; [|split; [|apply load_order_data_bytes]].
  - unfold load_order_data, try_except, source_rows. rewrite run_bind. unfold json_load.
    destruct (files s !! order_path) as [[rows| | | |]|] eqn:Hfile; try done;
      try (intros ps [= <-]; cbn; split; [done|lia]).
    intros ps. destruct (for_each _ rows s) as [[qs|e] s1] eqn:Hloop.
    + cbn [fst snd]. intros [= <-]. by apply (alloc_loop_ok order_to_faq).
    + destruct (alloc_loop_exn _ _ _ _ _ Hloop) as (order & Hraise).
      by destruct (order_to_faq_raises _ _ Hraise) as [[key ->]| ->].
  - unfold empty_source, text_source, source_rows, load_order_data, try_except.
    rewrite run_bind. unfold json_load.
    destruct (files s !! order_path) as [[rows| | | |]|]; intros [Htext Hrows]; try done.
    by subst rows.
Qed.
(** * The callers of the engine: lemmas *)

Lemma agent_run_bind {A B} (m : Agent A) (f : A -> Agent B) t :
  (m ≫= f) t = match m t with (Ok a, t') => f a t' | (Raise e, t') => (Raise e, t') end.
Proof. reflexivity. Qed.

(** Reading back the dicts a run of the loop of [get_relevant_faqs] made. *)
Lemma read_fresh_block s rows :
  for_each read_dict (seq (length (dicts s)) (length rows))
    (set_dicts (fun h => h ++ rows) s) =
  (Ok rows, set_dicts (fun h => h ++ rows) s).
Proof.
  rewrite for_each_read_dict.
  assert (dicts (set_dicts (fun h => h ++ rows) s) = dicts s ++ rows) as ->
    by (by destruct s).
  by rewrite (proj2 (mapM_Some _ _ _) (lookup_fresh_block (dicts s) rows)).
Qed.

Section ToolsRuns.
Context `{!Externals}.

(** [search_faq] in terms of the search it rests on. *)
Lemma search_faq_run query s :
  wf_state s ->
  search_faq query s =
  match search query 5 s with
  | (Ok results, s1) =>
      let kept := List.filter (clears faq_threshold) results in
      let served := (fun r : loc * float => annotate (deref s1 r.1) r.2) <$> kept in
      (Ok (match kept with
           | [] =>
               <["success" := VBool false]>
               (<["query" := VStr query]>
               (<["message" := VStr "No relevant FAQs found. Please try rephrasing your question or contact support for assistance."]> ∅))
           | _ =>
               <["success" := VBool true]>
               (<["query" := VStr query]>
               (<["faqs" := VList (VDict <$> served)]>
               (<["message" := VStr ("Found " +:+ py_format (VInt (Z.of_nat (length kept))) +:+
                                     " relevant FAQ(s) for your query.")]> ∅)))
           end),
       set_dicts (fun h => h ++ served) s1)
  | (Raise e, s1) => (Raise e, s1)
  end.
Proof.
  intros Hwf. unfold search_faq, get_relevant_faqs. rewrite !run_bind.
  destruct (search query 5 s) as [[results|e] s1] eqn:Hsearch; [|done].
  pose proof (search_results_live _ _ _ _ _ Hwf Hsearch) as Hlive.
  rewrite relevant_loop_run by done. cbv zeta.
  set (kept := List.filter (clears faq_threshold) results).
  set (served := (fun r : loc * float => annotate (deref s1 r.1) r.2) <$> kept).
  assert (length kept = length served) as Hlen by (subst served; by rewrite length_fmap).
  destruct kept as [|r kept'] eqn:Hkept; [done|].
  remember (seq (length (dicts s1)) (length (r :: kept'))) as ps eqn:Hps.
  destruct ps as [|p ps']; [done|]. cbv iota. rewrite Hps.
  rewrite run_bind, length_seq, Hlen, read_fresh_block. reflexivity.
Qed.

End ToolsRuns.

Lemma any_in_false words text word :
  any_in words text = false -> word ∈ words -> str_contains word text = false.
Proof.
  unfold any_in. intros Hnone Hin. apply list_elem_of_In in Hin.
  destruct (str_contains word text) eqn:Hw; [|done].
  rewrite <- Hnone. symmetry. apply existsb_exists. eauto.
Qed.

Lemma named_call_run name call s :
  named_call name call s =
  match call s with
  | (Ok r, s') => (Ok (FunctionCall name r), s')
  | (Raise e, s') => (Raise e, s')
  end.
Proof. unfold named_call. rewrite run_bind. by destruct (call s) as [[r|e] s']. Qed.

Section DemoRuns.
Context `{!Externals} `{!TextLibrary} `{!SupportTools}.

(** A message without a tracked order that carries one of the FAQ words is
    answered by [search_faq]. *)
Lemma simulate_function_call_faq user_message :
  any_in tracking_words (str_lower user_message) = false \/
  (str_contains "fd123456789" (str_lower user_message) = false /\
   str_contains "fd987654321" (str_lower user_message) = false) ->
  any_in faq_words (str_lower user_message) = true ->
  DemoSupportAgent._simulate_function_call user_message =
  named_call "search_faq" (search_faq user_message).
Proof.
  unfold tracking_words, faq_words. intros Htrack Hfaq.
  unfold DemoSupportAgent._simulate_function_call. cbv zeta. rewrite Hfaq.
  destruct Htrack as [->|[-> ->]]; [reflexivity|].
  destruct (any_in ["track"; "status"; "order"] _); reflexivity.
Qed.

(** [chat], step by step. *)
Lemma chat_any_run user_message session_id t :
  DemoSupportAgent.chat_any user_message session_id t =
  let user := history_entry (VStr "user") (VStr user_message) in
  let failure e :=
    <["success" := VBool false]>
    (<["error" := VStr (exn_str e)]>
    (<["response" := VStr apology]>
    (<["demo_mode" := VBool true]> ∅))) in
  match DemoSupportAgent._simulate_function_call user_message (rag_engine t) with
  | (Ok call, s1) =>
      match DemoSupportAgent._format_demo_response (function_name call) (result call)
              user_message with
      | Ok response =>
          (Ok (<["success" := VBool true]>
               (<["response" := response]>
               (<["session_id" := session_id]>
               (<["function_called" := VStr (function_name call)]>
               (<["demo_mode" := VBool true]> ∅))))),
           AgentState s1 (conversation_history t ++
                          [user; history_entry (VStr "assistant") response]))
      | Raise e => (Ok (failure e), AgentState s1 (conversation_history t ++ [user]))
      end
  | (Raise e, s1) => (Ok (failure e), AgentState s1 (conversation_history t ++ [user]))
  end.
Proof.
  unfold DemoSupportAgent.chat_any, agent_try. rewrite agent_run_bind.
  cbn [history_append]. rewrite agent_run_bind. unfold on_engine at 1. cbn [rag_engine].
  destruct (DemoSupportAgent._simulate_function_call user_message (rag_engine t))
    as [[call|e] s1]; [|done].
  rewrite agent_run_bind. unfold agent_lift at 1.
  destruct (DemoSupportAgent._format_demo_response _ _ _) as [response|e]; [|done].
  rewrite agent_run_bind. cbn. by rewrite <- app_assoc.
Qed.

Lemma chat_run user_message session_id t :
  DemoSupportAgent.chat user_message session_id t =
  let user := history_entry (VStr "user") (VStr user_message) in
  let failure e :=
    <["success" := VBool false]>
    (<["error" := VStr (exn_str e)]>
    (<["response" := VStr apology]>
    (<["demo_mode" := VBool true]> ∅))) in
  match DemoSupportAgent._simulate_function_call user_message (rag_engine t) with
  | (Ok call, s1) =>
      match DemoSupportAgent._format_demo_response (function_name call) (result call)
              user_message with
      | Ok response =>
          (Ok (<["success" := VBool true]>
               (<["response" := response]>
               (<["session_id" := VStr session_id]>
               (<["function_called" := VStr (function_name call)]>
               (<["demo_mode" := VBool true]> ∅))))),
           AgentState s1 (conversation_history t ++
                          [user; history_entry (VStr "assistant") response]))
      | Raise e => (Ok (failure e), AgentState s1 (conversation_history t ++ [user]))
      end
  | (Raise e, s1) => (Ok (failure e), AgentState s1 (conversation_history t ++ [user]))
  end.
Proof. apply chat_any_run. Qed.

(** Rendering the entries [search_faq] serves. *)
Lemma faq_lines_served (served : list dict) qas :
  Forall2 (fun (d : dict) (qa : value * value) =>
             d !! "question" = Some qa.1 /\ d !! "answer" = Some qa.2) served qas ->
  DemoSupportAgent.faq_lines (VDict <$> served) = Ok (qa_lines qas).
Proof.
  induction 1 as [|d qa served qas [Hq Ha] _ IH]; [done|].
  cbn [fmap list_fmap DemoSupportAgent.faq_lines qa_lines py_getitem].
  change (list_fmap dict value VDict served) with (VDict <$> served).
  rewrite Hq, Ha. cbn. by rewrite IH.
Qed.

End DemoRuns.

Section DemoReplies.
Context `{!Externals} `{!TextLibrary} `{!SupportTools}.

(** The names the demo agent reports. *)
Lemma simulate_function_call_name user_message s call s1 :
  DemoSupportAgent._simulate_function_call user_message s = (Ok call, s1) ->
  function_name call ∈ ["track_order"; "search_faq"; "get_restaurant_info"].
Proof.
  assert (forall name tool,
            name ∈ ["track_order"; "search_faq"; "get_restaurant_info"] ->
            named_call name tool s = (Ok call, s1) ->
            function_name call ∈ ["track_order"; "search_faq"; "get_restaurant_info"])
    as Hnamed.
  { intros name tool Hname. rewrite named_call_run.
    destruct (tool s) as [[r|e] s']; [|done]. by intros [= <- <-]. }
  unfold DemoSupportAgent._simulate_function_call. cbv zeta.
  set (message_lower := str_lower user_message).
  change (r ← ?tool; mret (FunctionCall ?name r)) with (named_call name tool).
  destruct (any_in faq_words message_lower) eqn:Hfaq; unfold faq_words in Hfaq; rewrite Hfaq.
  - repeat match goal with
    | |- context [if str_contains ?w message_lower then _ else _] =>
        destruct (str_contains w message_lower)
    | |- context [if any_in ?ws message_lower then _ else _] =>
        destruct (any_in ws message_lower)
    end; apply Hnamed; set_solver.
  - rewrite (any_in_false _ _ "refund" Hfaq) by set_solver. cbn [andb].
    repeat match goal with
    | |- context [if str_contains ?w message_lower then _ else _] =>
        destruct (str_contains w message_lower)
    | |- context [if any_in ?ws message_lower then _ else _] =>
        destruct (any_in ws message_lower)
    end; apply Hnamed; set_solver.
Qed.

(** For the names the agent knows, the formatted response is a string. *)
Lemma format_demo_response_str name r user_message v :
  name ∈ ["track_order"; "search_faq"; "process_refund"; "get_restaurant_info"] ->
  DemoSupportAgent._format_demo_response name r user_message = Ok v ->
  exists text, v = VStr text.
Proof.
  intros Hname. unfold DemoSupportAgent._format_demo_response.
  destruct (negb _); [intros [= <-]; eauto|].
  assert (forall (A : Type) (o : outcome A) (f : A -> outcome value),
            (forall a, f a = Ok v -> exists text, v = VStr text) ->
            o ≫= f = Ok v -> exists text, v = VStr text) as Hbind.
  { intros A [a|e] f Hf; [apply Hf|done]. }
  set_unfold in Hname. destruct Hname as [->|[->|[->|[->|[]]]]];
    cbn [String.eqb Ascii.eqb Bool.eqb];
    repeat first
      [ apply Hbind; intros ?
      | match goal with |- context [if ?b then _ else _] => destruct b end ];
    intros [= <-]; eauto.
Qed.

End DemoReplies.

(** ** Looking a restaurant up *)

Section RestaurantRuns.
Context `{!Externals} `{!TextLibrary} `{!SupportTools}.

Lemma find_restaurant_skips before rest restaurant_name :
  Forall (fun d : dict => exists m, d !! "name" = Some (VStr m) /\
                                    str_lower m <> str_lower restaurant_name) before ->
  find_restaurant (before ++ rest) restaurant_name = find_restaurant rest restaurant_name.
Proof.
  induction 1 as [|d before (m & Hm & Hne) _ IH]; [done|].
  cbn [app find_restaurant]. unfold dict_getitem. cbn [py_getitem]. rewrite Hm. cbn.
  by destruct (String.eqb_spec (str_lower m) (str_lower restaurant_name)).
Qed.

Lemma py_truthy_dict (d : dict) key v : d !! key = Some v -> py_truthy (VDict d) = true.
Proof.
  intros Hkey. cbn [py_truthy].
  destruct (map_to_list d) as [|kv l] eqn:Hl; [|done].
  apply map_to_list_empty_iff in Hl. subst d. by rewrite lookup_empty in Hkey.
Qed.

End RestaurantRuns.

(** * Properties of the callers *)

(** X21.  [search_faq(query)] serves the results of [search(query, 5)]
    whose score is at least [0.3], at most five of them: when there is
    none it reports failure and carries no [faqs]; otherwise it reports
    success, [faqs] holds, in the order of the search, a copy of each such
    entry with [similarity_score] set to its score, and the message counts
    them.  It raises exactly what the search raises. *)
Theorem search_faq_serves_relevant_entries `{!Externals} query s :
  wf_state s ->
  match search query 5 s with
  | (Ok results, s1) =>
      let kept := List.filter (clears faq_threshold) results in
      (length kept <= 5)%nat /\
      exists reply s2,
        search_faq query s = (Ok reply, s2) /\
        reply !! "query" = Some (VStr query) /\
        match kept with
        | [] => reply !! "success" = Some (VBool false) /\ reply !! "faqs" = None
        | _ =>
            reply !! "success" = Some (VBool true) /\
            reply !! "faqs" =
              Some (VList ((fun r : loc * float => VDict (annotate (deref s1 r.1) r.2)) <$> kept)) /\
            reply !! "message" =
              Some (VStr ("Found " +:+ py_format (VInt (Z.of_nat (length kept))) +:+
                          " relevant FAQ(s) for your query."))
        end
  | (Raise e, s1) => search_faq query s = (Raise e, s1)
  end.
Proof.
  intros Hwf. rewrite (search_faq_run query s Hwf).
  destruct (search query 5 s) as [[results|e] s1] eqn:Hsearch; [|done]. cbv zeta.
  split.
  { pose proof (search_length _ _ _ _ _ Hsearch).
    pose proof (List.filter_length_le (clears faq_threshold) results). lia. }
  eexists _, _. split; [reflexivity|].
  destruct (List.filter (clears faq_threshold) results) as [|r kept]; [done|].
  split; [done|]. split; [done|]. split; [|done].
  by rewrite <- list_fmap_compose.
Qed.

Lemma search_faq_serves_relevant_entries_witness :
  match search "refund" 5 ready_engine with
  | (Ok results, s1) =>
      let kept := List.filter (clears faq_threshold) results in
      (length kept <= 5)%nat /\
      exists reply s2,
        search_faq "refund" ready_engine = (Ok reply, s2) /\
        reply !! "query" = Some (VStr "refund") /\
        match kept with
        | [] => reply !! "success" = Some (VBool false) /\ reply !! "faqs" = None
        | _ =>
            reply !! "success" = Some (VBool true) /\
            reply !! "faqs" =
              Some (VList ((fun r : loc * float => VDict (annotate (deref s1 r.1) r.2)) <$> kept)) /\
            reply !! "message" =
              Some (VStr ("Found " +:+ py_format (VInt (Z.of_nat (length kept))) +:+
                          " relevant FAQ(s) for your query."))
        end
  | (Raise e, s1) => search_faq "refund" ready_engine = (Raise e, s1)
  end.
Proof.
  apply (search_faq_serves_relevant_entries "refund" ready_engine).
  exists [sample_faq; order_entry sample_order_fields]. by_evaluation.
Defined.

(** X22.  Whatever the message, the demo agent answers it with one of
    five calls: tracking one of the two order ids it knows, a FAQ search
    for the message, or the lookup of one of two restaurants.  It never
    calls [process_refund]: every message with [refund] in it is taken by
    the FAQ search before the refund check is reached. *)
Theorem demo_agent_makes_one_of_five_calls
    `{!Externals} `{!TextLibrary} `{!SupportTools} user_message :
  let call := DemoSupportAgent._simulate_function_call user_message in
  call = named_call "track_order" (track_order "FD123456789") \/
  call = named_call "track_order" (track_order "FD987654321") \/
  call = named_call "search_faq" (search_faq user_message) \/
  call = named_call "get_restaurant_info" (get_restaurant_info "Mario's Pizza") \/
  call = named_call "get_restaurant_info" (get_restaurant_info "Sushi Palace").
Proof.
  cbv zeta. unfold DemoSupportAgent._simulate_function_call. cbv zeta.
  set (message_lower := str_lower user_message).
  destruct (any_in faq_words message_lower) eqn:Hfaq; unfold faq_words in Hfaq; rewrite Hfaq.
  - destruct (any_in ["track"; "status"; "order"] message_lower); [|by auto].
    destruct (str_contains "fd123456789" message_lower); [by auto|].
    destruct (str_contains "fd987654321" message_lower); by auto.
  - rewrite (any_in_false _ _ "refund" Hfaq) by set_solver. cbn [andb].
    destruct (any_in ["track"; "status"; "order"] message_lower);
      repeat match goal with
      | |- context [if str_contains ?w message_lower then _ else _] =>
          destruct (str_contains w message_lower)
      | |- context [if any_in ?ws message_lower then _ else _] =>
          destruct (any_in ws message_lower)
      end; auto 10.
Qed.

(** X23.  [chat] never raises.  It returns a dict with [demo_mode] set;
    when it reports success the history has grown by the user's message
    and the reply, and when it reports failure, whatever failed, by the
    user's message alone, which stays logged without a reply. *)
Theorem demo_chat_never_raises
    `{!Externals} `{!TextLibrary} `{!SupportTools} user_message session_id t :
  exists reply t',
    DemoSupportAgent.chat user_message session_id t = (Ok reply, t') /\
    reply !! "demo_mode" = Some (VBool true) /\
    ((exists response,
        reply !! "success" = Some (VBool true) /\
        reply !! "response" = Some response /\
        reply !! "session_id" = Some (VStr session_id) /\
        conversation_history t' =
          conversation_history t ++
          [history_entry (VStr "user") (VStr user_message);
           history_entry (VStr "assistant") response]) \/
     (reply !! "success" = Some (VBool false) /\
      reply !! "response" = Some (VStr apology) /\
      conversation_history t' =
        conversation_history t ++ [history_entry (VStr "user") (VStr user_message)])).
Proof.
  rewrite chat_run. cbv zeta.
  destruct (DemoSupportAgent._simulate_function_call user_message (rag_engine t))
    as [[call|e] s1].
  - destruct (DemoSupportAgent._format_demo_response _ _ _) as [response|e].
    + eexists _, _. split; [reflexivity|]. split; [done|]. left. by exists response.
    + eexists _, _. split; [reflexivity|]. split; [done|]. by right.
  - eexists _, _. split; [reflexivity|]. split; [done|]. by right.
Qed.

(** X24.  A failure of the engine reaches the user as an apology: when a
    message that the demo agent answers from the FAQs makes the engine's
    search raise, [chat] reports failure with the text of the exception and
    the apology as response, and logs the user's message only. *)
Theorem demo_chat_reports_search_failure
    `{!Externals} `{!TextLibrary} `{!SupportTools} user_message session_id t e :
  any_in tracking_words (str_lower user_message) = false \/
  (str_contains "fd123456789" (str_lower user_message) = false /\
   str_contains "fd987654321" (str_lower user_message) = false) ->
  any_in faq_words (str_lower user_message) = true ->
  wf_state (rag_engine t) ->
  (search user_message 5 (rag_engine t)).1 = Raise e ->
  exists reply t',
    DemoSupportAgent.chat user_message session_id t = (Ok reply, t') /\
    reply !! "success" = Some (VBool false) /\
    reply !! "error" = Some (VStr (exn_str e)) /\
    reply !! "response" = Some (VStr apology) /\
    conversation_history t' =
      conversation_history t ++ [history_entry (VStr "user") (VStr user_message)].
Proof.
  intros Htrack Hfaq Hwf Hsearch. rewrite chat_run. cbv zeta.
  rewrite (simulate_function_call_faq user_message Htrack Hfaq).
  rewrite named_call_run, (search_faq_run _ _ Hwf).
  destruct (search user_message 5 (rag_engine t)) as [[results|e'] s1]; [done|].
  cbn [fst] in Hsearch. injection Hsearch as ->. by eexists _, _.
Qed.

Lemma demo_chat_reports_search_failure_witness :
  exists reply t',
    DemoSupportAgent.chat "How do refunds work?" "default" empty_agent = (Ok reply, t') /\
    reply !! "success" = Some (VBool false) /\
    reply !! "error" = Some (VStr (exn_str IndexError)) /\
    reply !! "response" = Some (VStr apology) /\
    conversation_history t' =
      conversation_history empty_agent ++
      [history_entry (VStr "user") (VStr "How do refunds work?")].
Proof.
  apply (demo_chat_reports_search_failure "How do refunds work?" "default" empty_agent).
  - left. reflexivity.
  - reflexivity.
  - exists []. by_evaluation.
  - by_evaluation.
Defined.

(** X25.  An answer from the FAQs: when a message that the demo agent
    answers from the FAQs has search results and every result that scores
    at least [0.3] has a question and an answer, [chat] reports success with
    [search_faq] as the function called.  The response lists those
    questions and answers in the order of the search, without the scores;
    when no result scores [0.3] the response is the tool's failure message,
    and [chat] still reports success. *)
Theorem demo_chat_lists_served_faqs
    `{!Externals} `{!TextLibrary} `{!SupportTools} user_message session_id t results s1 qas :
  any_in tracking_words (str_lower user_message) = false \/
  (str_contains "fd123456789" (str_lower user_message) = false /\
   str_contains "fd987654321" (str_lower user_message) = false) ->
  any_in faq_words (str_lower user_message) = true ->
  wf_state (rag_engine t) ->
  search user_message 5 (rag_engine t) = (Ok results, s1) ->
  Forall2 (fun (r : loc * float) (qa : value * value) =>
             deref s1 r.1 !! "question" = Some qa.1 /\
             deref s1 r.1 !! "answer" = Some qa.2)
          (List.filter (clears faq_threshold) results) qas ->
  exists reply t',
    DemoSupportAgent.chat user_message session_id t = (Ok reply, t') /\
    reply !! "success" = Some (VBool true) /\
    reply !! "function_called" = Some (VStr "search_faq") /\
    reply !! "response" =
      Some (VStr (match qas with
                  | [] => "❌ " +:+ py_format (VStr "No relevant FAQs found. Please try rephrasing your question or contact support for assistance.")
                  | _ => "📚 **Here's what I found:**" +:+ nl +:+ nl +:+ qa_lines qas +:+
                         "Is there anything else I can help you with?"
                  end)).
Proof.
  intros Htrack Hfaq Hwf Hsearch Hqas. rewrite chat_run. cbv zeta.
  rewrite (simulate_function_call_faq user_message Htrack Hfaq).
  rewrite named_call_run, (search_faq_run _ _ Hwf), Hsearch. cbv zeta.
  cbn [function_name result].
  remember (List.filter (clears faq_threshold) results) as kept0 eqn:Hkept0.
  assert (Forall2 (fun (d : dict) (qa : value * value) =>
                     d !! "question" = Some qa.1 /\ d !! "answer" = Some qa.2)
            ((fun r : loc * float => annotate (deref s1 r.1) r.2) <$> kept0) qas) as Hserved.
  { apply Forall2_fmap_l. eapply Forall2_impl; [exact Hqas|].
    intros r qa [Hq Ha]. cbn. unfold annotate. by rewrite !lookup_insert_ne by done. }
  destruct Hqas as [|r qa kept qas Hqa Hrest].
  - by eexists _, _.
  - 
    unfold DemoSupportAgent._format_demo_response.
    change (dict_get _ "success" (VBool false)) with (VBool true).
    cbn [py_truthy negb String.eqb Ascii.eqb Bool.eqb].
    unfold dict_getitem. cbn [py_getitem].
    rewrite lookup_insert_ne by done. rewrite lookup_insert_ne by done.
    rewrite lookup_insert_eq. cbn [mbind outcome_bind py_iter].
    rewrite (faq_lines_served _ _ Hserved). by eexists _, _.
Qed.

Lemma demo_chat_lists_served_faqs_witness :
  exists reply t',
    DemoSupportAgent.chat "How do refunds work?" "default" ready_agent = (Ok reply, t') /\
    reply !! "success" = Some (VBool true) /\
    reply !! "function_called" = Some (VStr "search_faq") /\
    reply !! "response" =
      Some (VStr (match [(VStr "Order FD1 details", VStr (order_answer sample_order_fields));
                         (VStr "How do refunds work?", VStr "Refunds post in 3-5 days.")] with
                  | [] => "❌ " +:+ py_format (VStr "No relevant FAQs found. Please try rephrasing your question or contact support for assistance.")
                  | _ => "📚 **Here's what I found:**" +:+ nl +:+ nl +:+
                         qa_lines [(VStr "Order FD1 details", VStr (order_answer sample_order_fields));
                                   (VStr "How do refunds work?", VStr "Refunds post in 3-5 days.")] +:+
                         "Is there anything else I can help you with?"
                  end)).
Proof.
  apply (demo_chat_lists_served_faqs "How do refunds work?" "default" ready_agent
           [(1%nat, S754_finite false 3255 0); (0%nat, S754_finite false 987 0);
            (1%nat, neg_flt_max); (1%nat, neg_flt_max); (1%nat, neg_flt_max)]
           (search "How do refunds work?" 5 ready_engine).2).
  - left. reflexivity.
  - reflexivity.
  - exists [sample_faq; order_entry sample_order_fields]. by_evaluation.
  - apply (run_ok (search "How do refunds work?" 5) ready_engine). by_evaluation.
  - change (List.filter _ _) with
      [(1%nat, S754_finite false 3255 0); (0%nat, S754_finite false 987 0)].
    repeat constructor; by_evaluation.
Defined.

(** X26.  [_call_function] never raises: whatever the name and the
    arguments, it returns a dict.  A name that is none of the six tools is
    reported as unknown, a missing argument as the [KeyError] it causes,
    and an exception of the FAQ search as an error of the call; in none of
    the first two cases is a tool called. *)
Theorem call_function_never_raises
    `{!Externals} `{!TextLibrary} `{!SupportTools} name arguments s :
  (exists reply, (GeminiSupportAgent._call_function name arguments s).1 = Ok reply) /\
  (name ∉ ["track_order"; "check_delivery_time"; "process_refund"; "search_faq";
           "escalate_to_human"; "get_restaurant_info"] ->
   GeminiSupportAgent._call_function name arguments s =
     (Ok (<["success" := VBool false]>
          (<["message" := VStr ("Unknown function: " +:+ name)]> ∅)), s)) /\
  (arguments !! "query" = None ->
   GeminiSupportAgent._call_function "search_faq" arguments s =
     (Ok (<["success" := VBool false]>
          (<["message" := VStr ("Error calling function search_faq: " +:+
                                exn_str (KeyError "query"))]> ∅)), s)) /\
  (forall query e,
     arguments !! "query" = Some query -> (search_faq query s).1 = Raise e ->
     (GeminiSupportAgent._call_function "search_faq" arguments s).1 =
       Ok (<["success" := VBool false]>
           (<["message" := VStr ("Error calling function search_faq: " +:+ exn_str e)]> ∅))).
Proof.
  split; [|split; [|split]].
  - unfold GeminiSupportAgent._call_function, try_except.
    match goal with |- exists reply, (match ?body with _ => _ end).1 = _ =>
      destruct body as [[reply|e] s1] end; by eexists.
  - intros Hname. unfold GeminiSupportAgent._call_function, try_except.
    repeat match goal with
    | |- context [String.eqb name ?known] =>
        destruct (String.eqb_spec name known) as [->|_]; [exfalso; apply Hname; set_solver|]
    end.
    reflexivity.
  - intros Hquery. unfold GeminiSupportAgent._call_function, try_except.
    cbn [String.eqb Ascii.eqb Bool.eqb]. rewrite run_bind.
    unfold GeminiSupportAgent.argument. by rewrite Hquery.
  - intros query e Hquery Hraise. unfold GeminiSupportAgent._call_function, try_except.
    cbn [String.eqb Ascii.eqb Bool.eqb]. rewrite run_bind.
    unfold GeminiSupportAgent.argument. rewrite Hquery.
    unfold mret at 1, M_ret.
    destruct (search_faq query s) as [[reply|e'] s1]; [done|].
    cbn [fst] in Hraise. by injection Hraise as ->.
Qed.

(** X27.  Every call the Gemini agent extracts from a message reaches a
    tool: [_call_function] finds the name among its tools and every
    argument the tool reads, so it answers neither with an unknown function
    nor with a missing argument.  The call tracks the order whose id the
    message carries or asks a refund for it, searches the FAQs for the
    message, looks one of five restaurants up, or escalates the message;
    [check_delivery_time] is never called. *)
Theorem extracted_call_reaches_a_tool
    `{!Externals} `{!TextLibrary} `{!SupportTools} user_message response_text call s :
  GeminiSupportAgent._extract_function_call user_message response_text = Some call ->
  exists tool : M dict,
    GeminiSupportAgent._call_function
      (GeminiSupportAgent.call_name call) (GeminiSupportAgent.call_arguments call) s =
    try_except tool
      (fun e => mret (<["success" := VBool false]>
                      (<["message" := VStr ("Error calling function " +:+
                                            GeminiSupportAgent.call_name call +:+ ": " +:+
                                            exn_str e)]> ∅))) s /\
    ((exists order_id,
        find_order_id user_message = Some order_id /\
        (tool = track_order order_id \/ tool = process_refund order_id "Customer request")) \/
     tool = search_faq user_message \/
     (exists name,
        name ∈ ["Mario's Pizza"; "Sushi Palace"; "Burger King"; "Thai Garden"; "Subway"] /\
        tool = get_restaurant_info name) \/
     tool = escalate_to_human user_message).
Proof.
  unfold GeminiSupportAgent._extract_function_call. cbv zeta.
  set (lower := str_lower user_message).
  assert (forall name : string,
            name ∈ ["Mario's Pizza"; "Sushi Palace"; "Burger King"; "Thai Garden"; "Subway"] ->
            GeminiSupportAgent._call_function "get_restaurant_info"
              {["restaurant_name" := name]} s =
            try_except (get_restaurant_info name)
              (fun e => mret (<["success" := VBool false]>
                              (<["message" := VStr ("Error calling function " +:+
                                                    "get_restaurant_info" +:+ ": " +:+
                                                    exn_str e)]> ∅))) s) as Hrestaurant.
  { intros name _. unfold GeminiSupportAgent._call_function, try_except.
    cbn [String.eqb Ascii.eqb Bool.eqb]. rewrite run_bind.
    unfold GeminiSupportAgent.argument. by rewrite lookup_singleton_eq. }
  assert (forall found,
    (if any_in ["how"; "what"; "when"; "where"; "can i"; "do you"; "payment"; "cancel";
                "delivery"; "time"; "fee"] lower
     then Some (GeminiSupportAgent.ExtractedCall "search_faq" {["query" := user_message]})
     else if any_in ["mario"; "sushi"; "burger"; "thai"; "subway"] lower
     then Some (GeminiSupportAgent.ExtractedCall "get_restaurant_info"
                  {["restaurant_name" :=
                      if str_contains "mario" lower then "Mario's Pizza"
                      else if str_contains "sushi" lower then "Sushi Palace"
                      else if str_contains "burger" lower then "Burger King"
                      else if str_contains "thai" lower then "Thai Garden"
                      else if str_contains "subway" lower then "Subway"
                      else "Mario's Pizza"]})
     else if any_in ["manager"; "supervisor"; "escalate"; "complaint"; "serious"; "urgent"]
               lower
     then Some (GeminiSupportAgent.ExtractedCall "escalate_to_human" {["issue" := user_message]})
     else None) = Some found ->
    exists tool : M dict,
      GeminiSupportAgent._call_function
        (GeminiSupportAgent.call_name found) (GeminiSupportAgent.call_arguments found) s =
      try_except tool
        (fun e => mret (<["success" := VBool false]>
                        (<["message" := VStr ("Error calling function " +:+
                                              GeminiSupportAgent.call_name found +:+ ": " +:+
                                              exn_str e)]> ∅))) s /\
      ((exists order_id,
          find_order_id user_message = Some order_id /\
          (tool = track_order order_id \/ tool = process_refund order_id "Customer request")) \/
       tool = search_faq user_message \/
       (exists name,
          name ∈ ["Mario's Pizza"; "Sushi Palace"; "Burger King"; "Thai Garden"; "Subway"] /\
          tool = get_restaurant_info name) \/
       tool = escalate_to_human user_message)) as Hrest.
  { intros found. destruct (any_in _ lower).
    { intros [= <-]. exists (search_faq user_message). split; [|by right; left].
      unfold GeminiSupportAgent._call_function, try_except.
      cbn [String.eqb Ascii.eqb Bool.eqb GeminiSupportAgent.call_name
           GeminiSupportAgent.call_arguments]. rewrite run_bind.
      unfold GeminiSupportAgent.argument. by rewrite lookup_singleton_eq. }
    destruct (any_in _ lower).
    { intros [= <-]. cbn [GeminiSupportAgent.call_name GeminiSupportAgent.call_arguments].
      eexists. split; [apply Hrestaurant|right; right; left; eexists; split; [|reflexivity]];
        repeat match goal with
        | |- context [if str_contains ?w lower then _ else _] =>
            destruct (str_contains w lower)
        end; set_solver. }
    destruct (any_in _ lower); [|done].
    intros [= <-]. exists (escalate_to_human user_message). split; [|by right; right; right].
    unfold GeminiSupportAgent._call_function, try_except.
    cbn [String.eqb Ascii.eqb Bool.eqb GeminiSupportAgent.call_name
         GeminiSupportAgent.call_arguments]. rewrite run_bind.
    unfold GeminiSupportAgent.argument. by rewrite lookup_singleton_eq. }
  destruct (find_order_id user_message) as [order_id|]; [|apply Hrest].
  destruct (_ || _).
  { intros [= <-]. exists (track_order order_id). split; [|left; eauto].
    unfold GeminiSupportAgent._call_function, try_except.
    cbn [String.eqb Ascii.eqb Bool.eqb GeminiSupportAgent.call_name
         GeminiSupportAgent.call_arguments]. rewrite run_bind.
    unfold GeminiSupportAgent.argument. by rewrite lookup_singleton_eq. }
  destruct (any_in ["refund"; "cancel"; "return"; "money back"] lower); [|apply Hrest].
  intros [= <-]. exists (process_refund order_id "Customer request"). split; [|left; eauto].
  unfold GeminiSupportAgent._call_function, try_except.
  cbn [String.eqb Ascii.eqb Bool.eqb GeminiSupportAgent.call_name
       GeminiSupportAgent.call_arguments]. rewrite !run_bind.
  unfold GeminiSupportAgent.argument.
  rewrite lookup_insert_eq. unfold mret at 1, M_ret. rewrite run_bind.
  rewrite lookup_insert_ne by done. by rewrite lookup_singleton_eq.
Qed.

Lemma extracted_call_reaches_a_tool_witness :
  exists tool : M dict,
    GeminiSupportAgent._call_function "search_faq" {["query" := "what is the fee"]}
      ready_engine =
    try_except tool
      (fun e => mret (<["success" := VBool false]>
                      (<["message" := VStr ("Error calling function " +:+ "search_faq" +:+
                                            ": " +:+ exn_str e)]> ∅))) ready_engine /\
    ((exists order_id,
        find_order_id "what is the fee" = Some order_id /\
        (tool = track_order order_id \/ tool = process_refund order_id "Customer request")) \/
     tool = search_faq "what is the fee" \/
     (exists name,
        name ∈ ["Mario's Pizza"; "Sushi Palace"; "Burger King"; "Thai Garden"; "Subway"] /\
        tool = get_restaurant_info name) \/
     tool = escalate_to_human "what is the fee").
Proof.
  exact (extracted_call_reaches_a_tool "what is the fee" ""
           (GeminiSupportAgent.ExtractedCall "search_faq" {["query" := "what is the fee"]})
           ready_engine eq_refl).
Defined.

(** X28.  The chat endpoint never answers with status 400.  Whatever it
    raises is an [HTTPException] with status 500, and so is its answer to a
    blank message: the exception with status 400 is raised inside the
    [try], caught by its handler and raised again with status 500, the
    agent not having been called. *)
Theorem chat_endpoint_raises_500_only
    `{!TextLibrary} `{!Main.WebLibrary} support_agent_chat demo_mode message session_id t :
  (forall e,
     (Main.chat_endpoint support_agent_chat demo_mode message session_id t).1 = inr e ->
     exists detail, e = Main.HTTPException 500 detail) /\
  (str_strip message = EmptyString ->
   Main.chat_endpoint support_agent_chat demo_mode message session_id t =
     (inr (Main.HTTPException 500
             ("Internal server error: " +:+
              Main.endpoint_exn_str (Main.HTTPException 400 "Message cannot be empty"))), t)).
Proof.
  split.
  - intros e. unfold Main.chat_endpoint. cbv zeta.
    match goal with |- (match ?body with _ => _ end).1 = _ -> _ =>
      destruct body as [[r|e'] t'] end; cbn [fst]; [done|].
    intros [= <-]. eauto.
  - intros Hblank. unfold Main.chat_endpoint. cbv zeta. by rewrite Hblank.
Qed.

(** X29.  In demo mode the endpoint answers every message that is not
    blank and comes with a session id, whatever the tools and the engine
    do: when the validator accepts strings as they are, [chat_endpoint] on
    the demo agent's [chat] returns a [ChatResponse] for the session, and
    does not raise; a response that reports failure carries the apology.
    When the request carries a null as its session id, which a [str] field
    does not accept, no message is answered: the response fails validation
    and the endpoint raises an [HTTPException] with status 500. *)
Theorem demo_chat_endpoint_always_answers
    `{!Externals} `{!TextLibrary} `{!SupportTools} `{!Main.WebLibrary}
    message session_id t :
  (forall text, Main.validate_str (VStr text) = Some text) ->
  (forall text, Main.validate_optional_str (VStr text) = Some (Some text)) ->
  Main.validate_str VNone = None ->
  str_strip message <> EmptyString ->
  match session_id with
  | Some session =>
      exists reply t',
        Main.chat_endpoint DemoSupportAgent.chat_any true message session_id t =
          (inl reply, t') /\
        Main.session_id reply = session /\
        (Main.success reply = false -> Main.response reply = apology)
  | None =>
      exists t',
        Main.chat_endpoint DemoSupportAgent.chat_any true message session_id t =
          (inr (Main.HTTPException 500
                  ("Internal server error: " +:+
                   Main.endpoint_exn_str Main.ValidationError)), t')
  end.
Proof.
  intros Hstr Hopt Hnone Hblank. unfold Main.chat_endpoint. cbv zeta.
  assert (py_truthy (VStr (str_strip message)) = true) as ->.
  { cbn [py_truthy]. destruct (String.eqb_spec (str_strip message) EmptyString); done. }
  cbn [negb]. rewrite chat_any_run. cbv zeta.
  destruct (DemoSupportAgent._simulate_function_call message (rag_engine t))
    as [[call|e] s1] eqn:Hcall.
  - pose proof (simulate_function_call_name _ _ _ _ Hcall) as Hname.
    assert (function_name call ∈
              ["track_order"; "search_faq"; "process_refund"; "get_restaurant_info"])
      as Hknown by (revert Hname; rewrite !elem_of_cons; tauto).
    destruct (DemoSupportAgent._format_demo_response _ _ _) as [v|e] eqn:Hformat.
    + destruct (format_demo_response_str _ _ _ _ Hknown Hformat) as [text ->].
      unfold dict_get.
      repeat (rewrite lookup_insert_eq || rewrite lookup_insert_ne by done).
      cbn [py_truthy]. destruct session_id as [session|]; cbn [Main.optional_str].
      * rewrite !Hstr, Hopt. by eexists _, _.
      * rewrite Hstr, Hnone. by eexists.
    + unfold dict_get.
      repeat (rewrite lookup_insert_eq || rewrite lookup_insert_ne by done).
      cbn [py_truthy]. destruct session_id as [session|]; cbn [Main.optional_str].
      * rewrite !Hstr, Hopt. by eexists _, _.
      * rewrite Hstr, Hnone. by eexists.
  - unfold dict_get.
    repeat (rewrite lookup_insert_eq || rewrite lookup_insert_ne by done).
    cbn [py_truthy]. destruct session_id as [session|]; cbn [Main.optional_str].
    + rewrite !Hstr, Hopt. by eexists _, _.
    + rewrite Hstr, Hnone. by eexists.
Qed.

Lemma demo_chat_endpoint_always_answers_witness :
  exists reply t',
    Main.chat_endpoint DemoSupportAgent.chat_any true "How do refunds work?" (Some "default")
      empty_agent = (inl reply, t') /\
    Main.session_id reply = "default"%string /\
    (Main.success reply = false -> Main.response reply = apology).
Proof.
  apply (demo_chat_endpoint_always_answers "How do refunds work?" (Some "default")
           empty_agent).
  - reflexivity.
  - reflexivity.
  - reflexivity.
  - discriminate.
Defined.

(** X30.  [get_restaurant_info] answers with the first restaurant whose
    name equals the requested one when both are put in lower case, and the
    message names it as it is stored; when no restaurant matches it
    reports failure, quoting the name as it was asked.  The engine is not
    used. *)
Theorem get_restaurant_info_first_match
    `{!Externals} `{!TextLibrary} `{!SupportTools} restaurant_name before rest s :
  restaurant_data = before ++ rest ->
  Forall (fun d : dict => exists m, d !! "name" = Some (VStr m) /\
                                    str_lower m <> str_lower restaurant_name) before ->
  (rest = [] \/
   exists r n after, rest = r :: after /\ r !! "name" = Some (VStr n) /\
                     str_lower n = str_lower restaurant_name) ->
  get_restaurant_info restaurant_name s =
  (Ok (match rest with
       | [] =>
           <["success" := VBool false]>
           (<["message" := VStr ("Restaurant '" +:+ restaurant_name +:+
                                 "' not found in our database.")]> ∅)
       | r :: _ =>
           <["success" := VBool true]>
           (<["restaurant" := VDict r]>
           (<["message" := VStr ("Here's the information for " +:+
                                 py_format (dict_get r "name" VNone) +:+ ".")]> ∅))
       end), s).
Proof.
  intros Hdata Hbefore Hrest. unfold get_restaurant_info. rewrite run_bind.
  unfold lift at 1. rewrite Hdata, (find_restaurant_skips _ _ _ Hbefore).
  destruct Hrest as [->|(r & n & after & -> & Hname & Hlower)]; [done|].
  cbn [find_restaurant]. unfold dict_getitem, dict_get. cbn [py_getitem]. rewrite Hname.
  cbn [mbind outcome_bind as_str]. rewrite Hlower, String.eqb_refl.
  cbn [mret outcome_ret]. rewrite (py_truthy_dict r "name" _ Hname). cbn [negb].
  rewrite run_bind. unfold lift. by rewrite Hname.
Qed.

Lemma get_restaurant_info_first_match_witness :
  get_restaurant_info "SUSHI PALACE" ready_engine =
  (Ok (<["success" := VBool true]>
       (<["restaurant" := VDict (restaurant "Sushi Palace" "Japanese")]>
       (<["message" := VStr ("Here's the information for " +:+
                             py_format (dict_get (restaurant "Sushi Palace" "Japanese")
                                          "name" VNone) +:+ ".")]> ∅))),
   ready_engine).
Proof.
  apply (get_restaurant_info_first_match "SUSHI PALACE"
           [restaurant "Mario's Pizza" "Italian"] [restaurant "Sushi Palace" "Japanese"]).
  - reflexivity.
  - repeat constructor. exists "Mario's Pizza"%string. split; [reflexivity|discriminate].
  - right. exists (restaurant "Sushi Palace" "Japanese"), "Sushi Palace"%string, [].
    repeat split.
Defined.

